(** * doxygenTools: a shallow embedding of the Python sources

    The development follows the repository module by module.  First the
    definitions:

    - [PyStr], [PyDict]  the [str] methods and the [dict] operations the
                   sources use;
    - [Gitignore]  [gitignore.py]: the rule list of a [.gitignore] file;
    - [Fdox], [FdoxMain]  [fdox.py]: the rules added for Doxygen's output,
                   and the command line;
    - [DoxyFile]   [doxyFile.py]: settings of a Doxyfile and the dirty flag;
    - [ET]         the part of [xml.etree.ElementTree] the sources use;
    - [Doxygen]    [doxygenInfo.py], [doxygenFileInfo.py],
                   [doxygenFunctionInfo.py], [callLocation.py] and
                   [callGraph.py]: the registry read from Doxygen's XML and
                   the call graph computed from it;
    - [Util]       [util.py]: the search for the directories that hold
                   source files;
    - [Invariants] loop bodies and relations between stores that the
                   properties speak about;
    - concrete registries and files.

    Then the properties, file by file: [GitignoreSpec], [DoxyFileSpec],
    [XmlAccess], [BestFile], [IndexParse], [ForwardCalls], [CallGraphSpec]
    and [BackReferences]; then the laws of the strings ([PyStrLaws]) and
    further properties of each file: [GitignoreLaws], [FdoxSpec],
    [FdoxMainSpec], [DoxyFileLaws], [DoxyFileReload], [UtilSpec],
    [Placeholder], [MissingDocument], [IndexMore], [BackReferencesExact],
    [Callers] and [LocalUrl].

    Python objects that are shared and mutated live in an explicit store and
    are named by their address; exceptions are values of [exn]; a generator is
    the list of the values it yields together with the exception that ended
    it, if any. *)

From Stdlib Require Import String Ascii List Bool Arith Lia.
From stdpp Require Import base list strings option.
Import ListNotations.
Open Scope string_scope.
Open Scope list_scope.
Open Scope nat_scope.

(** ** Exceptions and results *)

Inductive exn : Type :=
| FileNotFoundError (path : string)
| IsADirectoryError (path : string)
| ParseError
| AttributeError (attr : string)
| KeyError (key : string)
| UnboundLocalError (var : string)
| IndexError.

Inductive result (A : Type) : Type :=
| Ok (a : A)
| Raise (e : exn).
Arguments Ok {A} a.
Arguments Raise {A} e.

(** ** Python strings *)

Module PyStr.

(** [str.isspace] on the ASCII range: TAB, LF, VT, FF, CR, the four
    separators FS, GS, RS, US, and the space. *)
Definition isspace (c : ascii) : bool :=
  let n := nat_of_ascii c in
  ((9 <=? n) && (n <=? 13)) || ((28 <=? n) && (n <=? 32)).

Fixpoint lstrip (s : string) : string :=
  match s with
  | EmptyString => EmptyString
  | String c s' => if isspace c then lstrip s' else s
  end.

Fixpoint rstrip (s : string) : string :=
  match s with
  | EmptyString => EmptyString
  | String c s' =>
      match rstrip s' with
      | EmptyString => if isspace c then EmptyString else String c EmptyString
      | r => String c r
      end
  end.

Definition strip (s : string) : string := lstrip (rstrip s).

(** [s.split(c)] for a one-character separator: never the empty list. *)
Fixpoint split (c : ascii) (s : string) : list string :=
  match s with
  | EmptyString => [EmptyString]
  | String a s' =>
      if Ascii.eqb a c then EmptyString :: split c s'
      else match split c s' with
           | [] => [String a EmptyString]
           | h :: t => String a h :: t
           end
  end.

(** The text before and after the first [c], when there is one. *)
Fixpoint partition (c : ascii) (s : string) : option (string * string) :=
  match s with
  | EmptyString => None
  | String a s' =>
      if Ascii.eqb a c then Some (EmptyString, s')
      else match partition c s' with
           | Some (h, t) => Some (String a h, t)
           | None => None
           end
  end.

(** [s.split(c,1)]: one or two pieces. *)
Definition split1 (c : ascii) (s : string) : list string :=
  match partition c s with
  | Some (h, t) => [h; t]
  | None => [s]
  end.

(** The text before the last [c], when there is one. *)
Fixpoint rpartition_head (c : ascii) (s : string) : option string :=
  match s with
  | EmptyString => None
  | String a s' =>
      match rpartition_head c s' with
      | Some h => Some (String a h)
      | None => if Ascii.eqb a c then Some EmptyString else None
      end
  end.

(** [s.rsplit(c,1)[0]] *)
Definition rsplit1_head (c : ascii) (s : string) : string :=
  match rpartition_head c s with
  | Some h => h
  | None => s
  end.

(** [sep.join(l)] *)
Definition join (sep : string) (l : list string) : string :=
  String.concat sep l.

Definition nl : ascii := ascii_of_nat 10.
Definition NL : string := String nl EmptyString.

(** [s[0]], when [s] is not empty *)
Definition head (s : string) : option ascii :=
  match s with
  | EmptyString => None
  | String c _ => Some c
  end.

(** [c in s] for a character [c] *)
Fixpoint contains (c : ascii) (s : string) : bool :=
  match s with
  | EmptyString => false
  | String a s' => Ascii.eqb a c || contains c s'
  end.

(** The text after the last [c], when there is one *)
Fixpoint rpartition_tail (c : ascii) (s : string) : option string :=
  match s with
  | EmptyString => None
  | String a s' =>
      match rpartition_tail c s' with
      | Some t => Some t
      | None => if Ascii.eqb a c then Some s' else None
      end
  end.

(** [s.rsplit(c,1)[-1]] *)
Definition rsplit1_last (c : ascii) (s : string) : string :=
  match rpartition_tail c s with
  | Some t => t
  | None => s
  end.

(** [s.startswith(c)] for a character [c] *)
Definition startswith (c : ascii) (s : string) : bool :=
  match s with
  | EmptyString => false
  | String a _ => Ascii.eqb a c
  end.

Definition cr : ascii := ascii_of_nat 13.

(** A text file read in text mode with universal newlines, as [open] and
    [Path.read_text] read it: a carriage return followed by a line feed,
    and a carriage return alone, both come out as one line feed. *)
Fixpoint universal_newlines (s : string) : string :=
  match s with
  | EmptyString => EmptyString
  | String c s' =>
      if Ascii.eqb c cr then
        match s' with
        | String c' _ =>
            if Ascii.eqb c' nl then universal_newlines s'
            else String nl (universal_newlines s')
        | EmptyString => String nl EmptyString
        end
      else String c (universal_newlines s')
  end.

End PyStr.

(** ** Python dictionaries

    A [dict] keeps its keys in insertion order, and assigning to a key that
    is present keeps its place: an association list with unique keys. *)

Module PyDict.

Section Dict.
Context {K V : Type} `{EqDecision K}.

Definition dict : Type := list (K * V).

(** [d.get(k)] *)
Fixpoint get (d : dict) (k : K) : option V :=
  match d with
  | [] => None
  | (k', v) :: d' => if decide (k' = k) then Some v else get d' k
  end.

(** [d[k]=v] *)
Fixpoint set (k : K) (v : V) (d : dict) : dict :=
  match d with
  | [] => [(k, v)]
  | (k', v') :: d' =>
      if decide (k' = k) then (k', v) :: d' else (k', v') :: set k v d'
  end.

(** [d.values()] and [d.keys()] *)
Definition values (d : dict) : list V := map snd d.
Definition keys (d : dict) : list K := map fst d.

(** [not d] *)
Definition is_empty (d : dict) : bool :=
  match d with [] => true | _ => false end.
End Dict.

Arguments dict K V : clear implicits.

End PyDict.

(** ** gitignore.py *)

Module Gitignore.

(** The file system as the class sees it through [pathlib]: a path names a
    directory, a text file, or nothing.  Paths are kept as the strings they
    were built from.  A file holds the characters that were written to it:
    [read_text] reads them with universal newlines, and [write_text] writes
    a line feed as it is (the line separator of the system is the line
    feed). *)
Inductive node : Type :=
| Dir
| File (text : string).

Definition filesystem : Type := string -> option node.

Definition is_dir (fs : filesystem) (p : string) : bool :=
  match fs p with Some Dir => true | _ => false end.

Definition exists_ (fs : filesystem) (p : string) : bool :=
  match fs p with Some _ => true | None => false end.

Definition read_text (fs : filesystem) (p : string) : result string :=
  match fs p with
  | Some (File t) => Ok (PyStr.universal_newlines t)
  | Some Dir => Raise (IsADirectoryError p)
  | None => Raise (FileNotFoundError p)
  end.

Definition write_text (fs : filesystem) (p : string) (data : string)
  : result filesystem :=
  match fs p with
  | Some Dir => Raise (IsADirectoryError p)
  | _ => Ok (fun q => if String.eqb q p then Some (File data) else fs q)
  end.

(** [fileOrDir/'.gitignore'] *)
Definition child (dir name : string) : string := dir +:+ "/" +:+ name.

(** [paths.globToRegex] is an imported package: the compiled pattern is
    kept as the call that produced it. *)
Inductive GitignoreRule : Type :=
| globToRegex (rule : string) (caseSensitive : bool).

Record Gitignore : Type := mkGitignore {
  currentFile : option string;
  _rules : list GitignoreRule;
  _dataLines : list string;
  hasChanged : bool
}.

(** [Gitignore.__init__] before the optional [load] *)
Definition init : Gitignore :=
  {| currentFile := None; _rules := []; _dataLines := [];
     hasChanged := false |}.

Definition set_currentFile (p : option string) (g : Gitignore) : Gitignore :=
  {| currentFile := p; _rules := _rules g; _dataLines := _dataLines g;
     hasChanged := hasChanged g |}.

Definition set_hasChanged (b : bool) (g : Gitignore) : Gitignore :=
  {| currentFile := currentFile g; _rules := _rules g;
     _dataLines := _dataLines g; hasChanged := b |}.

(** [line==rule] for some stored line *)
Definition has_line (rule : string) (lines : list string) : bool :=
  existsb (String.eqb rule) lines.

(** [addRule]: "Will not add duplicates" *)
Definition addRule (rule : string) (g : Gitignore) : Gitignore :=
  if has_line rule (_dataLines g) then g
  else {| currentFile := currentFile g;
          _rules := _rules g ++ [globToRegex rule true];
          _dataLines := _dataLines g ++ [rule];
          hasChanged := true |}.

(** The index [n] at which [enumerate] first meets [line==rule] *)
Fixpoint index_of (rule : string) (lines : list string) : option nat :=
  match lines with
  | [] => None
  | line :: rest =>
      if String.eqb line rule then Some 0
      else option_map S (index_of rule rest)
  end.

(** [removeRule]: [del] on a list raises [IndexError] out of range. *)
Definition removeRule (rule : string) (g : Gitignore)
  : result unit * Gitignore :=
  match index_of rule (_dataLines g) with
  | None => (Ok tt, g)
  | Some n =>
      if n <? length (_rules g) then
        (Ok tt,
         {| currentFile := currentFile g;
            _rules := delete n (_rules g);
            _dataLines := delete n (_dataLines g);
            hasChanged := true |})
      else (Raise IndexError, g)
  end.

(** The loop of [load] over the lines of the file *)
Definition keep_line (line : string) : bool :=
  match PyStr.head line with
  | Some c => negb (Ascii.eqb c "#"%char)
  | None => false
  end.

Fixpoint load_lines (data : list string) (g : Gitignore) : Gitignore :=
  match data with
  | [] => g
  | line :: rest =>
      let line := PyStr.lstrip line in
      load_lines rest (if keep_line line then addRule line g else g)
  end.

Definition is_nil {A} (l : list A) : bool :=
  match l with [] => true | _ => false end.

(** [load(fileOrDir,addToExisting,errorOnFileNotFound)] *)
Definition load (fileOrDir : option string) (addToExisting : bool)
    (errorOnFileNotFound : bool) (fs : filesystem) (g : Gitignore)
  : result unit * Gitignore :=
  let fileOrDir :=
    match fileOrDir with
    | Some p => p
    | None => match currentFile g with
              | Some p => p
              | None => ".gitignore"
              end
    end in
  let g :=
    if addToExisting then g
    else {| currentFile := currentFile g; _rules := []; _dataLines := [];
            hasChanged := hasChanged g |} in
  let startedEmpty := is_nil (_rules g) in
  let fileOrDir :=
    if is_dir fs fileOrDir then child fileOrDir ".gitignore"
    else fileOrDir in
  let g := set_currentFile (Some fileOrDir) g in
  if negb (exists_ fs fileOrDir) then
    if errorOnFileNotFound then (Raise (FileNotFoundError fileOrDir), g)
    else (Ok tt, g)
  else
    match read_text fs fileOrDir with
    | Raise e => (Raise e, g)
    | Ok text =>
        let g := load_lines (PyStr.split PyStr.nl text) g in
        (Ok tt, set_hasChanged (negb startedEmpty) g)
    end.

Definition path_eqb (a : option string) (b : string) : bool :=
  match a with
  | Some p => String.eqb p b
  | None => false
  end.

(** [save(fileOrDir)] *)
Definition save (fileOrDir : option string) (fs : filesystem)
    (g : Gitignore) : result unit * Gitignore * filesystem :=
  let fileOrDir :=
    match fileOrDir with
    | Some p => p
    | None => match currentFile g with
              | Some p => p
              | None => ".gitignore"
              end
    end in
  let fileOrDir :=
    if is_dir fs fileOrDir then child fileOrDir ".gitignore"
    else fileOrDir in
  if hasChanged g || negb (path_eqb (currentFile g) fileOrDir) then
    let g := set_currentFile (Some fileOrDir) g in
    match write_text fs fileOrDir (PyStr.join PyStr.NL (_dataLines g)) with
    | Raise e => (Raise e, g, fs)
    | Ok fs' => (Ok tt, set_hasChanged false g, fs')
    end
  else (Ok tt, g, fs).

(** The text a path holds, if it is a file *)
Definition text_at (fs : filesystem) (p : string) : option string :=
  match fs p with
  | Some (File t) => Some t
  | _ => None
  end.

(** The compiled rules stay in step with the stored lines. *)
Definition in_step (g : Gitignore) : Prop :=
  _rules g = map (fun l => globToRegex l true) (_dataLines g).

(** [Gitignore(fileOrDir,errorOnFileNotFound)] *)
Definition new (fileOrDir : option string) (errorOnFileNotFound : bool)
    (fs : filesystem) : result unit * Gitignore :=
  match fileOrDir with
  | None => (Ok tt, init)
  | Some p => load (Some p) false errorOnFileNotFound fs init
  end.

(** [__repr__] *)
Definition __repr__ (g : Gitignore) : string :=
  PyStr.join PyStr.NL (_dataLines g).

(** A line that [load] takes for a rule as it stands: no blanks in front,
    not empty, no comment, and no line break inside (neither a line feed
    nor a carriage return, which is read as one). *)
Definition rule_line (line : string) : Prop :=
  PyStr.lstrip line = line /\ keep_line line = true /\
  PyStr.contains PyStr.nl line = false /\
  PyStr.contains PyStr.cr line = false.

End Gitignore.

(** ** fdox.py: the rules added for Doxygen's output *)

Module Fdox.

Import Gitignore.

(** The block of [fdox] under [if addDoxygenStuffToGitIgnore]: the
    [.gitignore] of [directory] is read if there is one, the two rules are
    added, and the file is saved. *)
Definition addDoxygenStuffToGitIgnore (directory : string) (fs : filesystem)
  : result unit * Gitignore * filesystem :=
  match new (Some directory) false fs with
  | (Raise e, g) => (Raise e, g, fs)
  | (Ok _, g) =>
      let g := addRule "Doxyfile" g in
      let g := addRule "doxygen/*" g in
      save None fs g
  end.

End Fdox.

(** ** doxyFile.py: settings and the dirty flag *)

Module DoxyFile.

(** A value handed to the setter: a [bool], a [str], or anything else,
    which the setter turns into text with [str(value)]. *)
Inductive PyValue : Type :=
| VBool (b : bool)
| VStr (s : string)
| VOther (str : string).

Record DoxyfileSetting : Type := mkSetting {
  name : string;
  docs : string;
  _value : string;
  _lineNo : nat
}.

(** The settings are owned by their Doxyfile and reached through its
    [_settings] dictionary, so a setting is named by its key. *)
Record DoxyFile : Type := mkDoxyFile {
  autosave : bool;
  filename : string;
  _dirty : bool;
  _lines : list string;
  _settings : option (PyDict.dict string DoxyfileSetting)
}.

(** Every [write] of a whole file, oldest first: path and text. *)
Definition disk : Type := list (string * string).

Definition M (A : Type) : Type := DoxyFile -> disk -> result A * DoxyFile * disk.

Definition set_dirty (b : bool) (d : DoxyFile) : DoxyFile :=
  {| autosave := autosave d; filename := filename d; _dirty := b;
     _lines := _lines d; _settings := _settings d |}.

Definition set_lines (l : list string) (d : DoxyFile) : DoxyFile :=
  {| autosave := autosave d; filename := filename d; _dirty := _dirty d;
     _lines := l; _settings := _settings d |}.

Definition set_settings (ss : PyDict.dict string DoxyfileSetting)
    (d : DoxyFile) : DoxyFile :=
  {| autosave := autosave d; filename := filename d; _dirty := _dirty d;
     _lines := _lines d; _settings := Some ss |}.

Definition with_value (v : string) (st : DoxyfileSetting) : DoxyfileSetting :=
  {| name := name st; docs := docs st; _value := v; _lineNo := _lineNo st |}.

(** [save(filename)] *)
Definition save (file : option string) : M unit :=
  fun d dk =>
    let file := match file with Some f => f | None => filename d end in
    let data := PyStr.join PyStr.NL (_lines d) in
    (Ok tt, set_dirty false d, dk ++ [(file, data)]).

(** [markDirty()] *)
Definition markDirty : M unit :=
  fun d dk =>
    if autosave d then save (Some (filename d)) d dk
    else (Ok tt, set_dirty true d, dk).

(** The first lines of the setter: the text of the new value *)
Definition textual (value : PyValue) : string :=
  match value with
  | VBool true => "YES"
  | VBool false => "NO"
  | VStr s => s
  | VOther s => s
  end.

(** [DoxyfileSetting.value] setter, on the setting stored under [k] *)
Definition value_setter (k : string) (st : DoxyfileSetting)
    (value : PyValue) : M unit :=
  fun d dk =>
    let value := textual value in
    let d :=
      match _settings d with
      | Some ss => set_settings (PyDict.set k (with_value value st) ss) d
      | None => d
      end in
    match _lines d !! _lineNo st with
    | None => (Raise IndexError, d, dk)
    | Some line =>
        match PyStr.split1 "="%char line with
        | prev0 :: prev1 :: _ =>
            if String.eqb (PyStr.lstrip prev1) value then (Ok tt, d, dk)
            else
              markDirty
                (set_lines (<[_lineNo st := prev0 +:+ "= " +:+ value]> (_lines d)) d)
                dk
        | _ => (Raise IndexError, d, dk)
        end
    end.

(** [__setitem__(k,v)].  The property [settings] calls [load] when nothing
    has been read yet, and [load], after it has emptied the settings, asks
    the [str] that [os.path.expandvars] returned for [read_text]. *)
Definition setitem (k : string) (v : PyValue) : M unit :=
  fun d dk =>
    match _settings d with
    | None => (Raise (AttributeError "read_text"), set_settings [] d, dk)
    | Some ss =>
        match PyDict.get ss k with
        | None => (Raise (KeyError k), d, dk)
        | Some st => value_setter k st v d dk
        end
    end.

(** The value a setting's line holds: the text after the first [=],
    without the blanks that follow the sign. *)
Definition line_value (line : string) : option string :=
  match PyStr.split1 "="%char line with
  | _ :: prev1 :: _ => Some (PyStr.lstrip prev1)
  | _ => None
  end.

(** What [load] leaves: the setting under [k] points at a line of the
    file, and the value it holds is the value on that line. *)
Definition loaded (d : DoxyFile) (k : string) (st : DoxyfileSetting) : Prop :=
  exists ss line,
    _settings d = Some ss /\ PyDict.get ss k = Some st /\
    _lines d !! _lineNo st = Some line /\
    line_value line = Some (_value st).

(** [line[2:]] *)
Definition from2 (s : string) : string :=
  match s with
  | String _ (String _ r) => r
  | _ => EmptyString
  end.

Definition is_nil {A} (l : list A) : bool :=
  match l with [] => true | _ => false end.

(** The loop of [load] over the lines it has read, from line [lineNo] on *)
Fixpoint load_loop (lineNo : nat) (lines : list string)
    (lastsection section : list string)
    (ss : PyDict.dict string DoxyfileSetting)
  : PyDict.dict string DoxyfileSetting :=
  match lines with
  | [] => ss
  | line :: rest =>
      match line with
      | EmptyString =>
          if is_nil section
          then load_loop (S lineNo) rest lastsection section ss
          else load_loop (S lineNo) rest section [] ss
      | String c _ =>
          if Ascii.eqb c "#"%char then
            load_loop (S lineNo) rest lastsection (section ++ [from2 line]) ss
          else
            match PyStr.split1 "="%char line with
            | col0 :: col1 :: _ =>
                let lastsection :=
                  if is_nil section then lastsection else section in
                let setting :=
                  {| name := PyStr.strip col0;
                     docs := PyStr.join PyStr.NL lastsection;
                     _value := PyStr.strip col1;
                     _lineNo := lineNo |} in
                load_loop (S lineNo) rest lastsection []
                  (PyDict.set (name setting) setting ss)
            | _ => load_loop (S lineNo) rest lastsection section ss
            end
      end
  end.

(** What [load] does with the text [data] of the file once it has it *)
Definition load_text (data : string) (d : DoxyFile) : DoxyFile :=
  let lines := map PyStr.strip (PyStr.split PyStr.nl data) in
  {| autosave := autosave d; filename := filename d; _dirty := _dirty d;
     _lines := lines;
     _settings := Some (load_loop 0 lines [] [] []) |}.

Definition set_autosave (b : bool) (d : DoxyFile) : DoxyFile :=
  {| autosave := b; filename := filename d; _dirty := _dirty d;
     _lines := _lines d; _settings := _settings d |}.

(** [__str__] *)
Definition __str__ (d : DoxyFile) : string :=
  PyStr.join PyStr.NL (_lines d).

(** The loop of [update] over the items of [values] *)
Fixpoint update_loop (values : PyDict.dict string PyValue) : M unit :=
  fun d dk =>
    match values with
    | [] => (Ok tt, d, dk)
    | (k, v) :: rest =>
        match setitem k v d dk with
        | (Ok _, d', dk') => update_loop rest d' dk'
        | (Raise e, d', dk') => (Raise e, d', dk')
        end
    end.

(** [update(values)]: no [try], so an exception of the loop leaves
    [autosave] as the loop had it. *)
Definition update (values : PyDict.dict string PyValue) : M unit :=
  fun d dk =>
    let originalAutosave := autosave d in
    match update_loop values (set_autosave false d) dk with
    | (Raise e, d1, dk1) => (Raise e, d1, dk1)
    | (Ok _, d1, dk1) =>
        if originalAutosave then
          match (if _dirty d1 then save None d1 dk1 else (Ok tt, d1, dk1)) with
          | (Raise e, d2, dk2) => (Raise e, d2, dk2)
          | (Ok _, d2, dk2) => (Ok tt, set_autosave originalAutosave d2, dk2)
          end
        else (Ok tt, d1, dk1)
    end.

(** The name and the value that the loop of [load] reads from a line, when
    it takes the line for a setting: the line is not empty, is no comment,
    and holds a [=]. *)
Definition setting_of (line : string) : option (string * string) :=
  match line with
  | EmptyString => None
  | String c _ =>
      if Ascii.eqb c "#"%char then None
      else match PyStr.split1 "="%char line with
           | col0 :: col1 :: _ => Some (PyStr.strip col0, PyStr.strip col1)
           | _ => None
           end
  end.

(** Every setting points at a line that holds a [=]. *)
Definition pointed (d : DoxyFile) : Prop :=
  exists ss,
    _settings d = Some ss /\
    forall k st, PyDict.get ss k = Some st ->
      exists line v,
        _lines d !! _lineNo st = Some line /\ line_value line = Some v.

(** Line [i] is the last line of [lines] that sets [k], and sets it to [v]. *)
Definition sets_last (lines : list string) (k : string) (i : nat)
    (v : string) : Prop :=
  (exists line, lines !! i = Some line /\ setting_of line = Some (k, v)) /\
  forall j line w,
    i < j -> lines !! j = Some line -> setting_of line <> Some (k, w).

(** No line of [lines] sets [k]. *)
Definition never_set (lines : list string) (k : string) : Prop :=
  forall j line w, lines !! j = Some line -> setting_of line <> Some (k, w).

(** The settings [ss] are those the lines set: a key that is there has
    the name, the line number and the value of the last line that sets it,
    and a key that is not there is set by no line. *)
Definition reads (lines : list string)
    (ss : PyDict.dict string DoxyfileSetting) : Prop :=
  forall k,
    match PyDict.get ss k with
    | Some st => name st = k /\ sets_last lines k (_lineNo st) (_value st)
    | None => never_set lines k
    end.

End DoxyFile.

(** ** xml.etree.ElementTree, as far as the sources use it *)

Module ET.

Import PyDict.

#[warnings="-register-all"]
Inductive Element : Type :=
| Elem (tag : string) (attrib : list (string * string))
       (text : option string) (children : list Element).

Definition tag (e : Element) : string :=
  match e with Elem t _ _ _ => t end.
Definition attrib (e : Element) : dict string string :=
  match e with Elem _ a _ _ => a end.
Definition text (e : Element) : option string :=
  match e with Elem _ _ t _ => t end.
Definition children (e : Element) : list Element :=
  match e with Elem _ _ _ c => c end.

(** [e.attrib[k]] *)
Definition attrib_item (e : Element) (k : string) : result string :=
  match get (attrib e) k with
  | Some v => Ok v
  | None => Raise (KeyError k)
  end.

(** [e.attrib.get(k,default)] *)
Definition attrib_get (e : Element) (k : string) (dflt : string) : string :=
  default dflt (get (attrib e) k).

(** [e.findall(t)]: the children with tag [t], in document order *)
Definition findall (t : string) (e : Element) : list Element :=
  filter (fun c => tag c = t) (children e).

(** [e.find(t)] *)
Definition find (t : string) (e : Element) : option Element :=
  head (findall t e).

(** Everything below [e], in document order *)
Fixpoint descendants (e : Element) : list Element :=
  match e with
  | Elem _ _ _ cs =>
      (fix go (l : list Element) : list Element :=
         match l with
         | [] => []
         | c :: l' => c :: descendants c ++ go l'
         end) cs
  end.

(** [e.findall('.//t')] *)
Definition findall_below (t : string) (e : Element) : list Element :=
  filter (fun c => tag c = t) (descendants e).

(** [e.findall(".//*[@id='i']")] *)
Definition findall_id (i : string) (e : Element) : list Element :=
  filter (fun c => get (attrib c) "id" = Some i) (descendants e).

(** [e.find(t).text]: reading [text] of [None] is an [AttributeError]. *)
Definition find_text (t : string) (e : Element) : result (option string) :=
  match find t e with
  | Some c => Ok (text c)
  | None => Raise (AttributeError "text")
  end.

(** [ET.Element(t)] *)
Definition Element_ (t : string) : Element := Elem t [] None [].

End ET.

(** ** The Doxygen registry and the call graph *)

Module Doxygen.

Import PyDict.

(** *** What Doxygen left on disk

    A document is missing, or is not well-formed XML, or parses to its
    root element.  The per-compound documents are named by their file name
    inside the [xml] directory of the output. *)

Inductive document : Type :=
| Absent
| Malformed
| Parsed (root : ET.Element).

Record World : Type := mkWorld {
  index_xml : document;
  compound_xml : string -> document
}.

(** *** The objects *)

(** Objects are named by the order of their construction. *)
Abbreviation addr := nat (only parsing).

(** [CallLocation]: fields [fn] and [location] *)
Record CallLocation : Type := mkCallLocation {
  cl_fn : addr;
  cl_location : string
}.

(** Keys of [DoxygenFunctionInfo.files]: the [name] of a file, or the
    [Path] that [bestFile] makes up for a function without files. *)
Inductive filekey : Type :=
| ByName (n : option string)
| ByPath (p : string).

#[global] Instance filekey_eq_dec : EqDecision filekey.
Proof. solve_decision. Defined.

Record DoxygenFunctionInfo : Type := mkFunctionInfo {
  name : option string;
  refid : string;
  files : dict filekey addr;
  _parentReferences : list CallLocation
}.

(** [DoxygenFileInfo]: fields [name], [functions], [_xml], [xmlFilename] *)
Record DoxygenFileInfo : Type := mkFileInfo {
  file_name : option string;
  functions : dict (option string) addr;
  _xml : option ET.Element;
  xmlFilename : string
}.

Record DoxygenInfo : Type := mkInfo {
  _functions : dict (option string) addr;
  _references : dict string addr;
  _files : dict (option string) addr;
  _functionBackreferencesCalculated : bool
}.

(** [CallGraphNode]: a function and the call that led to it *)
Record CallGraphNode : Type := mkNode {
  fn : addr;
  callLocation : option CallLocation
}.

(** The registry, the objects it has constructed, and what was printed. *)
Record store : Type := mkStore {
  info : DoxygenInfo;
  functionInfos : list DoxygenFunctionInfo;
  fileInfos : list DoxygenFileInfo;
  stdout : list string
}.

(** [DoxygenInfo.__init__] before the first scan *)
Definition init : store :=
  {| info := {| _functions := []; _references := []; _files := [];
                _functionBackreferencesCalculated := false |};
     functionInfos := []; fileInfos := []; stdout := [] |}.

Definition no_function : DoxygenFunctionInfo :=
  {| name := None; refid := ""; files := []; _parentReferences := [] |}.

Definition no_file : DoxygenFileInfo :=
  {| file_name := None; functions := []; _xml := None; xmlFilename := "" |}.

Definition function_at (s : store) (a : addr) : DoxygenFunctionInfo :=
  default no_function (functionInfos s !! a).

Definition file_at (s : store) (a : addr) : DoxygenFileInfo :=
  default no_file (fileInfos s !! a).

Definition with_info (f : DoxygenInfo -> DoxygenInfo) (s : store) : store :=
  {| info := f (info s); functionInfos := functionInfos s;
     fileInfos := fileInfos s; stdout := stdout s |}.

Definition with_function (a : addr)
    (f : DoxygenFunctionInfo -> DoxygenFunctionInfo) (s : store) : store :=
  {| info := info s; functionInfos := alter f a (functionInfos s);
     fileInfos := fileInfos s; stdout := stdout s |}.

Definition with_file (a : addr)
    (f : DoxygenFileInfo -> DoxygenFileInfo) (s : store) : store :=
  {| info := info s; functionInfos := functionInfos s;
     fileInfos := alter f a (fileInfos s); stdout := stdout s |}.

Definition with_stdout (line : string) (s : store) : store :=
  {| info := info s; functionInfos := functionInfos s;
     fileInfos := fileInfos s; stdout := stdout s ++ [line] |}.

(** *** Code that reads and changes the store, and may raise *)

Definition M (A : Type) : Type := store -> result A * store.

Definition ret {A} (a : A) : M A := fun s => (Ok a, s).

Definition raise {A} (e : exn) : M A := fun s => (Raise e, s).

Definition bind {A B} (m : M A) (k : A -> M B) : M B :=
  fun s =>
    match m s with
    | (Ok a, s') => k a s'
    | (Raise e, s') => (Raise e, s')
    end.

Definition lift {A} (r : result A) : M A := fun s => (r, s).

Definition gets {A} (f : store -> A) : M A := fun s => (Ok (f s), s).

Definition modify (f : store -> store) : M unit := fun s => (Ok tt, f s).

Notation "x <- m ;; k" := (bind m (fun x => k))
  (at level 100, m at next level, right associativity).
Notation "m ;;; k" := (bind m (fun _ => k))
  (at level 100, right associativity).

(** [for a in l: body(a)] *)
Fixpoint for_each {A} (l : list A) (body : A -> M unit) : M unit :=
  match l with
  | [] => ret tt
  | a :: l' => body a ;;; for_each l' body
  end.

(** [acc=...; for a in l: acc=body(acc,a)] *)
Fixpoint fold_each {A B} (l : list A) (body : B -> A -> M B) (acc : B) : M B :=
  match l with
  | [] => ret acc
  | a :: l' => acc' <- body acc a ;; fold_each l' body acc'
  end.

(** A generator that is run to its end: the values it yields, in order,
    and the exception that stopped it, if one did. *)
Definition Gen (Y : Type) : Type := store -> (list Y * option exn) * store.

(** A generator whose body is a loop over [l] that carries a local
    variable [st] and yields [ys] in each round. *)
Fixpoint gen_loop {A St Y} (body : St -> A -> M (St * list Y))
    (st : St) (l : list A) : Gen Y :=
  match l with
  | [] => fun s => (([], None), s)
  | a :: l' =>
      fun s =>
        match body st a s with
        | (Raise e, s') => (([], Some e), s')
        | (Ok (st', ys), s') =>
            let '((ys', e), s'') := gen_loop body st' l' s' in
            ((ys ++ ys', e), s'')
        end
  end.

(** [for y in g: body(y)].  The loop bodies of the sources touch nothing
    the generators read, so the generator is run first. *)
Definition consume {Y} (g : Gen Y) (body : Y -> M unit) : M unit :=
  fun s =>
    let '((ys, e), s1) := g s in
    match for_each ys body s1 with
    | (Ok _, s2) =>
        match e with
        | None => (Ok tt, s2)
        | Some e => (Raise e, s2)
        end
    | (Raise e', s2) => (Raise e', s2)
    end.

(** The double quote character, and [print(line)] *)
Definition quote : string := String (ascii_of_nat 34) EmptyString.

Definition print (line : string) : M unit := modify (with_stdout line).

Definition is_nil {A} (l : list A) : bool :=
  match l with [] => true | _ => false end.

(** [pathlib.Path(s)] and [str] of it; the rewriting of separators and
    dots that [pathlib] does is left out, a path is the text it came from. *)
Definition Path (s : string) : string := s.

(** [str(x)] for a name that may be [None] *)
Definition str_of (n : option string) : string :=
  match n with
  | Some t => t
  | None => "None"
  end.

(** Constructors: the new object gets the next free address. *)
Definition new_file (n : option string) (xmlFile : string) : M addr :=
  fun s =>
    (Ok (length (fileInfos s)),
     {| info := info s; functionInfos := functionInfos s;
        fileInfos := fileInfos s ++
          [{| file_name := n; functions := []; _xml := None;
              xmlFilename := xmlFile |}];
        stdout := stdout s |}).

Definition new_function (n : option string) (rid : string) : M addr :=
  fun s =>
    (Ok (length (functionInfos s)),
     {| info := info s;
        functionInfos := functionInfos s ++
          [{| name := n; refid := rid; files := [];
              _parentReferences := [] |}];
        fileInfos := fileInfos s; stdout := stdout s |}).

(** Assignments to fields of the objects *)
Definition set_xml (e : ET.Element) (f : DoxygenFileInfo) : DoxygenFileInfo :=
  {| file_name := file_name f; functions := functions f; _xml := Some e;
     xmlFilename := xmlFilename f |}.

Definition set_file_function (n : option string) (a : addr)
    (f : DoxygenFileInfo) : DoxygenFileInfo :=
  {| file_name := file_name f; functions := set n a (functions f);
     _xml := _xml f; xmlFilename := xmlFilename f |}.

Definition set_function_file (k : filekey) (fa : addr)
    (f : DoxygenFunctionInfo) : DoxygenFunctionInfo :=
  {| name := name f; refid := refid f; files := set k fa (files f);
     _parentReferences := _parentReferences f |}.

Definition append_parent (c : CallLocation)
    (f : DoxygenFunctionInfo) : DoxygenFunctionInfo :=
  {| name := name f; refid := refid f; files := files f;
     _parentReferences := _parentReferences f ++ [c] |}.

Definition reset_index (i : DoxygenInfo) : DoxygenInfo :=
  {| _functions := []; _references := []; _files := [];
     _functionBackreferencesCalculated :=
       _functionBackreferencesCalculated i |}.

Definition set_function (n : option string) (a : addr)
    (i : DoxygenInfo) : DoxygenInfo :=
  {| _functions := set n a (_functions i); _references := _references i;
     _files := _files i;
     _functionBackreferencesCalculated :=
       _functionBackreferencesCalculated i |}.

Definition set_reference (rid : string) (a : addr)
    (i : DoxygenInfo) : DoxygenInfo :=
  {| _functions := _functions i; _references := set rid a (_references i);
     _files := _files i;
     _functionBackreferencesCalculated :=
       _functionBackreferencesCalculated i |}.

Definition set_calculated (b : bool) (i : DoxygenInfo) : DoxygenInfo :=
  {| _functions := _functions i; _references := _references i;
     _files := _files i; _functionBackreferencesCalculated := b |}.

(** [for parent in ps: yield from sub(parent)], for a generator [sub]
    that may not come to its end ([None]) *)
Fixpoint yield_from_each {A Y}
    (sub : A -> store -> option ((list Y * option exn) * store))
    (ps : list A) (s : store) : option ((list Y * option exn) * store) :=
  match ps with
  | [] => Some (([], None), s)
  | parent :: ps' =>
      match sub parent s with
      | None => None
      | Some ((ys, Some e), s') => Some ((ys, Some e), s')
      | Some ((ys, None), s') =>
          match yield_from_each sub ps' s' with
          | None => None
          | Some ((ys', e), s'') => Some ((ys ++ ys', e), s'')
          end
      end
  end.

Section Operations.

Variable w : World.

(** *** doxygenFileInfo.py *)

(** [DoxygenFileInfo.xml]: only [FileNotFoundError] is caught. *)
Definition FileInfo_xml (self : addr) : M ET.Element :=
  cached <- gets (fun s => _xml (file_at s self)) ;;
  match cached with
  | Some e => ret e
  | None =>
      path <- gets (fun s => xmlFilename (file_at s self)) ;;
      match compound_xml w path with
      | Parsed e => modify (with_file self (set_xml e)) ;;; ret e
      | Malformed => raise ParseError
      | Absent =>
          print ("ERR: " +:+ quote +:+ path +:+ quote +:+ " not found") ;;;
          modify (with_file self (set_xml (ET.Element_ "file_not_found"))) ;;;
          ret (ET.Element_ "file_not_found")
      end
  end.

(** [DoxygenFileInfo] has no attribute [extension], and no
    [__getattr__]: reading it raises. *)
Definition FileInfo_extension (self : addr) : M string :=
  raise (AttributeError "extension").

(** *** doxygenInfo.py *)

(** [DoxygenInfo.xml]: [ET.parse] of the index *)
Definition Info_xml : M ET.Element :=
  match index_xml w with
  | Parsed root => ret root
  | Malformed => raise ParseError
  | Absent => raise (FileNotFoundError "index.xml")
  end.

(** The body of the loop over the [member]s of a [compound] *)
Definition reparse_member (fileInfo : addr) (member : ET.Element) : M unit :=
  rid <- lift (ET.attrib_item member "refid") ;;
  kind <- lift (ET.attrib_item member "kind") ;;
  if String.eqb kind "function" then
    refs <- gets (fun s => _references (info s)) ;;
    f <- match get refs rid with
         | Some f => ret f
         | None =>
             n <- lift (ET.find_text "name" member) ;;
             f <- new_function n rid ;;
             modify (with_info (set_function n f)) ;;;
             modify (with_info (set_reference rid f)) ;;;
             ret f
         end ;;
    n <- gets (fun s => name (function_at s f)) ;;
    modify (with_file fileInfo (set_file_function n f)) ;;;
    fname <- gets (fun s => file_name (file_at s fileInfo)) ;;
    modify (with_function f (set_function_file (ByName fname) fileInfo))
  else ret tt.

(** The body of the loop over the [compound]s of the index *)
Definition reparse_compound (file : ET.Element) : M unit :=
  if negb (String.eqb (ET.attrib_get file "kind" "") "file") then ret tt
  else
    rid <- lift (ET.attrib_item file "refid") ;;
    n <- lift (ET.find_text "name" file) ;;
    fileInfo <- new_file n (rid +:+ ".xml") ;;
    for_each (ET.findall "member" file) (reparse_member fileInfo).

(** [_reparseXmlIndex] *)
Definition _reparseXmlIndex : M unit :=
  modify (with_info reset_index) ;;;
  xmlIndex <- Info_xml ;;
  for_each (ET.findall_below "compound" xmlIndex) reparse_compound.

(** The properties [functions] and [references] *)
Definition Info_functions : M (dict (option string) addr) :=
  fs <- gets (fun s => _functions (info s)) ;;
  if is_empty fs then
    _reparseXmlIndex ;;; gets (fun s => _functions (info s))
  else ret fs.

Definition Info_references : M (dict string addr) :=
  rs <- gets (fun s => _references (info s)) ;;
  if is_empty rs then
    _reparseXmlIndex ;;; gets (fun s => _references (info s))
  else ret rs.

(** *** doxygenFunctionInfo.py *)

(** [bestFile]; [None] is the Python value. *)
Definition bestFile (self : addr) : M (option addr) :=
  fs <- gets (fun s => files (function_at s self)) ;;
  if is_empty fs then
    rid <- gets (fun s => refid (function_at s self)) ;;
    let f := PyStr.rsplit1_head "_"%char rid +:+ ".xml" in
    fileInfo <- new_file (Some "") f ;;
    n <- gets (fun s => name (function_at s self)) ;;
    modify (with_file fileInfo (set_file_function n self)) ;;;
    modify (with_function self (set_function_file (ByPath f) fileInfo)) ;;;
    ret (Some fileInfo)
  else
    fold_each (values fs)
      (fun best f =>
         match best with
         | None => ret (Some f)
         | Some b =>
             ext <- FileInfo_extension b ;;
             if String.eqb ext ".h" then ret (Some f) else ret best
         end)
      None.

(** [self.bestFile.name] *)
Definition bestFile_name (self : addr) : M (option string) :=
  best <- bestFile self ;;
  match best with
  | Some b => gets (fun s => file_name (file_at s b))
  | None => raise (AttributeError "name")
  end.

(** [DoxygenFunctionInfo.xml] *)
Definition FunctionInfo_xml (self : addr) : M (list ET.Element) :=
  fs <- gets (fun s => values (files (function_at s self))) ;;
  fold_each fs
    (fun xml xmlFile =>
       doc <- FileInfo_xml xmlFile ;;
       rid <- gets (fun s => refid (function_at s self)) ;;
       let tags := ET.findall_id rid doc in
       if is_nil tags then
         n <- bestFile_name self ;;
         print ("refid " +:+ rid +:+ " not found in " +:+ quote +:+ str_of n
              +:+ quote) ;;;
         ret xml
       else ret (xml ++ tags))
    [].

(** One round of the loop of [getDefinitionLocation] *)
Definition definition_of (includeRow includeSpan : bool)
    (element : ET.Element) : result string :=
  match ET.find "location" element with
  | None => Raise (AttributeError "attrib")
  | Some loc =>
      match ET.attrib_item loc "file" with
      | Raise e => Raise e
      | Ok file =>
          let filename := ET.attrib_get loc "bodyfile" file in
          if includeRow then
            match ET.attrib_item loc "line" with
            | Raise e => Raise e
            | Ok line =>
                let row := ET.attrib_get loc "bodystart" line in
                if includeSpan then
                  let endRow := ET.attrib_get loc "bodyend" row in
                  if String.eqb row endRow
                  then Ok (filename +:+ ":" +:+ row)
                  else Ok (filename +:+ ":" +:+ row +:+ "-" +:+ endRow)
                else Ok (filename +:+ ":" +:+ row)
            end
          else Ok filename
      end
  end.

(** [getDefinitionLocation]: [filename] is bound by the loop only. *)
Definition getDefinitionLocation (self : addr)
    (includeRow includeColumn includeSpan : bool) : M string :=
  xml <- FunctionInfo_xml self ;;
  filename <- fold_each xml
    (fun _ element =>
       f <- lift (definition_of includeRow includeSpan element) ;;
       ret (Some f))
    None ;;
  match filename with
  | Some f => ret f
  | None => raise (UnboundLocalError "filename")
  end.

(** The property [filename] *)
Definition FunctionInfo_filename (self : addr) : M string :=
  f <- getDefinitionLocation self false false false ;;
  ret (Path f).

(** [a in ignore], with [__eq__] and [__hash__] of the class: by [refid] *)
Definition in_set (s : store) (a : addr) (ignore : list addr) : bool :=
  existsb
    (fun b => String.eqb (refid (function_at s b)) (refid (function_at s a)))
    ignore.

(** The body of the loops of [thisCallsFunctions] for one [references]
    element; [ignore] is the set the loop carries. *)
Definition thisCalls_ref (self : addr) (ignore : list addr)
    (ref : ET.Element) : M (list addr * list CallLocation) :=
  refs <- Info_references ;;
  rid <- lift (ET.attrib_item ref "refid") ;;
  match get refs rid with
  | None => ret (ignore, [])
  | Some f =>
      seen <- gets (fun s => in_set s f ignore) ;;
      if seen then ret (ignore, [])
      else
        let ignore := f :: ignore in
        filename <- FunctionInfo_filename self ;;
        match get (ET.attrib ref) "startline" with
        | None | Some EmptyString =>
            ret (ignore, [mkCallLocation f filename])
        | Some row =>
            ret (ignore, [mkCallLocation f (filename +:+ ":" +:+ row)])
        end
  end.

(** [thisCallsFunctions(ignore)] *)
Definition thisCallsFunctions (self : addr) (ignore : option (list addr))
  : Gen CallLocation :=
  fun s =>
    let ignore := match ignore with Some i => i | None => [self] end in
    match FunctionInfo_xml self s with
    | (Raise e, s') => (([], Some e), s')
    | (Ok xml, s') =>
        gen_loop (thisCalls_ref self) ignore
          (flat_map (ET.findall "references") xml) s'
    end.

(** [calculateFunctionBackreferences(force)] *)
Definition calculateFunctionBackreferences (force : bool) : M unit :=
  done <- gets (fun s => _functionBackreferencesCalculated (info s)) ;;
  if force || negb done then
    fs <- Info_functions ;;
    for_each (values fs)
      (fun f =>
         consume (thisCallsFunctions f None)
           (fun fnCall =>
              modify (with_function (cl_fn fnCall)
                        (append_parent
                           (mkCallLocation f (cl_location fnCall)))))) ;;;
    modify (with_info (set_calculated true))
  else ret tt.

(** [functionsCallThis(ignore)] *)
Definition functionsCallThis (self : addr) : M (list CallLocation) :=
  calculateFunctionBackreferences false ;;;
  gets (fun s => _parentReferences (function_at s self)).

(** *** callGraph.py *)

Definition node_of (call : CallLocation) : CallGraphNode :=
  mkNode (cl_fn call) (Some call).

(** [CallGraph(fn)] *)
Definition CallGraph (f : addr) : CallGraphNode := mkNode f None.

Definition parents (self : CallGraphNode) : M (list CallGraphNode) :=
  calls <- functionsCallThis (fn self) ;;
  ret (map node_of calls).

Definition children (self : CallGraphNode) : Gen CallGraphNode :=
  fun s =>
    let '((calls, e), s') := thisCallsFunctions (fn self) None s in
    ((map node_of calls, e), s').

Definition isRoot (self : CallGraphNode) : M bool :=
  ps <- parents self ;;
  ret (is_nil ps).

Definition root (self : CallGraphNode) : M CallGraphNode :=
  ps <- parents self ;;
  ret (match ps with
       | parent :: _ => parent
       | [] => self
       end).

(** [roots]: the recursion of the generator is bounded by [fuel];
    [None] says the bound was reached. *)
Fixpoint roots (fuel : nat) (self : CallGraphNode) (s : store)
  : option ((list CallGraphNode * option exn) * store) :=
  match fuel with
  | 0 => None
  | S fuel' =>
      match isRoot self s with
      | (Raise e, s1) => Some (([], Some e), s1)
      | (Ok true, s1) => Some (([self], None), s1)
      | (Ok false, s1) =>
          match parents self s1 with
          | (Raise e, s2) => Some (([], Some e), s2)
          | (Ok ps, s2) => yield_from_each (roots fuel') ps s2
          end
      end
  end.

(** *** doxygenFunctionInfo.py, continued *)

(** One round of the loop of [getDeclarationLocation] *)
Definition declaration_of (includeRow includeColumn : bool)
    (element : ET.Element) : result string :=
  match ET.find "location" element with
  | None => Raise (AttributeError "attrib")
  | Some loc =>
      match ET.attrib_item loc "file" with
      | Raise e => Raise e
      | Ok file =>
          let filename := ET.attrib_get loc "declfile" file in
          if includeRow then
            match ET.attrib_item loc "line" with
            | Raise e => Raise e
            | Ok line =>
                let row := ET.attrib_get loc "declline" line in
                if includeColumn then
                  match ET.attrib_item loc "column" with
                  | Raise e => Raise e
                  | Ok column =>
                      let col := ET.attrib_get loc "declcolumn" column in
                      Ok (filename +:+ ":" +:+ row +:+ ":" +:+ col)
                  end
                else Ok (filename +:+ ":" +:+ row)
            end
          else Ok filename
      end
  end.

(** [getDeclarationLocation]: [filename] is bound by the loop only. *)
Definition getDeclarationLocation (self : addr)
    (includeRow includeColumn includeSpan : bool) : M string :=
  xml <- FunctionInfo_xml self ;;
  filename <- fold_each xml
    (fun _ element =>
       f <- lift (declaration_of includeRow includeColumn element) ;;
       ret (Some f))
    None ;;
  match filename with
  | Some f => ret f
  | None => raise (UnboundLocalError "filename")
  end.

End Operations.

(** [localUrl], given what [self.urls] yields: pairs of a source file name
    and the URL of its page, a [Path], which counts as true.  [None] is the
    empty string that [best] starts with. *)
Definition localUrl_round (state : option string * string)
    (item : string * string) : option string * string :=
  let '(best, bestExt) := state in
  let '(codeFilename, url) := item in
  let ext := PyStr.rsplit1_last "."%char codeFilename in
  if PyStr.startswith "h"%char bestExt
     || match best with None => true | Some _ => false end
  then (Some url, ext)
  else (best, bestExt).

Definition localUrl (urls : list (string * string)) : option string :=
  fst (fold_left localUrl_round urls (None, "")).

(** *** The call graph of a store

    [p] is a parent of [c] when the back references of [c] name [p]; an
    ancestor is a parent of a parent, and so on; the graph is acyclic when
    no function is its own ancestor. *)

Definition parent_of (s : store) (p c : addr) : Prop :=
  exists call, In call (_parentReferences (function_at s c)) /\ cl_fn call = p.

Inductive ancestor (s : store) : addr -> addr -> Prop :=
| ancestor_parent p c : parent_of s p c -> ancestor s p c
| ancestor_step p m c : parent_of s p m -> ancestor s m c -> ancestor s p c.

Definition acyclic (s : store) : Prop := forall a, ~ ancestor s a a.

(** *** The index, and what a registry read from it satisfies *)

(** The [compound]s of kind [file], in the order of the index, and the
    [member]s of kind [function] of one of them *)
Definition file_compounds (root : ET.Element) : list ET.Element :=
  filter (fun c => ET.attrib_get c "kind" "" = "file")
    (ET.findall_below "compound" root).

(** The name of a compound: the text of its [name] element *)
Definition compound_name (c : ET.Element) : option string :=
  match ET.find "name" c with
  | Some e => ET.text e
  | None => None
  end.

Definition compound_names (root : ET.Element) : list (option string) :=
  map compound_name (file_compounds root).

(** The reference ID of a [member], if it is of kind [function] *)
Definition member_refid (m : ET.Element) : list string :=
  if decide (get (ET.attrib m) "kind" = Some "function") then
    match get (ET.attrib m) "refid" with
    | Some rid => [rid]
    | None => []
    end
  else [].

Definition member_refids (c : ET.Element) : list string :=
  flat_map member_refid (ET.findall "member" c).

(** The entries of the index: [(j, rid)] when the [j]th file lists a
    function with reference ID [rid] *)
Definition index_entries (root : ET.Element) : list (nat * string) :=
  concat (imap (fun j c => map (pair j) (member_refids c))
               (file_compounds root)).

(** What a cached element must be: the root of the document, or the
    placeholder of a missing one. *)
Definition compound_element (w : World) (path : string) : option ET.Element :=
  match compound_xml w path with
  | Parsed e => Some e
  | Absent => Some (ET.Element_ "file_not_found")
  | Malformed => None
  end.

Definition cache_ok (w : World) (s : store) : Prop :=
  forall a f e,
    fileInfos s !! a = Some f -> _xml f = Some e ->
    compound_element w (xmlFilename f) = Some e.

(** A reference ID leads to an object of the store that carries it. *)
Definition references_ok (s : store) : Prop :=
  forall rid a,
    get (_references (info s)) rid = Some a ->
    a < length (functionInfos s) /\ refid (function_at s a) = rid.

(** A function found by name is the one its reference ID leads to. *)
Definition functions_ok (s : store) : Prop :=
  forall n a,
    In (n, a) (_functions (info s)) ->
    get (_references (info s)) (refid (function_at s a)) = Some a.

Definition registry_ok (w : World) (s : store) : Prop :=
  cache_ok w s /\ references_ok s /\ functions_ok s.

End Doxygen.

(** ** util.py: the directories that hold source code *)

Module Util.

(** A directory tree without links, as [pathlib] shows it: a file, or a
    directory with its entries in the order [iterdir] gives them. *)
#[warnings="-register-all"]
Inductive entry : Type :=
| File (name : string)
| Dir (name : string) (entries : list entry).

Definition name (e : entry) : string :=
  match e with File n => n | Dir n _ => n end.

Definition is_dir (e : entry) : bool :=
  match e with Dir _ _ => true | File _ => false end.

(** The number of files and directories of a tree *)
Fixpoint size (e : entry) : nat :=
  match e with
  | File _ => 1
  | Dir _ l =>
      S ((fix sum (l : list entry) : nat :=
            match l with
            | [] => 0
            | c :: l' => size c + sum l'
            end) l)
  end.

(** A [Path] is kept as its parts; a path handed to the functions comes
    with what the file system has there, if anything. *)
Definition Path : Type := list string.

Definition located : Type := Path * option entry.

(** [path.name]: the last part *)
Definition Path_name (p : Path) : string := List.last p "".

Inductive OSError : Type :=
| NoSuchFile (p : Path)
| NotADirectory (p : Path).

Inductive outcome (A : Type) : Type :=
| Done (a : A)
| Failed (e : OSError).
Arguments Done {A} a.
Arguments Failed {A} e.

(** [directory.iterdir()] *)
Definition iterdir (directory : located) : outcome (list located) :=
  match directory with
  | (p, None) => Failed (NoSuchFile p)
  | (p, Some (File _)) => Failed (NotADirectory p)
  | (p, Some (Dir _ l)) => Done (map (fun c => (p ++ [name c], Some c)) l)
  end.

(** [file.is_dir()] *)
Definition Path_is_dir (file : located) : bool :=
  match snd file with
  | Some e => is_dir e
  | None => false
  end.

Definition SOURCE_EXTENSIONS : list string :=
  [".c"; ".cc"; ".cxx"; ".cpp"; ".c++"; ".java"; ".ii"; ".ixx"; ".ipp";
   ".i++"; ".inl"; ".idl"; ".ddl"; ".odl"; ".h"; ".hh"; ".hxx"; ".hpp";
   ".h++"; ".l"; ".cs"; ".d"; ".php"; ".php4"; ".php5"; ".phtml"; ".inc";
   ".m"; ".markdown"; ".mm"; ".dox"; ".py"; ".pyw"; ".f90"; ".f95"; ".f03";
   ".f08"; ".f18"; ".f"; ".for"; ".vhd"; ".vhdl"; ".ucf"; ".qsf"; ".ice"].

(** [x in SOURCE_EXTENSIONS] *)
Definition is_source_extension (x : string) : bool :=
  existsb (String.eqb x) SOURCE_EXTENSIONS.

Section Pathlib.

(** [pathlib]'s [suffix] of a name and [str.lower] are taken as they are. *)
Variables (suffix : string -> string) (lower : string -> string).

(** [file.suffix.lower() in SOURCE_EXTENSIONS] *)
Definition has_source_suffix (file : located) : bool :=
  is_source_extension (lower (suffix (Path_name (fst file)))).

(** [containsSource(directory)]: every entry is looked at, directories
    too. *)
Definition containsSource (directory : located) : outcome bool :=
  match iterdir directory with
  | Failed e => Failed e
  | Done files => Done (existsb has_source_suffix files)
  end.

(** [subdirectories(directory)], run to its end *)
Definition subdirectories (directory : located) : outcome (list located) :=
  match iterdir directory with
  | Failed e => Failed e
  | Done files => Done (List.filter Path_is_dir files)
  end.

(** [findDoxygenInputDirs(startingDirectories)]: the loop runs over the
    tape while it is extended; [fuel] bounds its rounds, and [None] says the
    bound was reached.  The result is what the generator yields and the
    exception that ended it, if one did. *)
Fixpoint findDoxygenInputDirs (fuel : nat) (tape : list located)
  : option (list Path * option OSError) :=
  match fuel with
  | 0 => None
  | S fuel' =>
      match tape with
      | [] => Some ([], None)
      | directory :: rest =>
          match containsSource directory with
          | Failed e => Some ([], Some e)
          | Done true =>
              match findDoxygenInputDirs fuel' rest with
              | Some (ys, e) => Some (fst directory :: ys, e)
              | None => None
              end
          | Done false =>
              match subdirectories directory with
              | Failed e => Some ([], Some e)
              | Done subs => findDoxygenInputDirs fuel' (rest ++ subs)
              end
          end
      end
  end.

(** An entry of a directory that by its name counts as source *)
Definition counts_as_source (c : entry) : bool :=
  is_source_extension (lower (suffix (name c))).

(** [d] lies below [t] at the relative path [q], and no directory above
    [d] on the way, [t] included, has an entry that counts as source. *)
Inductive exposed : entry -> Path -> entry -> Prop :=
| exposed_here t : exposed t [] t
| exposed_below n l c q d :
    existsb counts_as_source l = false ->
    In c l -> is_dir c = true -> exposed c q d ->
    exposed (Dir n l) (name c :: q) d.

End Pathlib.

(** The directories on a tape, counted with all that is below them *)
Definition weight (tape : list located) : nat :=
  list_sum (map (fun d => match snd d with Some e => size e | None => 1 end)
              tape).

(** Every path on the tape leads to a directory. *)
Definition all_directories (tape : list located) : Prop :=
  forall d, In d tape -> exists n l, snd d = Some (Dir n l).

End Util.

(** ** fdox.py: the command line *)

Module FdoxMain.

(** What [main] does is told as a trace: the lines it prints and the calls
    of [fdox] it makes, in order. *)
Inductive event : Type :=
| Printed (line : string)
| Called (directory : option string) (addDoxygenStuffToGitIgnore : bool).

Definition quote : string := String (ascii_of_nat 34) EmptyString.

(** The local variables of [main] *)
Record locals : Type := mkLocals {
  addDoxygenStuffToGitIgnore : bool;
  printHelp : bool;
  didSomething : bool }.

Definition set_addDoxygenStuffToGitIgnore (b : bool) (l : locals) : locals :=
  {| addDoxygenStuffToGitIgnore := b;
     printHelp := printHelp l;
     didSomething := didSomething l |}.

Definition set_printHelp (b : bool) (l : locals) : locals :=
  {| addDoxygenStuffToGitIgnore := addDoxygenStuffToGitIgnore l;
     printHelp := b;
     didSomething := didSomething l |}.

Definition set_didSomething (b : bool) (l : locals) : locals :=
  {| addDoxygenStuffToGitIgnore := addDoxygenStuffToGitIgnore l;
     printHelp := printHelp l;
     didSomething := b |}.

Section Main.

(** [fdox] creates the Doxyfile and starts doxygen: it acts on a world of
    its own and may raise.  [lower] is [str.lower], and [environ] the value
    of [FDOX_DEFAULT_DIRECTORY] in the environment. *)
Variable World : Type.
Variable fdox : option string -> bool -> World -> result unit * World.
Variable lower : string -> string.
Variable environ : option string.

(** [x in ('1','y','t')] *)
Definition is_yes (x : string) : bool :=
  String.eqb x "1" || String.eqb x "y" || String.eqb x "t".

Definition unknown_parameter (k : string) : string :=
  "Unknown parameter " +:+ quote +:+ k +:+ quote.

(** One round of the loop over [argv[1:]] *)
Definition main_round (arg : string) (l : locals) (trace : list event)
    (w : World) : result locals * list event * World :=
  if PyStr.startswith "-"%char arg then
    match PyStr.split1 "="%char arg with
    | [] => (Raise IndexError, trace, w)
    | k0 :: rest =>
        let k := lower k0 in
        if String.eqb k "--addDoxygenStuffToGitIgnore" then
          match rest with
          | [] => (Raise IndexError, trace, w)
          | EmptyString :: _ => (Raise IndexError, trace, w)
          | String c _ :: _ =>
              (Ok (set_addDoxygenStuffToGitIgnore
                     (is_yes (lower (String c EmptyString))) l),
               trace, w)
          end
        else if String.eqb k "--help" then
          (Ok (set_printHelp true l), trace, w)
        else
          (Ok (set_printHelp true l),
           trace ++ [Printed (unknown_parameter k)], w)
    end
  else
    let l := set_didSomething true l in
    let called := trace ++ [Called (Some arg) (addDoxygenStuffToGitIgnore l)] in
    match fdox (Some arg) (addDoxygenStuffToGitIgnore l) w with
    | (Raise e, w') => (Raise e, called, w')
    | (Ok _, w') => (Ok (set_addDoxygenStuffToGitIgnore false l), called, w')
    end.

Fixpoint main_loop (args : list string) (l : locals) (trace : list event)
    (w : World) : result locals * list event * World :=
  match args with
  | [] => (Ok l, trace, w)
  | arg :: args' =>
      match main_round arg l trace w with
      | (Raise e, trace', w') => (Raise e, trace', w')
      | (Ok l', trace', w') => main_loop args' l' trace' w'
      end
  end.

Definition usage : list string :=
  [ "Fast doxygen creation.";
    "Will initialize doxygen and run for the given directory.";
    "If no directory is specified, will use FDOX_DEFAULT_DIRECTORY from environment";
    "  (currently, " +:+ quote
      +:+ match environ with Some v => v | None => "None" end
      +:+ quote +:+ ")";
    "If still not specified, uses current directory.";
    "USAGE:";
    "  fdox [params] [file_or_dir]";
    "PARAMS:";
    "  --help ......... this help";
    "  --addDoxygenStuffToGitIgnore=[y/n] ... name says it all (default=y)" ].

(** [main(argv)] *)
Definition main (argv : list string) (w : World)
  : result unit * list event * World :=
  match main_loop (tl argv)
          {| addDoxygenStuffToGitIgnore := true;
             printHelp := false;
             didSomething := false |} [] w with
  | (Raise e, trace, w') => (Raise e, trace, w')
  | (Ok l, trace, w') =>
      if printHelp l then (Ok tt, trace ++ map Printed usage, w')
      else if negb (didSomething l) then
        let called := trace ++ [Called None (addDoxygenStuffToGitIgnore l)] in
        match fdox None (addDoxygenStuffToGitIgnore l) w' with
        | (Raise e, w'') => (Raise e, called, w'')
        | (Ok _, w'') => (Ok tt, called, w'')
        end
      else (Ok tt, trace, w')
  end.

End Main.

(** *** What the properties speak about *)

(** The calls of [fdox] in a trace *)
Definition calls (trace : list event) : list (option string * bool) :=
  flat_map (fun e => match e with
                     | Called d b => [(d, b)]
                     | Printed _ => []
                     end) trace.

Definition is_option (arg : string) : bool := PyStr.startswith "-"%char arg.

(** The arguments that are not options: the directories *)
Definition directories (argv : list string) : list string :=
  List.filter (fun arg => negb (is_option arg)) (tl argv).

(** The text of an option before its first [=] *)
Definition option_name (arg : string) : string :=
  match PyStr.partition "="%char arg with
  | Some (k, _) => k
  | None => arg
  end.

(** The first directory with the rules for [.gitignore], the others
    without; the default directory when there is no argument at all. *)
Definition plan (argv : list string) : list (option string * bool) :=
  match directories argv with
  | d :: ds => (Some d, true) :: map (fun d' => (Some d', false)) ds
  | [] => if existsb is_option (tl argv) then [] else [(None, true)]
  end.

End FdoxMain.

(** ** Steps, loop bodies and relations between stores

    The pieces of the operations above that the properties are stated
    about, and the relations between stores they use. *)

Module Invariants.

Import PyDict Doxygen.

(** *** Reading the index *)

(** A new function object under its name and its reference ID *)
Definition register (n : option string) (rid : string) (s : store) : store :=
  let f := length (functionInfos s) in
  with_info (set_reference rid f)
    (with_info (set_function n f) (snd (new_function n rid s))).

(** The file lists the function, and the function names the file. *)
Definition link (fileInfo f : addr) (s : store) : store :=
  let s1 := with_file fileInfo
              (set_file_function (name (function_at s f)) f) s in
  with_function f
    (set_function_file (ByName (file_name (file_at s1 fileInfo))) fileInfo) s1.

(** The part of [reparse_compound] for a compound of kind [file] *)
Definition compound_body (file : ET.Element) : M unit :=
  rid <- lift (ET.attrib_item file "refid") ;;
  n <- lift (ET.find_text "name" file) ;;
  fileInfo <- new_file n (rid +:+ ".xml") ;;
  for_each (ET.findall "member" file) (reparse_member fileInfo).

(** The entries of a list of compounds of kind [file], as in
    [index_entries] *)
Definition entries (compounds : list ET.Element) : list (nat * string) :=
  concat (imap (fun j c => map (pair j) (member_refids c)) compounds).

(** The invariant of the two loops of [_reparseXmlIndex], started on the
    store [s0]: [names] are the names of the files constructed so far by
    this pass, [log] the entries of the index handled so far. *)
Record pass (w : World) (s0 : store)
    (names : list (option string)) (log : list (nat * string))
    (s : store) : Prop := {
  pass_files : length (fileInfos s) = length (fileInfos s0) + length names;
  pass_names : forall j n,
    names !! j = Some n ->
    file_name (file_at s (length (fileInfos s0) + j)) = n;
  pass_base : length (functionInfos s0) <= length (functionInfos s);
  pass_refs : forall rid a,
    get (_references (info s)) rid = Some a ->
    length (functionInfos s0) <= a < length (functionInfos s) /\
    refid (function_at s a) = rid;
  pass_unique : forall a,
    length (functionInfos s0) <= a < length (functionInfos s) ->
    get (_references (info s)) (refid (function_at s a)) = Some a;
  pass_functions : functions_ok s;
  pass_cache : cache_ok w s0 -> cache_ok w s;
  pass_bound : forall j rid, In (j, rid) log -> j < length names;
  pass_linked : forall j rid,
    In (j, rid) log ->
    exists a k n,
      get (_references (info s)) rid = Some a /\ j <= k /\ In (k, rid) log /\
      names !! j = Some n /\ names !! k = Some n /\
      get (files (function_at s a)) (ByName n)
        = Some (length (fileInfos s0) + k)
}.

(** What the loops of [_reparseXmlIndex] leave besides, started on the
    store [s0] with [log] the entries handled so far: the flag of the back
    references is as it was, a reference ID is registered only for an entry
    of the index, and the objects constructed have no back references,
    while those that were there keep theirs. *)
Record listed_only (s0 : store) (log : list (nat * string)) (s : store)
  : Prop := {
  lo_flag :
    _functionBackreferencesCalculated (info s)
    = _functionBackreferencesCalculated (info s0);
  lo_length : length (functionInfos s0) <= length (functionInfos s);
  lo_references : forall rid a,
    get (_references (info s)) rid = Some a -> exists j, In (j, rid) log;
  lo_parents : forall a,
    _parentReferences (function_at s a)
    = if a <? length (functionInfos s0)
      then _parentReferences (function_at s0 a) else []
}.

(** *** Stores that the forward calls cannot tell apart

    [thisCallsFunctions] reads the registry, the names, IDs and files of the
    functions, the names of the files, and their documents, through the
    cache or from disk.  It does not read the back references, the flag
    that says they are computed, or what was printed. *)

Record alike (s t : store) : Prop := {
  alike_functions : _functions (info s) = _functions (info t);
  alike_references : _references (info s) = _references (info t);
  alike_name : forall a, name (function_at s a) = name (function_at t a);
  alike_refid : forall a, refid (function_at s a) = refid (function_at t a);
  alike_files : forall a, files (function_at s a) = files (function_at t a);
  alike_file_name : forall b,
    file_name (file_at s b) = file_name (file_at t b);
  alike_xmlFilename : forall b,
    xmlFilename (file_at s b) = xmlFilename (file_at t b)
}.

(** What a call changes at most: documents get cached, lines get printed. *)
Record caches_only (s t : store) : Prop := {
  same_info : info t = info s;
  same_functionInfos : functionInfos t = functionInfos s;
  same_file_name : forall b,
    file_name (file_at t b) = file_name (file_at s b);
  same_xmlFilename : forall b,
    xmlFilename (file_at t b) = xmlFilename (file_at s b)
}.

(** A function that has files *)
Definition has_files (self : addr) (s : store) : Prop :=
  files (function_at s self) <> [].

(** The loop of [bestFile] *)
Definition bestFile_loop (l : list addr) : M (option addr) :=
  fold_each l
    (fun best f =>
       match best with
       | None => ret (Some f)
       | Some b =>
           ext <- FileInfo_extension b ;;
           if String.eqb ext ".h" then ret (Some f) else ret best
       end) None.

Section World.
Variable w : World.

(** Two stores in order that the forward calls cannot tell apart *)
Definition akin (s t : store) : Prop :=
  alike s t /\ cache_ok w s /\ cache_ok w t /\ _references (info s) <> [].

(** A piece of code gives the same result on two such stores, and changes
    caches and output only; [Q] is what it needs of the store. *)
Definition sim {X} (Q : store -> Prop) (m : store -> X * store) : Prop :=
  forall s t, akin s t -> Q s ->
    fst (m s) = fst (m t) /\ caches_only s (snd (m s)) /\ cache_ok w (snd (m s)).

(** A need of the store that akin stores share *)
Definition respects (Q : store -> Prop) : Prop :=
  forall s t, akin s t -> Q s -> Q t.

(** One round of the loop of [xml] over the files of a function *)
Definition xml_round (self : addr) (xml : list ET.Element) (xmlFile : addr)
  : M (list ET.Element) :=
  doc <- FileInfo_xml w xmlFile ;;
  rid <- gets (fun s => refid (function_at s self)) ;;
  let tags := ET.findall_id rid doc in
  if is_nil tags then
    n <- bestFile_name self ;;
    print ("refid " +:+ rid +:+ " not found in " +:+ quote +:+ str_of n
         +:+ quote) ;;;
    ret xml
  else ret (xml ++ tags).

(** The calls of [f], as the registry [s] gives them *)
Definition calls_of (s : store) (f : addr) : list CallLocation :=
  fst (fst (thisCallsFunctions w f None s)).

End World.

(** *** Computing the back references *)

(** The body of the inner loop of [calculateFunctionBackreferences]: the
    callee gets a call location that names the caller. *)
Definition record (f : addr) (fnCall : CallLocation) : M unit :=
  modify (with_function (cl_fn fnCall)
            (append_parent (mkCallLocation f (cl_location fnCall)))).

(** The back references that the calls of [f] give to the function [a] *)
Definition back_from (w : World) (s : store) (a f : addr)
  : list CallLocation :=
  map (fun c => mkCallLocation f (cl_location c))
    (List.filter (fun c => Nat.eqb (cl_fn c) a) (calls_of w s f)).

(** No function has a back reference yet. *)
Definition no_back_references (s : store) : Prop :=
  forall a, _parentReferences (function_at s a) = [].

(** A store whose functions are those of [s], with the back references of
    [s] and perhaps more *)
Record grown (s u : store) : Prop := {
  grown_alike : alike s u;
  grown_length : length (functionInfos u) = length (functionInfos s);
  grown_parents : forall a back,
    In back (_parentReferences (function_at s a)) ->
    In back (_parentReferences (function_at u a))
}.

(** *** The page of a function *)

(** The extension of a source file name starts with [h]: a header, for
    [localUrl]. *)
Definition header_like (codeFilename : string) : bool :=
  PyStr.startswith "h"%char (PyStr.rsplit1_last "."%char codeFilename).

End Invariants.

(** ** Concrete inputs used further down *)

Module GitignoreExamples.

Import Gitignore.

(** A [.gitignore] with one comment and one rule *)
Definition commented : string := "# build output" +:+ PyStr.NL +:+ "*.o".

Definition disk0 : filesystem :=
  fun p => if String.eqb p ".gitignore" then Some (File commented) else None.

Definition two_rules : Gitignore :=
  {| currentFile := Some ".gitignore";
     _rules := [globToRegex "*.o" true; globToRegex "*.pyc" true];
     _dataLines := ["*.o"; "*.pyc"];
     hasChanged := false |}.

(** A directory [proj] with that [.gitignore] in it *)
Definition project : filesystem :=
  fun p => if String.eqb p "proj" then Some Dir
           else if String.eqb p "proj/.gitignore" then Some (File commented)
           else None.

End GitignoreExamples.

Module DoxyFileExamples.

Import DoxyFile.

(** A Doxyfile of three lines, read with auto-save on *)
Definition have_dot : DoxyfileSetting :=
  {| name := "HAVE_DOT"; docs := "use dot"; _value := "NO"; _lineNo := 1 |}.

Definition small : DoxyFile :=
  {| autosave := true; filename := "Doxyfile"; _dirty := false;
     _lines := ["# use dot"; "HAVE_DOT           = NO"; ""];
     _settings := Some [("HAVE_DOT", have_dot)] |}.

(** The text it was read from, and the object before the text is read *)
Definition small_text : string :=
  "# use dot" +:+ PyStr.NL +:+ "HAVE_DOT           = NO" +:+ PyStr.NL.

Definition unread : DoxyFile :=
  {| autosave := true; filename := "Doxyfile"; _dirty := false;
     _lines := []; _settings := None |}.

End DoxyFileExamples.

Module DoxygenExamples.

Import ET Doxygen.

(** Elements of Doxygen's [index.xml] *)
Definition member (rid nm : string) : Element :=
  Elem "member" [("refid", rid); ("kind", "function")] None
    [Elem "name" [] (Some nm) []].

Definition compound (rid nm : string) (members : list Element) : Element :=
  Elem "compound" [("refid", rid); ("kind", "file")] None
    (Elem "name" [] (Some nm) [] :: members).

Definition doxygenindex (compounds : list Element) : Element :=
  Elem "doxygenindex" [] None compounds.

(** Elements of the document of one file: a function defined at [line] of
    [file] that refers to the functions [refs], each with its line. *)
Definition memberdef (rid file line : string) (refs : list (string * string))
  : Element :=
  Elem "memberdef" [("kind", "function"); ("id", rid)] None
    (Elem "location" [("file", file); ("line", line)] None [] ::
     map (fun r => Elem "references"
                     [("refid", fst r); ("startline", snd r)] None [])
         refs).

Definition compounddef (defs : list Element) : Element :=
  Elem "doxygen" [] None
    [Elem "compounddef" [] None [Elem "sectiondef" [] None defs]].

(** [main] calls [helper], [helper] calls nothing; both are in [main.c]. *)
Definition main_helper : World :=
  {| index_xml :=
       Parsed (doxygenindex
         [compound "main_8c" "main.c"
            [member "main_8c_1a" "main"; member "main_8c_1b" "helper"]]);
     compound_xml := fun p =>
       if String.eqb p "main_8c.xml" then
         Parsed (compounddef
           [memberdef "main_8c_1a" "main.c" "3" [("main_8c_1b", "4")];
            memberdef "main_8c_1b" "main.c" "9" []])
       else Absent |}.

(** [main] calls [mid], [mid] calls [leaf]. *)
Definition chain : World :=
  {| index_xml :=
       Parsed (doxygenindex
         [compound "chain_8c" "chain.c"
            [member "chain_8c_1a" "main"; member "chain_8c_1b" "mid";
             member "chain_8c_1c" "leaf"]]);
     compound_xml := fun p =>
       if String.eqb p "chain_8c.xml" then
         Parsed (compounddef
           [memberdef "chain_8c_1a" "chain.c" "1" [("chain_8c_1b", "2")];
            memberdef "chain_8c_1b" "chain.c" "5" [("chain_8c_1c", "6")];
            memberdef "chain_8c_1c" "chain.c" "9" []])
       else Absent |}.

(** [foo] is declared in [foo.h] and defined in [foo.c]: one reference ID
    listed under both files. *)
Definition header_and_source : World :=
  {| index_xml :=
       Parsed (doxygenindex
         [compound "foo_8h" "foo.h" [member "foo_8c_1a" "foo"];
          compound "foo_8c" "foo.c" [member "foo_8c_1a" "foo"]]);
     compound_xml := fun p =>
       if String.eqb p "foo_8c.xml" || String.eqb p "foo_8h.xml" then
         Parsed (compounddef [memberdef "foo_8c_1a" "foo.c" "3" []])
       else Absent |}.

(** Two functions named [f] (overloads) and a function [g]; the first [f]
    calls [g]. *)
Definition overloads : World :=
  {| index_xml :=
       Parsed (doxygenindex
         [compound "o_8cpp" "o.cpp"
            [member "o_8cpp_1a" "f"; member "o_8cpp_1b" "f";
             member "o_8cpp_1c" "g"]]);
     compound_xml := fun p =>
       if String.eqb p "o_8cpp.xml" then
         Parsed (compounddef
           [memberdef "o_8cpp_1a" "o.cpp" "1" [("o_8cpp_1c", "2")];
            memberdef "o_8cpp_1b" "o.cpp" "5" [];
            memberdef "o_8cpp_1c" "o.cpp" "9" []])
       else Absent |}.

(** Two files named [util.h] in different directories list the same
    function. *)
Definition same_name_files : World :=
  {| index_xml :=
       Parsed (doxygenindex
         [compound "a_2util_8h" "util.h" [member "a_2util_8h_1a" "clamp"];
          compound "b_2util_8h" "util.h" [member "a_2util_8h_1a" "clamp"]]);
     compound_xml := fun _ => Absent |}.

(** The document of [bad.c] is not well-formed XML. *)
Definition broken : World :=
  {| index_xml :=
       Parsed (doxygenindex
         [compound "bad_8c" "bad.c" [member "bad_8c_1a" "f"]]);
     compound_xml := fun _ => Malformed |}.

(** The registry right after the index of a world has been read *)
Definition parsed (w : World) : store := snd (_reparseXmlIndex w init).

(** A function object made by hand, outside any index: it has no file. *)
Definition orphan : store := snd (new_function (Some "helper") "main_8c_1ab" init).

(** ... and after the back references have been computed *)
Definition linked (w : World) : store :=
  snd (calculateFunctionBackreferences w false (parsed w)).

End DoxygenExamples.

Module UtilExamples.

Import Util.

(** [str.lower] on the ASCII range *)
Definition lower_char (c : ascii) : ascii :=
  let n := nat_of_ascii c in
  if (65 <=? n) && (n <=? 90) then ascii_of_nat (n + 32) else c.

Fixpoint lower (s : string) : string :=
  match s with
  | EmptyString => EmptyString
  | String c s' => String (lower_char c) (lower s')
  end.

(** The text from the last [c] on, when there is one *)
Fixpoint from_last (c : ascii) (s : string) : option string :=
  match s with
  | EmptyString => None
  | String a s' =>
      match from_last c s' with
      | Some t => Some t
      | None => if Ascii.eqb a c then Some s else None
      end
  end.

(** [suffix] of a name: the text from the last dot on, when that dot is
    neither the first nor the last character *)
Definition suffix (name : string) : string :=
  match name with
  | EmptyString => EmptyString
  | String _ rest =>
      match from_last "."%char rest with
      | Some (String d (String a t)) => String d (String a t)
      | _ => EmptyString
      end
  end.

(** A project: sources in [src] and in [docs/examples] *)
Definition proj : entry :=
  Dir "proj"
    [File "README";
     Dir "src" [File "main.c"; Dir "deep" [File "x.h"]];
     Dir "docs" [File "index.txt"; Dir "examples" [File "demo.PY"]]].

Definition start : list located := [(["proj"], Some proj)].

End UtilExamples.

(** * Properties *)

(** ** Strings *)

Module PyStrFacts.

Import PyStr.

Lemma append_cons a s t : String a s +:+ t = String a (s +:+ t).
Proof. reflexivity. Qed.

Lemma append_nil t : EmptyString +:+ t = t.
Proof. reflexivity. Qed.

(** [partition] cuts at a separator: the pieces and the separator make
    up the text again. *)
Lemma partition_app c s : forall h t,
  partition c s = Some (h, t) -> s = h +:+ String c t.
Proof.
  induction s as [|a s IH]; intros h t; cbn [partition]; [discriminate|].
  destruct (Ascii.eqb a c) eqn:E.
  - apply Ascii.eqb_eq in E. subst a. now intros [= <- <-].
  - destruct (partition c s) as [[h' t']|]; [|discriminate].
    intros [= <- <-]. rewrite append_cons. f_equal. now apply IH.
Qed.

(** What stands before the first separator has none, so it can be given
    another end. *)
Lemma partition_head c s : forall h t t',
  partition c s = Some (h, t) -> partition c (h +:+ String c t') = Some (h, t').
Proof.
  induction s as [|a s IH]; intros h t t'; cbn [partition]; [discriminate|].
  destruct (Ascii.eqb a c) eqn:E.
  - intros [= <- <-]. rewrite append_nil. cbn [partition].
    now rewrite Ascii.eqb_refl.
  - destruct (partition c s) as [[h' t0]|] eqn:Ep; [|discriminate].
    intros [= <- <-]. rewrite append_cons. cbn [partition]. rewrite E.
    now rewrite (IH h' t0 t' eq_refl).
Qed.

Lemma split1_two c s p0 p1 rest :
  split1 c s = p0 :: p1 :: rest -> rest = [] /\ s = p0 +:+ String c p1.
Proof.
  unfold split1. destruct (partition c s) as [[h t]|] eqn:E; [|discriminate].
  intros [= <- <- <-]. split; [reflexivity | now apply partition_app].
Qed.

Lemma rstrip_cons c s :
  rstrip (String c s) =
  match rstrip s with
  | EmptyString => if isspace c then EmptyString else String c EmptyString
  | r => String c r
  end.
Proof. reflexivity. Qed.

Lemma rstrip_idem s : rstrip (rstrip s) = rstrip s.
Proof.
  induction s as [|c s IH]; [reflexivity|]. rewrite rstrip_cons.
  destruct (rstrip s) as [|a r] eqn:E.
  - destruct (isspace c) eqn:Ec; [reflexivity|].
    rewrite rstrip_cons. cbn [rstrip]. now rewrite Ec.
  - rewrite rstrip_cons, IH. reflexivity.
Qed.

(** A text without blanks at its end keeps that when cut from the left. *)
Lemma rstrip_tail c s : rstrip (String c s) = String c s -> rstrip s = s.
Proof.
  rewrite rstrip_cons. destruct (rstrip s) as [|a r] eqn:E.
  - destruct (isspace c); [discriminate|]. now intros [= <-].
  - now intros [= <-].
Qed.

Lemma rstrip_lstrip s : rstrip s = s -> rstrip (lstrip s) = lstrip s.
Proof.
  induction s as [|c s IH]; [reflexivity|]. intros H. cbn [lstrip].
  destruct (isspace c); [|exact H]. apply IH. now apply rstrip_tail in H.
Qed.

Lemma rstrip_partition c s : forall h t,
  rstrip s = s -> partition c s = Some (h, t) -> rstrip t = t.
Proof.
  induction s as [|a s IH]; intros h t Hfix; cbn [partition]; [discriminate|].
  apply rstrip_tail in Hfix as Htail.
  destruct (Ascii.eqb a c).
  - now intros [= <- <-].
  - destruct (partition c s) as [[h' t']|] eqn:E; [|discriminate].
    intros [= <- <-]. now apply (IH h' t').
Qed.

(** On a stripped line, what follows the first separator has no blanks
    at its end: removing the leading ones strips it. *)
Lemma strip_after_separator c raw p0 p1 rest :
  split1 c (strip raw) = p0 :: p1 :: rest -> lstrip p1 = strip p1.
Proof.
  unfold split1.
  destruct (partition c (strip raw)) as [[h t]|] eqn:E; [|discriminate].
  intros [= <- <- <-]. unfold strip at 1. f_equal. symmetry.
  apply (rstrip_partition c (strip raw) h t); [|exact E].
  unfold strip. apply rstrip_lstrip, rstrip_idem.
Qed.

End PyStrFacts.

(** ** Dictionaries *)

Module PyDictFacts.

Import PyDict.

Section Facts.
Context {K V : Type} `{EqDecision K}.
Implicit Types (d : dict K V) (k : K) (v : V).

Lemma get_set_eq d k v : get (set k v d) k = Some v.
Proof.
  induction d as [|[k' v'] d IH]; simpl.
  - now rewrite decide_True.
  - destruct (decide (k' = k)) as [->|Hne]; simpl.
    + now rewrite decide_True.
    + now rewrite decide_False.
Qed.

Lemma get_set_ne d k k' v : k <> k' -> get (set k v d) k' = get d k'.
Proof.
  intros Hne. induction d as [|[k0 v0] d IH]; simpl.
  - destruct (decide (k = k')); [contradiction | reflexivity].
  - destruct (decide (k0 = k)) as [->|Hne0]; simpl.
    + destruct (decide (k = k')); [contradiction | reflexivity].
    + destruct (decide (k0 = k')); [reflexivity | exact IH].
Qed.

Lemma set_get_same d k v : get d k = Some v -> set k v d = d.
Proof.
  induction d as [|[k' v'] d IH]; simpl; [discriminate|].
  destruct (decide (k' = k)) as [->|Hne].
  - now intros [= ->].
  - intros Hget. now rewrite IH.
Qed.

Lemma get_Some_In d k v : get d k = Some v -> In v (values d).
Proof.
  induction d as [|[k' v'] d IH]; simpl; [discriminate|].
  destruct (decide (k' = k)).
  - intros [= ->]. now left.
  - intros Hget. right. now apply IH.
Qed.

Lemma get_Some_In_pair d k v : get d k = Some v -> In (k, v) d.
Proof.
  induction d as [|[k' v'] d IH]; simpl; [discriminate|].
  destruct (decide (k' = k)) as [->|].
  - intros [= ->]. now left.
  - intros Hget. right. now apply IH.
Qed.

Lemma keys_set d k v :
  keys (set k v d) =
  match get d k with Some _ => keys d | None => keys d ++ [k] end.
Proof.
  induction d as [|[k' v'] d IH]; simpl; [reflexivity|].
  destruct (decide (k' = k)) as [->|Hne]; simpl; [reflexivity|].
  unfold keys in *. rewrite IH. now destruct (get d k).
Qed.

Lemma In_keys_get d k : In k (keys d) -> exists v, get d k = Some v.
Proof.
  induction d as [|[k' v'] d IH]; simpl; [intros []|].
  intros [->|Hin].
  - exists v'. now rewrite decide_True.
  - destruct (decide (k' = k)); [eauto | now apply IH].
Qed.

Lemma get_None_not_In d k : get d k = None -> ~ In k (keys d).
Proof.
  intros Hget Hin. apply In_keys_get in Hin as [v Hv]. congruence.
Qed.

Lemma NoDup_keys_set d k v :
  List.NoDup (keys d) -> List.NoDup (keys (set k v d)).
Proof.
  intros Hnd. rewrite keys_set. destruct (get d k) eqn:E; [exact Hnd|].
  apply List.NoDup_app; [exact Hnd | repeat constructor; intros [] |].
  intros x Hx [<-|[]]. now apply get_None_not_In in E.
Qed.

(** With unique keys, an entry of the list is what [get] finds. *)
Lemma In_pair_get d k v :
  List.NoDup (keys d) -> In (k, v) d -> get d k = Some v.
Proof.
  induction d as [|[k' v'] d IH]; simpl; [intros _ []|].
  intros Hnd [[= -> ->]|Hin].
  - now rewrite decide_True.
  - inversion Hnd as [|? ? Hnot Hnd']; subst.
    destruct (decide (k' = k)) as [->|Hne]; [|now apply IH].
    exfalso. apply Hnot. now apply (in_map fst _ (k, v)).
Qed.

(** The entries after an assignment: the new one, or an old one. *)
Lemma In_set d k v k' v' :
  In (k', v') (set k v d) -> (k' = k /\ v' = v) \/ In (k', v') d.
Proof.
  induction d as [|[k0 v0] d IH]; simpl.
  - intros [[= <- <-]|[]]. now left.
  - destruct (decide (k0 = k)) as [->|Hne]; simpl.
    + intros [[= <- <-]|Hin]; [now left | right; now right].
    + intros [Heq|Hin]; [right; now left|].
      destruct (IH Hin) as [?|?]; [now left | right; now right].
Qed.

Lemma set_not_nil d k v : set k v d <> [].
Proof.
  destruct d as [|[k' v'] d]; simpl; [discriminate|].
  now destruct (decide (k' = k)).
Qed.

End Facts.

End PyDictFacts.

(** ** gitignore.py *)

Module GitignoreSpec.

Import Gitignore.

Lemma has_line_In rule lines : has_line rule lines = true <-> In rule lines.
Proof.
  unfold has_line. rewrite existsb_exists. split.
  - intros (x & Hx & Heq). apply String.eqb_eq in Heq. now subst.
  - intros H. exists rule. split; [exact H | apply String.eqb_refl].
Qed.

Lemma index_of_absent rule lines :
  ~ In rule lines -> index_of rule lines = None.
Proof.
  induction lines as [|line rest IH]; simpl; intros Hnot; [reflexivity|].
  destruct (String.eqb line rule) eqn:E.
  - apply String.eqb_eq in E. exfalso. apply Hnot. now left.
  - rewrite IH; [reflexivity|]. intros Hin. apply Hnot. now right.
Qed.

Lemma addRule_in_step rule g : in_step g -> in_step (addRule rule g).
Proof.
  unfold in_step, addRule. intros H.
  destruct (has_line rule (_dataLines g)); simpl; [exact H|].
  rewrite H, map_app. reflexivity.
Qed.

Lemma addRule_lines rule g line :
  In line (_dataLines (addRule rule g)) <->
  In line (_dataLines g) \/ line = rule.
Proof.
  unfold addRule. destruct (has_line rule (_dataLines g)) eqn:E; simpl.
  - apply has_line_In in E. split; [tauto|]. intros [H| ->]; assumption.
  - rewrite in_app_iff. simpl. split; intros [H|H]; auto.
    destruct H as [H|[]]; auto.
Qed.

Lemma load_lines_in_step data : forall g,
  in_step g -> in_step (load_lines data g).
Proof.
  induction data as [|raw rest IH]; simpl; intros g H; [exact H|].
  apply IH. destruct (keep_line (PyStr.lstrip raw)); [|exact H].
  now apply addRule_in_step.
Qed.

(** What [load_lines] stores: the lines already there, and the lines of
    the file that are kept, without their leading blanks. *)
Lemma load_lines_lines data : forall g line,
  In line (_dataLines (load_lines data g)) <->
  In line (_dataLines g) \/
  exists raw, In raw data /\ keep_line (PyStr.lstrip raw) = true /\
              line = PyStr.lstrip raw.
Proof.
  induction data as [|raw rest IH]; simpl; intros g line.
  - split; [tauto|]. intros [H|(raw & [] & _)]. exact H.
  - rewrite IH. destruct (keep_line (PyStr.lstrip raw)) eqn:E.
    + rewrite addRule_lines. split.
      * intros [[H| ->]|(r & Hr & Hk & ->)]; eauto 6.
      * intros [H|(r & [<-|Hr] & Hk & ->)]; eauto 6.
    + split.
      * intros [H|(r & Hr & Hk & ->)]; eauto 6.
      * intros [H|(r & [<-|Hr] & Hk & ->)]; eauto 6. congruence.
Qed.

Lemma load_lines_currentFile data : forall g,
  currentFile (load_lines data g) = currentFile g.
Proof.
  induction data as [|raw rest IH]; simpl; intros g; [reflexivity|].
  rewrite IH. destruct (keep_line (PyStr.lstrip raw)); [|reflexivity].
  unfold addRule. now destruct (has_line _ _).
Qed.

Lemma keep_line_spec line :
  keep_line line = true <->
  exists c rest, line = String c rest /\ c <> "#"%char.
Proof.
  unfold keep_line. destruct line as [|c rest]; simpl.
  - split; [discriminate|]. intros (c & r & H & _). discriminate.
  - rewrite negb_true_iff. split.
    + intros H. exists c, rest. split; [reflexivity|].
      intros ->. now rewrite Ascii.eqb_refl in H.
    + intros (c' & r' & [= -> ->] & Hne). now apply Ascii.eqb_neq.
Qed.

(** C10. [removeRule] with a rule that is not among the stored lines
    returns without raising and leaves the stored lines, the compiled
    rules and [hasChanged] as they were (the whole object is unchanged). *)
Theorem removeRule_absent (rule : string) (g : Gitignore) :
  ~ In rule (_dataLines g) ->
  removeRule rule g = (Ok tt, g).
Proof.
  intros Hnot. unfold removeRule. now rewrite index_of_absent.
Qed.

Lemma removeRule_absent_witness :
  ~ In "*.log" (_dataLines GitignoreExamples.two_rules) /\
  removeRule "*.log" GitignoreExamples.two_rules
    = (Ok tt, GitignoreExamples.two_rules).
Proof.
  assert (H : ~ In "*.log" (_dataLines GitignoreExamples.two_rules)).
  { simpl. intros [H|[H|[]]]; discriminate H. }
  split; [exact H | exact (removeRule_absent "*.log" _ H)].
Defined.

(** C9, as the code has it.  Loading a file (not adding to what is there)
    stores exactly the lines of the text as it is read (with universal
    newlines) that, once their leading blanks are removed, are not empty
    and do not start with [#]: a comment line is neither
    compiled into a rule nor kept among the stored lines.  The object is
    then unchanged with respect to that file, so saving to the file it
    was loaded from writes nothing, and saving to another file writes the
    stored lines joined by newlines, which hold no comment line. *)
Theorem load_then_save_drops_comments
    (fs : filesystem) (path text : string) (g0 : Gitignore) :
  fs path = Some (File text) ->
  exists g,
    load (Some path) false true fs g0 = (Ok tt, g) /\
    currentFile g = Some path /\ hasChanged g = false /\
    _rules g = map (fun l => globToRegex l true) (_dataLines g) /\
    (forall line, In line (_dataLines g) <->
       exists raw, In raw (PyStr.split PyStr.nl (PyStr.universal_newlines text)) /\
                   keep_line (PyStr.lstrip raw) = true /\
                   line = PyStr.lstrip raw) /\
    (forall line, In line (_dataLines g) -> PyStr.head line <> Some "#"%char) /\
    save None fs g = (Ok tt, g, fs) /\
    save (Some path) fs g = (Ok tt, g, fs) /\
    (forall out, out <> path -> is_dir fs out = false ->
       exists fs',
         save (Some out) fs g = (Ok tt, set_currentFile (Some out) g, fs') /\
         text_at fs' out = Some (PyStr.join PyStr.NL (_dataLines g)) /\
         text_at fs' path = Some text).
Proof.
  intros Hfile.
  set (g1 := {| currentFile := Some path; _rules := []; _dataLines := [];
                hasChanged := hasChanged g0 |}).
  set (g2 := load_lines (PyStr.split PyStr.nl (PyStr.universal_newlines text)) g1).
  exists (set_hasChanged false g2).
  assert (Hcur : currentFile g2 = Some path).
  { subst g2. now rewrite load_lines_currentFile. }
  assert (Hstep : in_step g2).
  { subst g2. apply load_lines_in_step. reflexivity. }
  assert (Hlines : forall line, In line (_dataLines g2) <->
       exists raw, In raw (PyStr.split PyStr.nl (PyStr.universal_newlines text)) /\
                   keep_line (PyStr.lstrip raw) = true /\
                   line = PyStr.lstrip raw).
  { intros line. subst g2. rewrite load_lines_lines. simpl. tauto. }
  assert (Hdir : is_dir fs path = false).
  { unfold is_dir. now rewrite Hfile. }
  assert (Hload : load (Some path) false true fs g0
                  = (Ok tt, set_hasChanged false g2)).
  { unfold load. simpl. rewrite Hdir. unfold exists_, read_text.
    rewrite Hfile. simpl. reflexivity. }
  clearbody g2. clear g1.
  assert (Hsame : save (Some path) fs (set_hasChanged false g2)
                  = (Ok tt, set_hasChanged false g2, fs)).
  { unfold save. rewrite Hdir. cbn [hasChanged currentFile set_hasChanged].
    rewrite Hcur. cbn [path_eqb orb]. now rewrite String.eqb_refl. }
  split; [exact Hload|].
  split; [exact Hcur|]. split; [reflexivity|]. split; [exact Hstep|].
  split; [exact Hlines|]. split; [|split; [|split]].
  - intros line Hin. apply Hlines in Hin. destruct Hin as (raw & _ & Hk & ->).
    apply keep_line_spec in Hk. destruct Hk as (c & rest & -> & Hne).
    simpl. congruence.
  - unfold save in *. cbn [hasChanged currentFile set_hasChanged] in *.
    rewrite Hcur in *. exact Hsame.
  - exact Hsame.
  - intros out Hne Hnone.
    exists (fun q => if String.eqb q out
                     then Some (File (PyStr.join PyStr.NL (_dataLines g2)))
                     else fs q).
    assert (Hne' : String.eqb path out = false).
    { apply String.eqb_neq. congruence. }
    split; [|split].
    + unfold save. rewrite Hnone.
      cbn [hasChanged currentFile set_hasChanged set_currentFile _dataLines].
      rewrite Hcur. cbn [path_eqb orb]. rewrite Hne'. cbn [negb].
      unfold write_text. unfold is_dir in Hnone.
      destruct (fs out) as [[|t]|]; [discriminate | reflexivity | reflexivity].
    + unfold text_at. now rewrite String.eqb_refl.
    + unfold text_at. rewrite Hne'. now rewrite Hfile.
Qed.

Lemma load_then_save_drops_comments_witness :
  GitignoreExamples.disk0 ".gitignore"
    = Some (File GitignoreExamples.commented) /\
  exists g,
    load (Some ".gitignore") false true GitignoreExamples.disk0 init
      = (Ok tt, g) /\
    _dataLines g = ["*.o"].
Proof.
  split; [reflexivity|].
  destruct (load_then_save_drops_comments GitignoreExamples.disk0
              ".gitignore" GitignoreExamples.commented init eq_refl)
    as (g & Hload & _).
  exists g. split; [exact Hload|].
  vm_compute in Hload. injection Hload as <-. reflexivity.
Defined.

(** C9 as stated fails: the file holds a comment line, it is loaded and
    saved to a second file, and the text written is the rule alone. *)
Lemma comments_not_written_back :
  exists g fs',
    load (Some ".gitignore") false true GitignoreExamples.disk0 init
      = (Ok tt, g) /\
    save (Some "copy") GitignoreExamples.disk0 g
      = (Ok tt, set_currentFile (Some "copy") g, fs') /\
    text_at GitignoreExamples.disk0 ".gitignore"
      = Some ("# build output" +:+ PyStr.NL +:+ "*.o") /\
    text_at fs' "copy" = Some "*.o" /\
    ~ In "# build output" (PyStr.split PyStr.nl "*.o").
Proof.
  eexists. eexists. split; [vm_compute; reflexivity|].
  split; [vm_compute; reflexivity|].
  split; [reflexivity|]. split; [reflexivity|].
  simpl. intros [H|[]]. discriminate H.
Qed.

End GitignoreSpec.

(** ** doxyFile.py *)

Module DoxyFileSpec.

Import DoxyFile.

Lemma with_value_same st : with_value (_value st) st = st.
Proof. now destruct st. Qed.

(** The loop of [load] keeps every setting pointing at a line that holds
    its value, provided the lines are stripped as [load] strips them. *)
Lemma load_loop_points (all : list string) :
  (forall line, In line all -> exists raw, line = PyStr.strip raw) ->
  forall rest lineNo lastsection section ss,
    drop lineNo all = rest ->
    (forall k st, PyDict.get ss k = Some st ->
       exists line, all !! _lineNo st = Some line /\
                    line_value line = Some (_value st)) ->
    forall k st,
      PyDict.get (load_loop lineNo rest lastsection section ss) k = Some st ->
      exists line, all !! _lineNo st = Some line /\
                   line_value line = Some (_value st).
Proof.
  intros Hstripped.
  induction rest as [|line rest IH];
    intros lineNo lastsection section ss Hdrop Hss k st; cbn [load_loop].
  - apply Hss.
  - assert (Hline : all !! lineNo = Some line).
    { rewrite <- (Nat.add_0_r lineNo), <- lookup_drop, Hdrop. reflexivity. }
    assert (Hrest : drop (S lineNo) all = rest).
    { change (S lineNo) with (1 + lineNo).
      rewrite Nat.add_comm, <- drop_drop, Hdrop. reflexivity. }
    destruct line as [|c line'].
    { destruct (is_nil section); now apply IH. }
    destruct (Ascii.eqb c "#"); [now apply IH|].
    destruct (PyStr.split1 "=" (String c line')) as [|col0 [|col1 more]]
      eqn:Hsplit; try (now apply IH).
    apply IH; [exact Hrest|]. clear k st. intros k st.
    cbn [name].
    destruct (decide (PyStr.strip col0 = k)) as [<-|Hne].
    + rewrite PyDictFacts.get_set_eq. intros [= <-]. cbn [_lineNo _value].
      exists (String c line'). split; [exact Hline|].
      unfold line_value. rewrite Hsplit. f_equal.
      destruct (Hstripped (String c line')) as [raw Hraw].
      { apply list_elem_of_In. eapply list_elem_of_lookup_2. exact Hline. }
      rewrite Hraw in Hsplit.
      exact (PyStrFacts.strip_after_separator _ _ _ _ _ Hsplit).
    + rewrite PyDictFacts.get_set_ne by exact Hne. apply Hss.
Qed.

(** After [load], every setting is [loaded]. *)
Lemma load_text_loaded data d ss k st :
  _settings (load_text data d) = Some ss ->
  PyDict.get ss k = Some st ->
  loaded (load_text data d) k st.
Proof.
  intros [= <-] Hget.
  destruct (load_loop_points (map PyStr.strip (PyStr.split PyStr.nl data)))
    with (rest := map PyStr.strip (PyStr.split PyStr.nl data))
         (lineNo := 0) (lastsection := @nil string) (section := @nil string)
         (ss := @nil (string * DoxyfileSetting)) (k := k) (st := st)
    as (line & Hline & Hval).
  - intros line Hin. apply in_map_iff in Hin as (raw & <- & _). eauto.
  - reflexivity.
  - intros k' st' Hnone. discriminate Hnone.
  - exact Hget.
  - exists (load_loop 0 (map PyStr.strip (PyStr.split PyStr.nl data)) [] [] []),
      line.
    repeat split; assumption.
Qed.

(** Assigning the value a setting holds changes nothing. *)
Lemma setitem_unchanged d dk k st v :
  loaded d k st -> textual v = _value st -> setitem k v d dk = (Ok tt, d, dk).
Proof.
  intros (ss & line & Hss & Hget & Hline & Hval) Htext.
  unfold line_value in Hval.
  destruct (PyStr.split1 "=" line) as [|p0 [|p1 rest]] eqn:Hsplit;
    try discriminate.
  injection Hval as Hval.
  unfold setitem, value_setter. rewrite Hss, Hget.
  rewrite Htext, with_value_same.
  rewrite (PyDictFacts.set_get_same _ _ _ Hget).
  assert (Hd : set_settings ss d = d).
  { destruct d; simpl in *. now subst. }
  rewrite Hd, Hline, Hsplit, Hval, String.eqb_refl. reflexivity.
Qed.

(** What the setter does when the text on the line is the text of the
    value: the value is stored, and that is all. *)
Lemma setitem_same_as_line d dk k v ss st line :
  _settings d = Some ss -> PyDict.get ss k = Some st ->
  _lines d !! _lineNo st = Some line ->
  line_value line = Some (textual v) ->
  setitem k v d dk
  = (Ok tt, set_settings (PyDict.set k (with_value (textual v) st) ss) d, dk).
Proof.
  intros Hss Hget Hline Hval. unfold line_value in Hval.
  destruct (PyStr.split1 "=" line) as [|p0 [|p1 rest]] eqn:Hsplit;
    try discriminate.
  injection Hval as Hval.
  unfold setitem, value_setter. rewrite Hss, Hget.
  cbn [_lines set_settings _lineNo]. rewrite Hline, Hsplit, Hval.
  now rewrite String.eqb_refl.
Qed.

(** What it does when the text on the line is another one. *)
Lemma setitem_other_than_line d dk k v ss st p0 p1 :
  _settings d = Some ss -> PyDict.get ss k = Some st ->
  _lines d !! _lineNo st = Some (p0 +:+ "=" +:+ p1) ->
  PyStr.split1 "=" (p0 +:+ "=" +:+ p1) = [p0; p1] ->
  textual v <> PyStr.lstrip p1 ->
  setitem k v d dk
  = markDirty
      (set_lines (<[_lineNo st := p0 +:+ "= " +:+ textual v]> (_lines d))
         (set_settings (PyDict.set k (with_value (textual v) st) ss) d))
      dk.
Proof.
  intros Hss Hget Hline Hsplit Hne.
  assert (Hneq : String.eqb (PyStr.lstrip p1) (textual v) = false).
  { apply String.eqb_neq. congruence. }
  unfold setitem, value_setter. rewrite Hss, Hget.
  cbn [_lines set_settings _lineNo]. now rewrite Hline, Hsplit, Hneq.
Qed.

(** After an assignment of a text without blanks in front, the setting
    holds the text of its line, whatever it held before. *)
Lemma setitem_clean_loaded d dk k v ss st line onLine d' dk' :
  _settings d = Some ss -> PyDict.get ss k = Some st ->
  _lines d !! _lineNo st = Some line -> line_value line = Some onLine ->
  PyStr.lstrip (textual v) = textual v ->
  setitem k v d dk = (Ok tt, d', dk') ->
  loaded d' k (with_value (textual v) st).
Proof.
  intros Hss Hget Hline Hval Hclean Hrun.
  destruct (string_dec (textual v) onLine) as [Heq|Hne].
  - subst onLine.
    rewrite (setitem_same_as_line d dk k v ss st line Hss Hget Hline Hval)
      in Hrun.
    injection Hrun as <- _.
    exists (PyDict.set k (with_value (textual v) st) ss), line.
    split; [reflexivity|]. split; [apply PyDictFacts.get_set_eq|].
    split; [exact Hline | exact Hval].
  - unfold line_value in Hval.
    destruct (PyStr.split1 "=" line) as [|p0 [|p1 rest]] eqn:Hsplit;
      try discriminate.
    injection Hval as Hval. subst onLine.
    assert (Hnew : line_value (p0 +:+ "= " +:+ textual v) = Some (textual v)).
    { unfold line_value, PyStr.split1 in *.
      destruct (PyStr.partition "=" line) as [[h t]|] eqn:Hp; [|discriminate].
      injection Hsplit as <- <- <-.
      change (h +:+ "= " +:+ textual v)
        with (h +:+ String "=" (String " " (textual v))).
      rewrite (PyStrFacts.partition_head _ _ _ _ _ Hp).
      cbn [PyStr.lstrip]. now rewrite Hclean. }
    assert (Hlt : _lineNo st < length (_lines d)).
    { eapply lookup_lt_Some. exact Hline. }
    destruct (PyStrFacts.split1_two _ _ _ _ _ Hsplit) as [-> ->].
    rewrite (setitem_other_than_line d dk k v ss st p0 p1 Hss Hget Hline
               Hsplit Hne) in Hrun.
    unfold markDirty, save in Hrun.
    cbn [autosave set_lines set_settings filename _lines] in Hrun.
    exists (PyDict.set k (with_value (textual v) st) ss),
      (p0 +:+ "= " +:+ textual v).
    destruct (autosave d); injection Hrun as <- _; cbn;
      (split; [reflexivity|]);
      (split; [apply PyDictFacts.get_set_eq|]);
      (split; [now apply list_lookup_insert_eq | exact Hnew]).
Qed.




End DoxyFileSpec.

(** ** The registry: reading and writing the store *)

Module DoxygenFacts.

Import PyDict Doxygen.

Section Monad.
Context {A B : Type}.

Lemma bind_Ok (m : M A) (k : A -> M B) s a s' :
  m s = (Ok a, s') -> bind m k s = k a s'.
Proof. unfold bind. now intros ->. Qed.

Lemma bind_Raise (m : M A) (k : A -> M B) s e s' :
  m s = (Raise e, s') -> bind m k s = (Raise e, s').
Proof. unfold bind. now intros ->. Qed.

(** A sequence that returns has run both of its parts. *)
Lemma bind_returns (m : M A) (k : A -> M B) s b s' :
  bind m k s = (Ok b, s') ->
  exists a t, m s = (Ok a, t) /\ k a t = (Ok b, s').
Proof.
  unfold bind. destruct (m s) as [[a|e] t]; [eauto | discriminate].
Qed.

End Monad.

(** *** Objects at an address *)

Lemma function_at_lookup s a f :
  functionInfos s !! a = Some f -> function_at s a = f.
Proof. unfold function_at. now intros ->. Qed.

Lemma function_at_valid s a :
  a < length (functionInfos s) -> functionInfos s !! a = Some (function_at s a).
Proof.
  intros Hlt. unfold function_at.
  destruct (lookup_lt_is_Some_2 _ _ Hlt) as [f Hf]. now rewrite !Hf.
Qed.

Lemma function_at_beyond s a :
  length (functionInfos s) <= a -> function_at s a = no_function.
Proof.
  intros Hge. unfold function_at. now rewrite lookup_ge_None_2.
Qed.

Lemma file_at_valid s a :
  a < length (fileInfos s) -> fileInfos s !! a = Some (file_at s a).
Proof.
  intros Hlt. unfold file_at.
  destruct (lookup_lt_is_Some_2 _ _ Hlt) as [f Hf]. now rewrite !Hf.
Qed.

Lemma function_at_with_function_eq s a g :
  a < length (functionInfos s) ->
  function_at (with_function a g s) a = g (function_at s a).
Proof.
  intros Hlt. unfold function_at, with_function. cbn [functionInfos].
  rewrite list_lookup_alter_eq.
  destruct (lookup_lt_is_Some_2 _ _ Hlt) as [f Hf]. now rewrite !Hf.
Qed.

Lemma function_at_with_function_ne s a b g :
  a <> b -> function_at (with_function a g s) b = function_at s b.
Proof.
  intros Hne. unfold function_at, with_function. cbn [functionInfos].
  now rewrite list_lookup_alter_ne.
Qed.

Lemma file_at_with_file_eq s a g :
  a < length (fileInfos s) ->
  file_at (with_file a g s) a = g (file_at s a).
Proof.
  intros Hlt. unfold file_at, with_file. cbn [fileInfos].
  rewrite list_lookup_alter_eq.
  destruct (lookup_lt_is_Some_2 _ _ Hlt) as [f Hf]. now rewrite !Hf.
Qed.

Lemma file_at_with_file_ne s a b g :
  a <> b -> file_at (with_file a g s) b = file_at s b.
Proof.
  intros Hne. unfold file_at, with_file. cbn [fileInfos].
  now rewrite list_lookup_alter_ne.
Qed.

End DoxygenFacts.

(** ** doxygenFileInfo.py: the [xml] property *)

Module XmlAccess.

Import PyDict Doxygen.

(** C7, as the code has it.  Reading [xml] of a file returns the cached
    element when there is one.  Otherwise the document is looked up: when
    it is absent the [FileNotFoundError] is caught, one diagnostic is
    printed, and the placeholder [file_not_found] is cached and returned;
    when it is well-formed its root is cached and returned; when it is
    present but not well-formed the parse error is raised to the caller and
    nothing is cached or printed. *)
Theorem xml_degrades_when_absent (w : World) (s : store) (self : addr) :
  match _xml (file_at s self), compound_xml w (xmlFilename (file_at s self)) with
  | Some e, _ => FileInfo_xml w self s = (Ok e, s)
  | None, Absent =>
      FileInfo_xml w self s =
      (Ok (ET.Element_ "file_not_found"),
       with_file self (set_xml (ET.Element_ "file_not_found"))
         (with_stdout
            ("ERR: " +:+ quote +:+ xmlFilename (file_at s self) +:+ quote
               +:+ " not found") s))
  | None, Parsed e => FileInfo_xml w self s = (Ok e, with_file self (set_xml e) s)
  | None, Malformed => FileInfo_xml w self s = (Raise ParseError, s)
  end.
Proof.
  unfold FileInfo_xml, bind, gets.
  destruct (_xml (file_at s self)) as [e|]; [reflexivity|].
  destruct (compound_xml w (xmlFilename (file_at s self))); reflexivity.
Qed.

(** C7 as stated fails for a document that cannot be parsed: the file
    [bad.c] of the registry below has such a document, and reading its
    [xml] raises. *)
Lemma xml_raises_when_unparsable :
  fileInfos (DoxygenExamples.parsed DoxygenExamples.broken)
    = [{| file_name := Some "bad.c"; functions := [(Some "f", 0)];
          _xml := None; xmlFilename := "bad_8c.xml" |}] /\
  compound_xml DoxygenExamples.broken "bad_8c.xml" = Malformed /\
  FileInfo_xml DoxygenExamples.broken 0
      (DoxygenExamples.parsed DoxygenExamples.broken)
    = (Raise ParseError, DoxygenExamples.parsed DoxygenExamples.broken).
Proof. repeat split. Qed.

End XmlAccess.

(** ** doxygenFunctionInfo.py: [bestFile] *)

Module BestFile.

Import PyDict Doxygen DoxygenFacts.

(** With one file there is nothing to compare, and it is returned. *)
Lemma bestFile_single s self k f :
  files (function_at s self) = [(k, f)] ->
  bestFile self s = (Ok (Some f), s).
Proof.
  intros Hfiles. unfold bestFile, bind, gets. rewrite Hfiles. reflexivity.
Qed.

(** From the second file on, the loop reads [extension] of the file it
    holds, which no [DoxygenFileInfo] has. *)
Lemma bestFile_several s self k1 f1 k2 f2 rest :
  files (function_at s self) = (k1, f1) :: (k2, f2) :: rest ->
  bestFile self s = (Raise (AttributeError "extension"), s).
Proof.
  intros Hfiles. unfold bestFile, bind, gets. rewrite Hfiles. reflexivity.
Qed.

(** C3 on the code: [foo] is declared in [foo.h] and defined in [foo.c];
    the registry holds one function linked to both files, and [bestFile]
    raises [AttributeError] instead of returning the file [foo.c]. *)
Theorem bestFile_header_and_source_raises :
  let s := DoxygenExamples.parsed DoxygenExamples.header_and_source in
  files (function_at s 0) = [(ByName (Some "foo.h"), 0); (ByName (Some "foo.c"), 1)] /\
  file_name (file_at s 1) = Some "foo.c" /\
  bestFile 0 s = (Raise (AttributeError "extension"), s).
Proof. repeat split. Qed.

End BestFile.

(** ** doxygenInfo.py: reading the index *)

Module IndexParse.

Import PyDict Doxygen DoxygenFacts Invariants.

(** *** Loops that return *)

Lemma for_each_returns {A} (I : list A -> store -> Prop) (body : A -> M unit) :
  (forall done x s1 s2,
     I done s1 -> body x s1 = (Ok tt, s2) -> I (done ++ [x]) s2) ->
  forall l done s s',
    I done s -> for_each l body s = (Ok tt, s') -> I (done ++ l) s'.
Proof.
  intros Hstep. induction l as [|x l IH]; intros done s s' HI Hrun.
  - cbn in Hrun. injection Hrun as <-. now rewrite app_nil_r.
  - cbn [for_each] in Hrun. apply bind_returns in Hrun as ([] & t & Hx & Hrun).
    change (x :: l) with ([x] ++ l). rewrite app_assoc.
    eapply IH; [|exact Hrun]. eapply Hstep; eassumption.
Qed.

(** Skipping the elements that fail a test is looping over the others. *)
Lemma for_each_filter {A} (p : A -> Prop) `{forall x, Decision (p x)}
    (test : A -> bool) (body : A -> M unit) :
  (forall x, test x = true <-> p x) ->
  forall l s,
    for_each l (fun x => if negb (test x) then ret tt else body x) s
    = for_each (filter p l) body s.
Proof.
  intros Htest. induction l as [|x l IH]; intros s; [reflexivity|].
  cbn [for_each]. rewrite filter_cons.
  destruct (decide (p x)) as [Hp|Hp].
  - apply Htest in Hp. rewrite Hp. cbn [negb for_each]. unfold bind.
    destruct (body x s) as [[u|e] t]; [apply IH | reflexivity].
  - assert (Ht : test x = false).
    { destruct (test x) eqn:E; [|reflexivity]. now apply Htest in E. }
    rewrite Ht. cbn [negb]. unfold bind, ret. apply IH.
Qed.

(** *** The two steps of a [member] *)

Lemma reparse_member_returns fileInfo m s s' :
  reparse_member fileInfo m s = (Ok tt, s') ->
  exists rid kind,
    get (ET.attrib m) "refid" = Some rid /\
    get (ET.attrib m) "kind" = Some kind /\
    ((kind <> "function" /\ s' = s) \/
     (kind = "function" /\
      ((exists f, get (_references (info s)) rid = Some f /\
                  s' = link fileInfo f s) \/
       (get (_references (info s)) rid = None /\
        exists n, s' = link fileInfo (length (functionInfos s))
                         (register n rid s))))).
Proof.
  unfold reparse_member. intros H.
  apply bind_returns in H as (rid & t & Hrid & H).
  unfold lift, ET.attrib_item in Hrid.
  destruct (get (ET.attrib m) "refid") as [rid'|] eqn:Erid; [|discriminate].
  injection Hrid as <- <-.
  apply bind_returns in H as (kind & t & Hkind & H).
  unfold lift, ET.attrib_item in Hkind.
  destruct (get (ET.attrib m) "kind") as [kind'|] eqn:Ekind; [|discriminate].
  injection Hkind as <- <-.
  exists rid', kind'. split; [reflexivity|]. split; [reflexivity|].
  destruct (String.eqb kind' "function") eqn:Ek.
  - apply String.eqb_eq in Ek. right. split; [exact Ek|].
    apply bind_returns in H as (refs & t & Hrefs & H).
    unfold gets in Hrefs. injection Hrefs as <- <-.
    destruct (get (_references (info s)) rid') as [f|] eqn:Eget.
    + left. exists f. split; [reflexivity|].
      unfold bind, ret, gets, modify in H. injection H as <-. reflexivity.
    + right. split; [reflexivity|].
      apply bind_returns in H as (f & t & Hf & H).
      apply bind_returns in Hf as (n & t0 & Hn & Hf).
      unfold lift in Hn. injection Hn as Hn <-.
      exists n.
      unfold bind, ret, gets, modify, new_function in Hf.
      injection Hf as <- <-.
      unfold bind, ret, gets, modify in H. injection H as <-. reflexivity.
  - apply String.eqb_neq in Ek. left. split; [exact Ek|].
    unfold ret in H. now injection H as <-.
Qed.

(** *** What the two steps change *)

Lemma function_at_alter s a g b :
  function_at (with_function a g s) b =
  if decide (a = b) then
    match functionInfos s !! b with
    | Some x => g x
    | None => no_function
    end
  else function_at s b.
Proof.
  unfold function_at, with_function. cbn [functionInfos].
  destruct (decide (a = b)) as [->|Hne].
  - rewrite list_lookup_alter_eq. now destruct (functionInfos s !! b).
  - now rewrite list_lookup_alter_ne.
Qed.

Lemma file_at_alter s a g b :
  file_at (with_file a g s) b =
  if decide (a = b) then
    match fileInfos s !! b with
    | Some x => g x
    | None => no_file
    end
  else file_at s b.
Proof.
  unfold file_at, with_file. cbn [fileInfos].
  destruct (decide (a = b)) as [->|Hne].
  - rewrite list_lookup_alter_eq. now destruct (fileInfos s !! b).
  - now rewrite list_lookup_alter_ne.
Qed.

Section Link.
Variables (fileInfo f : addr) (s : store).

Lemma link_info : info (link fileInfo f s) = info s.
Proof. reflexivity. Qed.

Lemma link_functions_length :
  length (functionInfos (link fileInfo f s)) = length (functionInfos s).
Proof. unfold link, with_function. cbn. apply length_alter. Qed.

Lemma link_files_length :
  length (fileInfos (link fileInfo f s)) = length (fileInfos s).
Proof. unfold link, with_function, with_file. cbn. apply length_alter. Qed.

Lemma link_refid a :
  refid (function_at (link fileInfo f s) a) = refid (function_at s a).
Proof.
  unfold link. rewrite function_at_alter.
  destruct (decide (f = a)) as [->|]; [|reflexivity].
  unfold function_at, with_file. cbn [functionInfos].
  now destruct (functionInfos s !! a).
Qed.

Lemma link_name a :
  name (function_at (link fileInfo f s) a) = name (function_at s a).
Proof.
  unfold link. rewrite function_at_alter.
  destruct (decide (f = a)) as [->|]; [|reflexivity].
  unfold function_at, with_file. cbn [functionInfos].
  now destruct (functionInfos s !! a).
Qed.

Lemma link_file_name b :
  file_name (file_at (link fileInfo f s) b) = file_name (file_at s b).
Proof.
  unfold link.
  change (file_at (with_function f ?g ?t) b) with (file_at t b).
  rewrite file_at_alter.
  destruct (decide (fileInfo = b)) as [->|]; [|reflexivity].
  unfold file_at. now destruct (fileInfos s !! b).
Qed.

(** The files of the other functions are as they were. *)
Lemma link_files_other a :
  a <> f -> files (function_at (link fileInfo f s) a) = files (function_at s a).
Proof.
  intros Hne. unfold link. rewrite function_at_alter.
  destruct (decide (f = a)) as [->|]; [contradiction | reflexivity].
Qed.

(** The function linked names the file under the name of the file. *)
Lemma link_files_self :
  f < length (functionInfos s) ->
  files (function_at (link fileInfo f s) f) =
  set (ByName (file_name (file_at s fileInfo))) fileInfo
      (files (function_at s f)).
Proof.
  intros Hlt. unfold link. rewrite function_at_alter, decide_True by reflexivity.
  cbn [with_file functionInfos].
  rewrite (function_at_valid s f Hlt). cbn [set_function_file files].
  f_equal. f_equal.
  change (file_at (with_file fileInfo ?g s) fileInfo)
    with (file_at (with_file fileInfo g s) fileInfo).
  rewrite file_at_alter, decide_True by reflexivity.
  unfold file_at. now destruct (fileInfos s !! fileInfo).
Qed.

(** The documents cached are as they were. *)
Lemma link_file_lookup b x :
  fileInfos (link fileInfo f s) !! b = Some x ->
  exists x0, fileInfos s !! b = Some x0 /\
             _xml x = _xml x0 /\ xmlFilename x = xmlFilename x0.
Proof.
  unfold link, with_function, with_file. cbn [fileInfos].
  destruct (decide (fileInfo = b)) as [->|Hne].
  - rewrite list_lookup_alter_eq.
    destruct (fileInfos s !! b) as [x0|]; [|discriminate].
    intros [= <-]. exists x0. now repeat split.
  - rewrite list_lookup_alter_ne by exact Hne. intros H. exists x. auto.
Qed.

End Link.

Section Register.
Variables (n : option string) (rid : string) (s : store).

Lemma register_functions :
  functionInfos (register n rid s) =
  functionInfos s ++
    [{| name := n; refid := rid; files := []; _parentReferences := [] |}].
Proof. reflexivity. Qed.

Lemma register_files : fileInfos (register n rid s) = fileInfos s.
Proof. reflexivity. Qed.

Lemma register_references :
  _references (info (register n rid s)) =
  set rid (length (functionInfos s)) (_references (info s)).
Proof. reflexivity. Qed.

Lemma register_names :
  _functions (info (register n rid s)) =
  set n (length (functionInfos s)) (_functions (info s)).
Proof. reflexivity. Qed.

Lemma register_old a :
  a < length (functionInfos s) ->
  function_at (register n rid s) a = function_at s a.
Proof.
  intros Hlt. unfold function_at. rewrite register_functions.
  now rewrite lookup_app_l.
Qed.

Lemma register_new :
  function_at (register n rid s) (length (functionInfos s)) =
  {| name := n; refid := rid; files := []; _parentReferences := [] |}.
Proof.
  unfold function_at. rewrite register_functions.
  rewrite lookup_app_r by lia. now rewrite Nat.sub_diag.
Qed.

Lemma register_file_at b : file_at (register n rid s) b = file_at s b.
Proof. reflexivity. Qed.

End Register.

(** *** The invariant of the two loops is kept by every step *)

Section Pass.
Variables (w : World) (s0 : store).

Local Abbreviation base := (length (functionInfos s0)).
Local Abbreviation fbase := (length (fileInfos s0)).
Local Abbreviation pass := (Invariants.pass w s0).

Lemma pass_start :
  pass [] [] (with_info reset_index s0).
Proof.
  constructor; cbn; try (intros; discriminate); try (intros; contradiction).
  - lia.
  - lia.
  - intros a Ha. lia.
  - intros n a [].
  - auto.
Qed.

Lemma pass_new_file names log s n path :
  pass names log s ->
  pass (names ++ [n]) log (snd (new_file n path s)).
Proof.
  intros [Hfiles Hnames Hbase Hrefs Hunique Hfuns Hcache Hbound Hlinked].
  assert (Hold : forall b, b < length (fileInfos s) ->
            file_at (snd (new_file n path s)) b = file_at s b).
  { intros b Hb. unfold file_at, new_file. cbn [snd fileInfos].
    now rewrite lookup_app_l. }
  constructor.
  - cbn. rewrite !length_app. cbn. lia.
  - intros j n' Hj. destruct (Nat.lt_ge_cases j (length names)) as [Hlt|Hge].
    + rewrite lookup_app_l in Hj by exact Hlt.
      rewrite Hold by lia. now apply Hnames.
    + rewrite lookup_app_r in Hj by exact Hge.
      destruct (j - length names) as [|d] eqn:Ed; [|discriminate].
      injection Hj as <-. assert (j = length names) as -> by lia.
      unfold file_at, new_file. cbn [snd fileInfos].
      rewrite <- Hfiles, lookup_app_r by lia. now rewrite Nat.sub_diag.
  - exact Hbase.
  - exact Hrefs.
  - exact Hunique.
  - exact Hfuns.
  - intros Hc0 a f e Hlook Hxml. specialize (Hcache Hc0).
    unfold new_file in Hlook. cbn [snd fileInfos] in Hlook.
    apply lookup_app_Some in Hlook as [Hlook|[_ Hlook]].
    + exact (Hcache a f e Hlook Hxml).
    + destruct (a - length (fileInfos s)); [|discriminate].
      injection Hlook as <-. discriminate.
  - intros j rid Hin. rewrite length_app. specialize (Hbound j rid Hin). lia.
  - intros j rid Hin.
    destruct (Hlinked j rid Hin) as (a & k & n' & Ha & Hjk & Hk & Hnj & Hnk & Hget).
    exists a, k, n'. repeat split; try assumption.
    + rewrite lookup_app_l; [exact Hnj | now apply Hbound in Hin].
    + rewrite lookup_app_l; [exact Hnk | now apply Hbound in Hk].
Qed.

Lemma pass_register names log s n rid :
  pass names log s ->
  get (_references (info s)) rid = None ->
  pass names log (register n rid s).
Proof.
  intros [Hfiles Hnames Hbase Hrefs Hunique Hfuns Hcache Hbound Hlinked] Hnone.
  assert (Hother : forall a r,
            get (_references (info s)) r = Some a ->
            a < length (functionInfos s) /\ r <> rid /\
            function_at (register n rid s) a = function_at s a).
  { intros a r Hr. destruct (Hrefs r a Hr) as [[_ Hlt] _].
    split; [exact Hlt|]. split; [congruence | now apply register_old]. }
  constructor.
  - exact Hfiles.
  - exact Hnames.
  - rewrite register_functions, length_app. cbn. lia.
  - intros r a. rewrite register_references, register_functions, length_app.
    cbn [length]. destruct (decide (rid = r)) as [<-|Hne].
    + rewrite PyDictFacts.get_set_eq. intros [= <-]. split; [lia|].
      now rewrite register_new.
    + rewrite PyDictFacts.get_set_ne by exact Hne. intros Hr.
      destruct (Hother a r Hr) as (Hlt & _ & ->).
      destruct (Hrefs r a Hr) as [[Hb _] Hrefid]. split; [lia | exact Hrefid].
  - intros a. rewrite register_references, register_functions, length_app.
    cbn [length]. intros Ha.
    destruct (decide (a = length (functionInfos s))) as [->|Hne].
    + rewrite register_new. cbn [refid]. apply PyDictFacts.get_set_eq.
    + assert (Hlt : a < length (functionInfos s)) by lia.
      rewrite register_old by exact Hlt.
      assert (Hr := Hunique a (conj (proj1 Ha) Hlt)).
      rewrite PyDictFacts.get_set_ne; [exact Hr | congruence].
  - intros n' a. rewrite register_names, register_references. intros Hin.
    apply PyDictFacts.In_set in Hin as [[-> ->]|Hin].
    + rewrite register_new. cbn [refid]. apply PyDictFacts.get_set_eq.
    + specialize (Hfuns n' a Hin).
      destruct (Hother _ _ Hfuns) as (_ & Hne & ->).
      rewrite PyDictFacts.get_set_ne; [exact Hfuns | congruence].
  - exact Hcache.
  - exact Hbound.
  - intros j r Hin.
    destruct (Hlinked j r Hin) as (a & k & n' & Ha & Hjk & Hk & Hnj & Hnk & Hget).
    destruct (Hother _ _ Ha) as (_ & Hne & Hsame).
    exists a, k, n'. rewrite register_references, Hsame.
    rewrite PyDictFacts.get_set_ne by congruence. now repeat split.
Qed.

Lemma pass_link names log s j0 n0 rid f :
  pass names log s ->
  length names = S j0 -> names !! j0 = Some n0 ->
  get (_references (info s)) rid = Some f ->
  pass names (log ++ [(j0, rid)]) (link (fbase + j0) f s).
Proof.
  intros [Hfiles Hnames Hbase Hrefs Hunique Hfuns Hcache Hbound Hlinked]
    Hlen Hn0 Hf.
  destruct (Hrefs rid f Hf) as [[Hfb Hflt] Hfrid].
  assert (Hfile : file_name (file_at s (fbase + j0)) = n0) by now apply Hnames.
  constructor.
  - now rewrite link_files_length.
  - intros j n Hj. rewrite link_file_name. now apply Hnames.
  - now rewrite link_functions_length.
  - intros r a. rewrite link_info, link_functions_length, link_refid.
    apply Hrefs.
  - intros a. rewrite link_info, link_functions_length, link_refid.
    apply Hunique.
  - intros n a. rewrite link_info, link_refid. apply Hfuns.
  - intros Hc0 a x e Hlook Hxml. specialize (Hcache Hc0).
    apply link_file_lookup in Hlook as (x0 & Hlook & Hx & Hp).
    rewrite Hp. apply (Hcache a x0 e Hlook). congruence.
  - intros j r Hin. apply in_app_iff in Hin as [Hin|[[= <- <-]|[]]].
    + now apply Hbound in Hin.
    + lia.
  - intros j r Hin. rewrite link_info.
    assert (Hnew : get (files (function_at (link (fbase + j0) f s) f))
                       (ByName n0) = Some (fbase + j0)).
    { rewrite link_files_self by exact Hflt. rewrite Hfile.
      apply PyDictFacts.get_set_eq. }
    apply in_app_iff in Hin as [Hin|[[= <- <-]|[]]].
    + destruct (Hlinked j r Hin)
        as (a & k & n & Ha & Hjk & Hk & Hnj & Hnk & Hget).
      destruct (decide (a = f)) as [->|Hne].
      * assert (r = rid) as ->.
        { destruct (Hrefs r f Ha) as [_ <-]. exact Hfrid. }
        destruct (decide (n = n0)) as [->|Hnn].
        -- exists f, j0, n0. repeat split; try assumption.
           ++ apply Hbound in Hin. lia.
           ++ apply in_app_iff. right. now left.
        -- exists f, k, n. repeat split; try assumption.
           ++ apply in_app_iff. now left.
           ++ rewrite link_files_self by exact Hflt. rewrite Hfile.
              rewrite PyDictFacts.get_set_ne; [exact Hget | congruence].
      * exists a, k, n. repeat split; try assumption.
        -- apply in_app_iff. now left.
        -- now rewrite link_files_other.
    + exists f, j0, n0. repeat split; try assumption.
      * lia.
      * apply in_app_iff. right. now left.
Qed.

End Pass.

(** *** The loops *)

Section Loops.
Variables (w : World) (s0 : store).

Local Abbreviation fbase := (length (fileInfos s0)).

Lemma pass_member names log s j0 n0 m s' :
  pass w s0 names log s ->
  length names = S j0 -> names !! j0 = Some n0 ->
  reparse_member (fbase + j0) m s = (Ok tt, s') ->
  pass w s0 names (log ++ map (pair j0) (member_refid m)) s'.
Proof.
  intros Hpass Hlen Hn0 Hrun.
  apply reparse_member_returns in Hrun
    as (rid & kind & Erid & Ekind & [[Hk ->]|[-> Hcase]]).
  - unfold member_refid. rewrite Ekind, decide_False by congruence.
    now rewrite app_nil_r.
  - unfold member_refid. rewrite Ekind, decide_True, Erid by reflexivity.
    cbn [map]. destruct Hcase as [(f & Hf & ->)|(Hnone & n & ->)].
    + now apply (pass_link w s0 names log s j0 n0 rid f).
    + apply (pass_link w s0 names log _ j0 n0 rid); try assumption.
      * now apply pass_register.
      * rewrite register_references. apply PyDictFacts.get_set_eq.
Qed.

Lemma entries_snoc compounds c :
  entries (compounds ++ [c]) =
  entries compounds ++ map (pair (length compounds)) (member_refids c).
Proof.
  unfold entries. rewrite imap_app, concat_app. cbn.
  now rewrite Nat.add_0_r, app_nil_r.
Qed.

Lemma pass_compound done c s1 s2 :
  pass w s0 (map compound_name done) (entries done) s1 ->
  compound_body c s1 = (Ok tt, s2) ->
  pass w s0 (map compound_name (done ++ [c])) (entries (done ++ [c])) s2.
Proof.
  intros Hpass Hrun. unfold compound_body in Hrun.
  apply bind_returns in Hrun as (rid & t & Hrid & Hrun).
  unfold lift in Hrid. injection Hrid as Hrid <-.
  apply bind_returns in Hrun as (n & t & Hn & Hrun).
  unfold lift in Hn. injection Hn as Hn <-.
  apply bind_returns in Hrun as (fileInfo & t & Hnew & Hrun).
  assert (Hname : compound_name c = n).
  { unfold ET.find_text in Hn. unfold compound_name.
    destruct (ET.find "name" c); [now injection Hn | discriminate]. }
  assert (Hfile : fileInfo = fbase + length done /\ t = snd (new_file n (rid +:+ ".xml") s1)).
  { unfold new_file in *. injection Hnew as <- <-. split; [|reflexivity].
    rewrite (pass_files _ _ _ _ _ Hpass). now rewrite length_map. }
  destruct Hfile as [-> ->].
  rewrite map_app, entries_snoc. cbn [map]. rewrite Hname.
  unfold member_refids.
  pose (I := fun (mdone : list ET.Element) (s : store) =>
               pass w s0 (map compound_name done ++ [n])
                 (entries done ++
                  map (pair (length done)) (flat_map member_refid mdone)) s).
  change (I ([] ++ ET.findall "member" c) s2).
  eapply (for_each_returns I); [| |exact Hrun].
  - intros mdone m u1 u2 HI Hm. unfold I in *.
    rewrite flat_map_app, map_app, app_assoc. cbn [flat_map].
    rewrite app_nil_r.
    eapply pass_member; [exact HI | | |exact Hm].
    + rewrite length_app, length_map. cbn. lia.
    + rewrite lookup_app_r by (rewrite length_map; lia).
      now rewrite length_map, Nat.sub_diag.
  - unfold I. cbn [flat_map map]. rewrite app_nil_r.
    now apply pass_new_file.
Qed.

Lemma reparse_compounds root s1 s2 :
  for_each (ET.findall_below "compound" root) reparse_compound s1 = (Ok tt, s2) ->
  for_each (file_compounds root) compound_body s1 = (Ok tt, s2).
Proof.
  intros <-. symmetry. unfold file_compounds.
  apply (for_each_filter
           (fun c => ET.attrib_get c "kind" "" = "file")
           (fun c => String.eqb (ET.attrib_get c "kind" "") "file")
           compound_body).
  intros c. apply String.eqb_eq.
Qed.

Lemma reparse_pass root s :
  index_xml w = Parsed root ->
  _reparseXmlIndex w s0 = (Ok tt, s) ->
  pass w s0 (compound_names root) (index_entries root) s.
Proof.
  intros Hroot Hrun. unfold _reparseXmlIndex in Hrun.
  apply bind_returns in Hrun as ([] & t & Hreset & Hrun).
  unfold modify in Hreset. injection Hreset as <-.
  apply bind_returns in Hrun as (root' & t & Hxml & Hrun).
  unfold Info_xml in Hxml. rewrite Hroot in Hxml.
  unfold ret in Hxml. injection Hxml as <- <-.
  apply reparse_compounds in Hrun.
  change (pass w s0 (map compound_name ([] ++ file_compounds root))
            (entries ([] ++ file_compounds root)) s).
  eapply (for_each_returns
            (fun done u => pass w s0 (map compound_name done) (entries done) u));
    [| |exact Hrun].
  - intros done c u1 u2. apply pass_compound.
  - apply pass_start.
Qed.

End Loops.

(** A parse that returns leaves a registry that is in order. *)
Lemma reparse_registry_ok w s0 s :
  cache_ok w s0 ->
  _reparseXmlIndex w s0 = (Ok tt, s) ->
  registry_ok w s.
Proof.
  intros Hcache Hrun.
  assert (exists root, index_xml w = Parsed root) as [root Hroot].
  { unfold _reparseXmlIndex in Hrun.
    apply bind_returns in Hrun as ([] & t & _ & Hrun).
    apply bind_returns in Hrun as (root & t' & Hxml & _).
    unfold Info_xml in Hxml. destruct (index_xml w); try discriminate. eauto. }
  destruct (reparse_pass w s0 root s Hroot Hrun)
    as [_ _ _ Hrefs _ Hfuns Hc _ _].
  split; [now apply Hc|]. split; [|exact Hfuns].
  intros rid a Ha. destruct (Hrefs rid a Ha) as [[_ Hlt] Hrid]. now split.
Qed.

Lemma init_cache_ok w : cache_ok w init.
Proof. intros a f e Hlook. destruct a; discriminate Hlook. Qed.

(** C6, as the code has it.  After a parse of the index that returns, a
    reference ID of the registry leads to a function object constructed by
    this parse that carries this ID, and no two objects constructed by the
    parse carry the same ID: an entry of the index whose ID is known
    resolves to the object that is there.  The files constructed are those
    of the index, in its order and under their names.  For every entry of
    the index, a function listed under a file, the object of the function
    has in its [files] mapping, under the name of that file, the FileInfo of
    that file, or the FileInfo of a later file of the same name that lists
    the function too (the mapping has one place per file name). *)
Theorem index_parse_one_object_per_refid
    (w : World) (s0 s : store) (root : ET.Element) :
  index_xml w = Parsed root ->
  _reparseXmlIndex w s0 = (Ok tt, s) ->
  (forall rid a,
     get (_references (info s)) rid = Some a ->
     length (functionInfos s0) <= a < length (functionInfos s) /\
     refid (function_at s a) = rid) /\
  (forall a b,
     length (functionInfos s0) <= a < length (functionInfos s) ->
     length (functionInfos s0) <= b < length (functionInfos s) ->
     refid (function_at s a) = refid (function_at s b) -> a = b) /\
  length (fileInfos s) = length (fileInfos s0) + length (compound_names root) /\
  (forall j n,
     compound_names root !! j = Some n ->
     file_name (file_at s (length (fileInfos s0) + j)) = n) /\
  (forall j rid,
     In (j, rid) (index_entries root) ->
     exists a k n,
       get (_references (info s)) rid = Some a /\
       j <= k /\ In (k, rid) (index_entries root) /\
       compound_names root !! j = Some n /\
       compound_names root !! k = Some n /\
       get (files (function_at s a)) (ByName n)
         = Some (length (fileInfos s0) + k)).
Proof.
  intros Hroot Hrun.
  destruct (reparse_pass w s0 root s Hroot Hrun)
    as [Hfiles Hnames _ Hrefs Hunique _ _ _ Hlinked].
  split; [exact Hrefs|]. split; [|split; [exact Hfiles|split; assumption]].
  intros a b Ha Hb Heq.
  pose proof (Hunique a Ha) as Hga. pose proof (Hunique b Hb) as Hgb.
  rewrite Heq in Hga. congruence.
Qed.

Lemma index_parse_one_object_per_refid_witness :
  let w := DoxygenExamples.header_and_source in
  let s := DoxygenExamples.parsed w in
  let root :=
    DoxygenExamples.doxygenindex
      [DoxygenExamples.compound "foo_8h" "foo.h"
         [DoxygenExamples.member "foo_8c_1a" "foo"];
       DoxygenExamples.compound "foo_8c" "foo.c"
         [DoxygenExamples.member "foo_8c_1a" "foo"]] in
  index_xml w = Parsed root /\
  _reparseXmlIndex w init = (Ok tt, s) /\
  index_entries root = [(0, "foo_8c_1a"); (1, "foo_8c_1a")] /\
  compound_names root = [Some "foo.h"; Some "foo.c"] /\
  (forall a b,
     length (functionInfos init) <= a < length (functionInfos s) ->
     length (functionInfos init) <= b < length (functionInfos s) ->
     refid (function_at s a) = refid (function_at s b) -> a = b) /\
  get (_references (info s)) "foo_8c_1a" = Some 0 /\
  files (function_at s 0)
    = [(ByName (Some "foo.h"), 0); (ByName (Some "foo.c"), 1)].
Proof.
  cbv zeta.
  assert (Hroot : index_xml DoxygenExamples.header_and_source
    = Parsed (DoxygenExamples.doxygenindex
        [DoxygenExamples.compound "foo_8h" "foo.h"
           [DoxygenExamples.member "foo_8c_1a" "foo"];
         DoxygenExamples.compound "foo_8c" "foo.c"
           [DoxygenExamples.member "foo_8c_1a" "foo"]])) by reflexivity.
  assert (Hrun : _reparseXmlIndex DoxygenExamples.header_and_source init
    = (Ok tt, DoxygenExamples.parsed DoxygenExamples.header_and_source))
    by reflexivity.
  split; [exact Hroot|]. split; [exact Hrun|].
  split; [reflexivity|]. split; [reflexivity|].
  destruct (index_parse_one_object_per_refid _ _ _ _ Hroot Hrun)
    as (_ & Hunique & _).
  split; [exact Hunique|]. split; reflexivity.
Defined.

(** C6 as stated fails when two files have the same name: [a/util.h] and
    [b/util.h] both list [clamp].  There is one function object, the
    FileInfo of each file lists it, and its [files] mapping holds the second
    FileInfo only. *)
Lemma same_name_keeps_one_file :
  let s := DoxygenExamples.parsed DoxygenExamples.same_name_files in
  _reparseXmlIndex DoxygenExamples.same_name_files init = (Ok tt, s) /\
  length (functionInfos s) = 1 /\
  functions (file_at s 0) = [(Some "clamp", 0)] /\
  functions (file_at s 1) = [(Some "clamp", 0)] /\
  xmlFilename (file_at s 0) = "a_2util_8h.xml" /\
  xmlFilename (file_at s 1) = "b_2util_8h.xml" /\
  files (function_at s 0) = [(ByName (Some "util.h"), 1)] /\
  ~ In 0 (values (files (function_at s 0))).
Proof.
  cbv zeta. repeat split. vm_compute. intros [H|[]]. discriminate H.
Qed.

End IndexParse.

(** ** doxygenFunctionInfo.py: the calls of a function *)

Module ForwardCalls.

Import PyDict Doxygen DoxygenFacts Invariants.

(** *** The relations between stores are equivalences and orders *)

Lemma alike_refl s : alike s s.
Proof. now constructor. Qed.

Lemma alike_sym s t : alike s t -> alike t s.
Proof. intros []. now constructor. Qed.

Lemma alike_trans s t u : alike s t -> alike t u -> alike s u.
Proof.
  intros [] []. constructor; intros; etransitivity; eauto.
Qed.

Lemma caches_only_refl s : caches_only s s.
Proof. now constructor. Qed.

Lemma caches_only_trans s t u :
  caches_only s t -> caches_only t u -> caches_only s u.
Proof.
  intros [] []. constructor; intros; etransitivity; eauto.
Qed.

Lemma caches_only_function_at s t a :
  caches_only s t -> function_at t a = function_at s a.
Proof. intros [_ H _ _]. unfold function_at. now rewrite H. Qed.

Lemma caches_only_alike s t : caches_only s t -> alike s t.
Proof.
  intros H. pose proof (fun a => caches_only_function_at s t a H) as Hfn.
  destruct H as [Hi Hf Hn Hx].
  constructor; intros; rewrite ?Hi, ?Hfn, ?Hn, ?Hx; reflexivity.
Qed.

Section Sim.
Variable w : World.

Local Abbreviation akin := (Invariants.akin w).
Local Abbreviation sim := (Invariants.sim w).
Local Abbreviation respects := (Invariants.respects w).
Local Abbreviation xml_round := (Invariants.xml_round w).

Lemma cache_at s b e :
  cache_ok w s -> _xml (file_at s b) = Some e ->
  compound_element w (xmlFilename (file_at s b)) = Some e.
Proof.
  intros Hc. unfold file_at. destruct (fileInfos s !! b) as [f|] eqn:E.
  - apply (Hc b f e E).
  - discriminate.
Qed.

Lemma akin_sym s t : akin s t -> akin t s.
Proof.
  intros (Ha & Hs & Ht & Hr).
  split; [now apply alike_sym|]. split; [exact Ht|]. split; [exact Hs|].
  now rewrite <- (alike_references _ _ Ha).
Qed.

Lemma akin_trans s t u : akin s t -> akin t u -> akin s u.
Proof.
  intros (Ha & Hs & Ht & Hr) (Hb & _ & Hu & _).
  split; [eapply alike_trans; eassumption|]. auto.
Qed.

Lemma akin_left s t : akin s t -> akin s s.
Proof.
  intros (Ha & Hs & Ht & Hr). split; [apply alike_refl|]. auto.
Qed.

Lemma akin_step s t :
  akin s s -> caches_only s t -> cache_ok w t -> akin s t.
Proof.
  intros (_ & Hs & _ & Hr) Hc Ht.
  split; [now apply caches_only_alike|]. auto.
Qed.

Lemma respects_True : respects (fun _ => True).
Proof. now intros s t _ _. Qed.

Section Combinators.
Variable Q : store -> Prop.
Hypothesis HQ : respects Q.

(** After a step on each side the stores are akin again. *)
Lemma sim_next {X} (m : store -> X * store) s t :
  sim Q m -> akin s t -> Q s ->
  akin (snd (m s)) (snd (m t)) /\ Q (snd (m s)) /\ akin s (snd (m s)).
Proof.
  intros Hm Hst Hq.
  destruct (Hm s t Hst Hq) as (_ & Hcs & Hos).
  destruct (Hm t s (akin_sym _ _ Hst) (HQ _ _ Hst Hq)) as (_ & Hct & Hot).
  assert (H1 : akin s (snd (m s))).
  { apply akin_step; eauto using akin_left. }
  assert (H2 : akin t (snd (m t))).
  { apply akin_step; eauto using akin_left, akin_sym. }
  split; [|split; [now apply (HQ s)|exact H1]].
  eapply akin_trans; [apply akin_sym; exact H1|].
  eapply akin_trans; [exact Hst | exact H2].
Qed.

Lemma sim_ret {A} (a : A) : sim Q (ret a).
Proof.
  intros s t (_ & Hs & _) _. cbn. auto using caches_only_refl.
Qed.

Lemma sim_raise {A} e : sim Q (@raise A e).
Proof.
  intros s t (_ & Hs & _) _. cbn. auto using caches_only_refl.
Qed.

Lemma sim_lift {A} (r : result A) : sim Q (lift r).
Proof.
  intros s t (_ & Hs & _) _. cbn. auto using caches_only_refl.
Qed.

Lemma sim_gets {A} (f : store -> A) :
  (forall s t, alike s t -> f s = f t) -> sim Q (gets f).
Proof.
  intros Hf s t (Ha & Hs & _) _. cbn. split; [f_equal; now apply Hf|].
  auto using caches_only_refl.
Qed.

Lemma sim_bind {A B} (m : M A) (k : A -> M B) :
  sim Q m -> (forall a, sim Q (k a)) -> sim Q (bind m k).
Proof.
  intros Hm Hk s t Hst Hq.
  destruct (Hm s t Hst Hq) as (Hres & Hcs & Hos).
  destruct (sim_next m s t Hm Hst Hq) as (Hnext & Hq' & _).
  unfold bind. destruct (m s) as [[a|e] s1], (m t) as [[a'|e'] t1];
    cbn [fst snd] in *; try discriminate.
  - injection Hres as <-.
    destruct (Hk a s1 t1 Hnext Hq') as (Hres' & Hc' & Ho').
    split; [exact Hres'|]. split; [|exact Ho'].
    eapply caches_only_trans; eassumption.
  - injection Hres as <-. auto.
Qed.

Lemma sim_fold_each {A B} (body : B -> A -> M B) (l : list A) :
  (forall acc x, In x l -> sim Q (body acc x)) ->
  forall acc, sim Q (fold_each l body acc).
Proof.
  induction l as [|x l IH]; intros Hbody acc; cbn [fold_each].
  - apply sim_ret.
  - apply sim_bind; [apply Hbody; now left|].
    intros acc'. apply IH. intros acc0 y Hy. apply Hbody. now right.
Qed.

Lemma sim_gen_loop {A St Y} (body : St -> A -> M (St * list Y)) (l : list A) :
  (forall st a, sim Q (body st a)) ->
  forall st, sim Q (gen_loop body st l).
Proof.
  intros Hbody. induction l as [|a l IH]; intros st s t Hst Hq; cbn [gen_loop].
  - destruct Hst as (_ & Hs & _). cbn. auto using caches_only_refl.
  - destruct (Hbody st a s t Hst Hq) as (Hres & Hcs & Hos).
    destruct (sim_next _ s t (Hbody st a) Hst Hq) as (Hnext & Hq' & _).
    destruct (body st a s) as [[[st1 ys]|e] s1],
             (body st a t) as [[[st1' ys']|e'] t1];
      cbn [fst snd] in *; try discriminate.
    + injection Hres as <- <-.
      destruct (IH st1 s1 t1 Hnext Hq') as (Hres' & Hc' & Ho').
      destruct (gen_loop body st1 l s1) as [[zs e] s2],
               (gen_loop body st1 l t1) as [[zs' e'] t2].
      cbn [fst snd] in *. injection Hres' as <- <-.
      split; [reflexivity|]. split; [|exact Ho'].
      eapply caches_only_trans; eassumption.
    + injection Hres as <-. auto.
Qed.

End Combinators.

(** *** The pieces of [thisCallsFunctions] *)

Lemma sim_print Q line : sim Q (print line).
Proof.
  intros s t (_ & Hs & _) _. cbn. split; [reflexivity|].
  split; [now constructor | exact Hs].
Qed.

(** Caching the document of a file keeps the cache in order. *)
Lemma cache_ok_set_xml s b e :
  cache_ok w s ->
  compound_element w (xmlFilename (file_at s b)) = Some e ->
  cache_ok w (with_file b (set_xml e) s).
Proof.
  intros Hc He a f e' Hlook Hxml. unfold with_file in Hlook.
  cbn [fileInfos] in Hlook.
  destruct (decide (b = a)) as [->|Hne].
  - rewrite list_lookup_alter_eq in Hlook.
    unfold file_at in He.
    destruct (fileInfos s !! a) as [f0|]; [|discriminate].
    injection Hlook as <-. cbn in *. congruence.
  - rewrite list_lookup_alter_ne in Hlook by exact Hne.
    exact (Hc a f e' Hlook Hxml).
Qed.

Lemma caches_only_set_xml s b e : caches_only s (with_file b (set_xml e) s).
Proof.
  constructor; try reflexivity; intros c;
    rewrite IndexParse.file_at_alter;
    (destruct (decide (b = c)) as [->|]; [|reflexivity]);
    unfold file_at; now destruct (fileInfos s !! c).
Qed.

Lemma cache_ok_stdout s line : cache_ok w s -> cache_ok w (with_stdout line s).
Proof. intros Hc. exact Hc. Qed.

(** What [xml] of a file returns is decided by the document on disk. *)
Lemma FileInfo_xml_result s b :
  cache_ok w s ->
  fst (FileInfo_xml w b s) =
  match compound_element w (xmlFilename (file_at s b)) with
  | Some e => Ok e
  | None =>
      match _xml (file_at s b) with
      | Some e => Ok e
      | None => Raise ParseError
      end
  end.
Proof.
  intros Hc. unfold FileInfo_xml, bind, gets.
  destruct (_xml (file_at s b)) as [e|] eqn:E.
  - now rewrite (cache_at s b e Hc E).
  - unfold compound_element.
    now destruct (compound_xml w (xmlFilename (file_at s b))).
Qed.

Lemma sim_FileInfo_xml Q b : sim Q (FileInfo_xml w b).
Proof.
  intros s t (Ha & Hs & Ht & _) _.
  split; [|split].
  - rewrite !FileInfo_xml_result by assumption.
    rewrite <- (alike_xmlFilename _ _ Ha).
    destruct (compound_element w (xmlFilename (file_at s b))) eqn:E;
      [reflexivity|].
    destruct (_xml (file_at s b)) as [e|] eqn:Es.
    { rewrite (cache_at s b e Hs Es) in E. discriminate. }
    destruct (_xml (file_at t b)) as [e|] eqn:Et; [|reflexivity].
    pose proof (cache_at t b e Ht Et) as E'.
    rewrite <- (alike_xmlFilename _ _ Ha) in E'. congruence.
  - unfold FileInfo_xml, bind, gets.
    destruct (_xml (file_at s b)); [apply caches_only_refl|].
    destruct (compound_xml w (xmlFilename (file_at s b))); cbn.
    + eapply caches_only_trans; [|apply caches_only_set_xml].
      now constructor.
    + apply caches_only_refl.
    + apply caches_only_set_xml.
  - unfold FileInfo_xml, bind, gets.
    destruct (_xml (file_at s b)) eqn:Es; [exact Hs|].
    destruct (compound_xml w (xmlFilename (file_at s b))) eqn:E; cbn.
    + apply cache_ok_set_xml; [now apply cache_ok_stdout|].
      unfold compound_element.
      change (file_at (with_stdout _ s) b) with (file_at s b).
      now rewrite E.
    + exact Hs.
    + apply cache_ok_set_xml; [exact Hs|].
      unfold compound_element. now rewrite E.
Qed.

Lemma sim_Info_references Q : sim Q (Info_references w).
Proof.
  intros s t (Ha & Hs & Ht & Hr) _.
  assert (Hr' : _references (info t) <> []).
  { now rewrite <- (alike_references _ _ Ha). }
  unfold Info_references, bind, gets.
  pose proof (alike_references _ _ Ha) as Heq.
  destruct (_references (info s)) as [|x l]; [contradiction|].
  destruct (_references (info t)) as [|x' l']; [contradiction|].
  cbn. split; [now rewrite Heq|]. auto using caches_only_refl.
Qed.

Lemma respects_has_files self : respects (has_files self).
Proof.
  intros s t (Ha & _) H. unfold has_files.
  now rewrite <- (alike_files _ _ Ha).
Qed.

Lemma bestFile_has_files self s :
  has_files self s ->
  bestFile self s = bestFile_loop (values (files (function_at s self))) s.
Proof.
  unfold has_files, bestFile, bind at 1, gets at 1.
  destruct (files (function_at s self)); [contradiction | reflexivity].
Qed.

Lemma sim_bestFile self : sim (has_files self) (bestFile self).
Proof.
  intros s t Hst Hq.
  pose proof (respects_has_files self s t Hst Hq) as Hq'.
  rewrite (bestFile_has_files self s Hq), (bestFile_has_files self t Hq').
  rewrite <- (alike_files _ _ (proj1 Hst) self).
  revert s t Hst Hq Hq'.
  assert (Hloop : forall l, sim (has_files self) (bestFile_loop l)).
  { intros l. apply sim_fold_each; [apply respects_has_files|].
    intros [b|] f _; [|apply sim_ret].
    apply sim_bind; [apply respects_has_files | apply sim_raise |].
    intros ext. destruct (String.eqb ext ".h"); apply sim_ret. }
  intros s t Hst Hq _. now apply Hloop.
Qed.

Lemma sim_bestFile_name self : sim (has_files self) (bestFile_name self).
Proof.
  unfold bestFile_name.
  apply sim_bind; [apply respects_has_files | apply sim_bestFile |].
  intros [b|]; [|apply sim_raise].
  apply sim_gets. intros s t Ha. apply (alike_file_name _ _ Ha).
Qed.

Lemma sim_xml_round self xml xmlFile :
  sim (has_files self) (xml_round self xml xmlFile).
Proof.
  pose proof (respects_has_files self) as HQ. unfold Invariants.xml_round.
  apply sim_bind; [exact HQ | apply sim_FileInfo_xml |]. intros doc.
  apply sim_bind; [exact HQ | |].
  { apply sim_gets. intros s t Ha. apply (alike_refid _ _ Ha). }
  intros rid. destruct (is_nil (ET.findall_id rid doc)); [|apply sim_ret].
  apply sim_bind; [exact HQ | apply sim_bestFile_name |]. intros n.
  apply sim_bind; [exact HQ | apply sim_print |]. intros _. apply sim_ret.
Qed.

Lemma FunctionInfo_xml_rounds self s :
  FunctionInfo_xml w self s =
  fold_each (values (files (function_at s self))) (xml_round self) [] s.
Proof. reflexivity. Qed.

Lemma sim_FunctionInfo_xml self : sim (fun _ => True) (FunctionInfo_xml w self).
Proof.
  intros s t Hst _. rewrite !FunctionInfo_xml_rounds.
  rewrite <- (alike_files _ _ (proj1 Hst) self).
  destruct (files (function_at s self)) as [|x l] eqn:E.
  - cbn. destruct Hst as (_ & Hs & _). auto using caches_only_refl.
  - apply (sim_fold_each (has_files self) (respects_has_files self)).
    + intros acc y _. apply sim_xml_round.
    + exact Hst.
    + unfold has_files. now rewrite E.
Qed.

Lemma sim_getDefinitionLocation self r c sp :
  sim (fun _ => True) (getDefinitionLocation w self r c sp).
Proof.
  unfold getDefinitionLocation.
  apply sim_bind; [apply respects_True | apply sim_FunctionInfo_xml |].
  intros xml. apply sim_bind; [apply respects_True | |].
  - apply sim_fold_each; [apply respects_True|]. intros acc x _.
    apply sim_bind; [apply respects_True | apply sim_lift |].
    intros f. apply sim_ret.
  - intros [f|]; [apply sim_ret | apply sim_raise].
Qed.

Lemma sim_FunctionInfo_filename self :
  sim (fun _ => True) (FunctionInfo_filename w self).
Proof.
  unfold FunctionInfo_filename.
  apply sim_bind; [apply respects_True | apply sim_getDefinitionLocation |].
  intros f. apply sim_ret.
Qed.

Lemma in_set_alike s t f ignore : alike s t -> in_set s f ignore = in_set t f ignore.
Proof.
  intros Ha. unfold in_set. induction ignore as [|b l IH]; [reflexivity|].
  cbn [existsb]. now rewrite IH, !(alike_refid _ _ Ha).
Qed.

Lemma sim_thisCalls_ref self ignore ref :
  sim (fun _ => True) (thisCalls_ref w self ignore ref).
Proof.
  pose proof respects_True as HQ. unfold thisCalls_ref.
  apply sim_bind; [exact HQ | apply sim_Info_references |]. intros refs.
  apply sim_bind; [exact HQ | apply sim_lift |]. intros rid.
  destruct (get refs rid) as [f|]; [|apply sim_ret].
  apply sim_bind; [exact HQ | |].
  { apply sim_gets. intros s t Ha. now apply in_set_alike. }
  intros [|]; [apply sim_ret|].
  apply sim_bind; [exact HQ | apply sim_FunctionInfo_filename |].
  intros filename.
  destruct (get (ET.attrib ref) "startline") as [[|c row]|]; apply sim_ret.
Qed.

(** The forward calls are the same on stores that are akin, and computing
    them changes caches and output only. *)
Lemma sim_thisCallsFunctions self ignore :
  sim (fun _ => True) (thisCallsFunctions w self ignore).
Proof.
  intros s t Hst _. unfold thisCallsFunctions.
  destruct (sim_FunctionInfo_xml self s t Hst I) as (Hres & Hcs & Hos).
  destruct (sim_next _ respects_True _ s t (sim_FunctionInfo_xml self) Hst I)
    as (Hnext & _ & _).
  destruct (FunctionInfo_xml w self s) as [[xml|e] s1],
           (FunctionInfo_xml w self t) as [[xml'|e'] t1];
    cbn [fst snd] in *; try discriminate.
  - injection Hres as <-.
    destruct (sim_gen_loop _ respects_True (thisCalls_ref w self)
                (flat_map (ET.findall "references") xml)
                (sim_thisCalls_ref self)
                match ignore with Some i => i | None => [self] end
                s1 t1 Hnext I) as (Hres' & Hc' & Ho').
    split; [exact Hres'|]. split; [|exact Ho'].
    eapply caches_only_trans; eassumption.
  - injection Hres as <-. auto.
Qed.

(** *** No callee twice *)

Lemma Info_references_read s :
  _references (info s) <> [] ->
  Info_references w s = (Ok (_references (info s)), s).
Proof.
  intros H. unfold Info_references, bind, gets.
  destruct (_references (info s)); [contradiction | reflexivity].
Qed.

(** A round of the loop yields nothing, or one call to a function of the
    registry that was not in [ignore], which is then added. *)
Lemma thisCalls_ref_returns self ignore ref s st ys s' :
  _references (info s) <> [] ->
  thisCalls_ref w self ignore ref s = (Ok (st, ys), s') ->
  (st = ignore /\ ys = []) \/
  (exists f loc rid,
     get (_references (info s)) rid = Some f /\
     in_set s f ignore = false /\
     st = f :: ignore /\ ys = [mkCallLocation f loc]).
Proof.
  intros Hrefs H. unfold thisCalls_ref in H.
  apply bind_returns in H as (refs & t & Hr & H).
  rewrite (Info_references_read s Hrefs) in Hr. injection Hr as <- <-.
  apply bind_returns in H as (rid & t & Hrid & H).
  unfold lift in Hrid. injection Hrid as _ <-.
  destruct (get (_references (info s)) rid) as [f|] eqn:Ef.
  - apply bind_returns in H as (seen & t & Hseen & H).
    unfold gets in Hseen. injection Hseen as <- <-.
    destruct (in_set s f ignore) eqn:Eseen.
    + unfold ret in H. injection H as <- <- _. now left.
    + apply bind_returns in H as (filename & t & _ & H). right.
      destruct (get (ET.attrib ref) "startline") as [[|c row]|];
        unfold ret in H; injection H as <- <- _; eauto 8.
  - unfold ret in H. injection H as <- <- _. now left.
Qed.

Lemma in_set_cons s a f ignore :
  in_set s a (f :: ignore) = false ->
  refid (function_at s f) <> refid (function_at s a) /\
  in_set s a ignore = false.
Proof.
  unfold in_set. cbn [existsb]. intros H.
  apply orb_false_iff in H as [H1 H2]. split; [|exact H2].
  now apply String.eqb_neq.
Qed.

Lemma gen_loop_distinct self (l : list ET.Element) :
  forall ignore s ys e s',
    akin s s ->
    gen_loop (thisCalls_ref w self) ignore l s = ((ys, e), s') ->
    List.NoDup (map (fun c => refid (function_at s (cl_fn c))) ys) /\
    (forall c, In c ys ->
       in_set s (cl_fn c) ignore = false /\
       exists rid, get (_references (info s)) rid = Some (cl_fn c)).
Proof.
  induction l as [|ref l IH]; intros ignore s ys e s' Hs H; cbn [gen_loop] in H.
  - injection H as <- _ _. split; [constructor | intros c []].
  - pose proof (sim_thisCalls_ref self ignore ref s s Hs I) as (_ & Hc & Ho).
    destruct (thisCalls_ref w self ignore ref s) as [[[st ys1]|e1] s1] eqn:E.
    + cbn [snd] in Hc, Ho.
      destruct (gen_loop (thisCalls_ref w self) st l s1) as [[ys2 e2] s2] eqn:E2.
      injection H as <- _ _.
      assert (Hs1 : akin s1 s1).
      { eapply akin_left, akin_sym, akin_step; eassumption. }
      destruct (IH st s1 ys2 e2 s2 Hs1 E2) as (Hnd & Hin).
      assert (Hfn : forall a, function_at s1 a = function_at s a).
      { intros a. now apply caches_only_function_at. }
      assert (Hset : forall a ig, in_set s1 a ig = in_set s a ig).
      { intros a ig. symmetry. apply in_set_alike.
        now apply caches_only_alike. }
      assert (Hinfo : info s1 = info s) by apply (same_info _ _ Hc).
      assert (Hnd' : List.NoDup
                (map (fun c => refid (function_at s (cl_fn c))) ys2)).
      { erewrite map_ext; [exact Hnd|]. intros c. cbn. now rewrite Hfn. }
      assert (Hin' : forall c, In c ys2 ->
                in_set s (cl_fn c) st = false /\
                exists rid, get (_references (info s)) rid = Some (cl_fn c)).
      { intros c Hc2. destruct (Hin c Hc2) as (H1 & rid & H2).
        rewrite Hset in H1. rewrite Hinfo in H2. eauto. }
      apply thisCalls_ref_returns in E as [[-> ->]|(f & loc & rid & Hf & Hnew & -> & ->)];
        [| |now destruct Hs as (_ & _ & _ & Hr)].
      * cbn [app]. split; [exact Hnd' | exact Hin'].
      * cbn [app map cl_fn]. split.
        -- constructor; [|exact Hnd'].
           intros Hmem. apply in_map_iff in Hmem as (c & Heq & Hc2).
           destruct (Hin' c Hc2) as (Hset' & _).
           apply in_set_cons in Hset' as [Hne _]. congruence.
        -- intros c [<-|Hc2].
           ++ cbn [cl_fn]. eauto.
           ++ destruct (Hin' c Hc2) as (Hset' & Hreg).
              apply in_set_cons in Hset' as [_ Hrest]. auto.
    + injection H as <- _ _. split; [constructor | intros c []].
Qed.

(** What [thisCallsFunctions] yields when it is given no [ignore] *)
Lemma thisCallsFunctions_yields self s calls e s' :
  cache_ok w s -> _references (info s) <> [] ->
  thisCallsFunctions w self None s = ((calls, e), s') ->
  caches_only s s' /\ cache_ok w s' /\
  List.NoDup (map (fun c => refid (function_at s (cl_fn c))) calls) /\
  (forall c, In c calls ->
     refid (function_at s (cl_fn c)) <> refid (function_at s self) /\
     exists rid, get (_references (info s)) rid = Some (cl_fn c)).
Proof.
  intros Hcache Hrefs H.
  assert (Hs : akin s s).
  { split; [apply alike_refl|]. auto. }
  pose proof (sim_thisCallsFunctions self None s s Hs I) as (_ & Hc & Ho).
  rewrite H in Hc, Ho. cbn [snd] in Hc, Ho.
  split; [exact Hc|]. split; [exact Ho|].
  unfold thisCallsFunctions in H.
  pose proof (sim_FunctionInfo_xml self s s Hs I) as (_ & Hc1 & Ho1).
  destruct (FunctionInfo_xml w self s) as [[xml|e1] s1].
  - cbn [snd] in Hc1, Ho1.
    assert (Hs1 : akin s1 s1).
    { eapply akin_left, akin_sym, akin_step; eassumption. }
    destruct (gen_loop_distinct self _ _ _ _ _ _ Hs1 H) as (Hnd & Hin).
    assert (Hfn : forall a, function_at s1 a = function_at s a).
    { intros a. now apply caches_only_function_at. }
    split.
    + erewrite map_ext; [exact Hnd|]. intros c. cbn. now rewrite Hfn.
    + intros c Hin'. destruct (Hin c Hin') as (Hset & rid & Hreg).
      rewrite (same_info _ _ Hc1) in Hreg. split; [|eauto].
      unfold in_set in Hset. cbn [existsb] in Hset.
      rewrite orb_false_r in Hset. apply String.eqb_neq in Hset.
      rewrite !Hfn in Hset. congruence.
  - injection H as <- _ _. split; [constructor | intros c []].
Qed.

End Sim.

(** C5.  In a registry that has been read, one traversal of
    [thisCallsFunctions] without an [ignore] set yields calls to functions
    whose reference IDs are pairwise different, so no function object is
    yielded twice, and none of them has the reference ID of [self]: the
    function itself is not yielded.  This holds as well for a traversal cut
    short by an exception, for the calls yielded before it. *)
Theorem thisCallsFunctions_distinct (w : World) (s : store) (self : addr) :
  cache_ok w s -> _references (info s) <> [] ->
  let calls := fst (fst (thisCallsFunctions w self None s)) in
  let s' := snd (thisCallsFunctions w self None s) in
  List.NoDup (map (fun c => refid (function_at s' (cl_fn c))) calls) /\
  List.NoDup (map cl_fn calls) /\
  (forall c, In c calls ->
     refid (function_at s' (cl_fn c)) <> refid (function_at s' self) /\
     cl_fn c <> self).
Proof.
  intros Hcache Hrefs.
  destruct (thisCallsFunctions w self None s) as [[calls e] s'] eqn:E.
  cbn [fst snd].
  destruct (thisCallsFunctions_yields w self s calls e s' Hcache Hrefs E)
    as (Hc & _ & Hnd & Hin).
  assert (Hfn : forall a, function_at s' a = function_at s a).
  { intros a. now apply caches_only_function_at. }
  assert (Hnd' : List.NoDup
            (map (fun c => refid (function_at s' (cl_fn c))) calls)).
  { erewrite map_ext; [exact Hnd|]. intros c. cbn. now rewrite Hfn. }
  split; [exact Hnd'|]. split.
  - rewrite <- (map_map cl_fn (fun a => refid (function_at s' a))) in Hnd'.
    now apply List.NoDup_map_inv in Hnd'.
  - intros c Hc'. destruct (Hin c Hc') as (Hne & _). rewrite !Hfn.
    split; [exact Hne | congruence].
Qed.

Lemma thisCallsFunctions_distinct_witness :
  cache_ok DoxygenExamples.main_helper
    (DoxygenExamples.parsed DoxygenExamples.main_helper) /\
  _references (info (DoxygenExamples.parsed DoxygenExamples.main_helper)) <> [] /\
  fst (fst (thisCallsFunctions DoxygenExamples.main_helper 0 None
              (DoxygenExamples.parsed DoxygenExamples.main_helper)))
    = [mkCallLocation 1 "main.c:4"] /\
  List.NoDup (map cl_fn
    (fst (fst (thisCallsFunctions DoxygenExamples.main_helper 0 None
                 (DoxygenExamples.parsed DoxygenExamples.main_helper))))).
Proof.
  assert (Hcache : cache_ok DoxygenExamples.main_helper
                     (DoxygenExamples.parsed DoxygenExamples.main_helper)).
  { apply (IndexParse.reparse_registry_ok _ init);
      [apply IndexParse.init_cache_ok | reflexivity]. }
  assert (Hrefs : _references
            (info (DoxygenExamples.parsed DoxygenExamples.main_helper)) <> [])
    by discriminate.
  split; [exact Hcache|]. split; [exact Hrefs|]. split; [reflexivity|].
  exact (proj1 (proj2 (thisCallsFunctions_distinct _ _ 0 Hcache Hrefs))).
Defined.

End ForwardCalls.

(** ** callGraph.py: parents, [root] and [roots] *)

Module CallGraphSpec.

Import PyDict Doxygen DoxygenFacts.

Section Graph.
Variable w : World.

Lemma calculate_done s :
  _functionBackreferencesCalculated (info s) = true ->
  calculateFunctionBackreferences w false s = (Ok tt, s).
Proof.
  intros H. unfold calculateFunctionBackreferences, bind, gets.
  now rewrite H.
Qed.

Lemma calculate_sets_flag force s s1 :
  calculateFunctionBackreferences w force s = (Ok tt, s1) ->
  _functionBackreferencesCalculated (info s1) = true.
Proof.
  unfold calculateFunctionBackreferences. intros H.
  apply bind_returns in H as (done & t & Hg & H).
  unfold gets in Hg. injection Hg as <- <-.
  destruct (force || negb (_functionBackreferencesCalculated (info s))) eqn:E.
  - apply bind_returns in H as (fs & t1 & _ & H).
    apply bind_returns in H as (u & t2 & _ & H).
    unfold modify in H. injection H as <-. reflexivity.
  - unfold ret in H. injection H as <-.
    apply orb_false_iff in E as [_ E]. now apply negb_false_iff in E.
Qed.

(** The back references as [parents] sees them: computed first, if they
    have not been. *)
Lemma parents_after s s1 n :
  calculateFunctionBackreferences w false s = (Ok tt, s1) ->
  parents w n s =
  (Ok (map node_of (_parentReferences (function_at s1 (fn n)))), s1).
Proof.
  intros H. unfold parents, functionsCallThis, bind at 1 2.
  rewrite H. reflexivity.
Qed.

Lemma parents_raises s s1 n e :
  calculateFunctionBackreferences w false s = (Raise e, s1) ->
  parents w n s = (Raise e, s1).
Proof.
  intros H. unfold parents, functionsCallThis, bind at 1 2.
  rewrite H. reflexivity.
Qed.

Lemma is_nil_map {X Y} (f : X -> Y) l : is_nil (map f l) = is_nil l.
Proof. now destruct l. Qed.

Lemma isRoot_after s s1 n :
  calculateFunctionBackreferences w false s = (Ok tt, s1) ->
  isRoot w n s = (Ok (is_nil (_parentReferences (function_at s1 (fn n)))), s1).
Proof.
  intros H. unfold isRoot, bind. rewrite (parents_after _ _ _ H).
  unfold ret. now rewrite is_nil_map.
Qed.

Lemma isRoot_raises s s1 n e :
  calculateFunctionBackreferences w false s = (Raise e, s1) ->
  isRoot w n s = (Raise e, s1).
Proof.
  intros H. unfold isRoot, bind. now rewrite (parents_raises _ _ _ _ H).
Qed.

(** [root] goes up one call: to the first parent, or nowhere. *)
Lemma root_after s s1 n :
  calculateFunctionBackreferences w false s = (Ok tt, s1) ->
  root w n s =
  (Ok match _parentReferences (function_at s1 (fn n)) with
      | call :: _ => node_of call
      | [] => n
      end, s1).
Proof.
  intros H. unfold root, bind. rewrite (parents_after _ _ _ H).
  unfold ret. now destruct (_parentReferences (function_at s1 (fn n))).
Qed.

(** *** Termination of [roots] *)

Section Settled.
Variable s : store.
Hypothesis Hdone : _functionBackreferencesCalculated (info s) = true.
Hypothesis Hacyclic : acyclic s.

Local Abbreviation N := (length (functionInfos s)).

Lemma addresses_bounded (path : list addr) :
  List.NoDup path -> (forall x, In x path -> x < N) -> length path <= N.
Proof.
  intros Hnd Hvalid.
  assert (Hincl : incl path (seq 0 N)).
  { intros x Hx. apply in_seq. specialize (Hvalid x Hx). lia. }
  pose proof (List.NoDup_incl_length Hnd Hincl) as Hlen.
  now rewrite length_seq in Hlen.
Qed.

Lemma no_parents_beyond a :
  N <= a -> _parentReferences (function_at s a) = [].
Proof. intros H. now rewrite function_at_beyond. Qed.

(** The nodes [roots] yields, given the calls already followed: [path]
    holds the functions between the node and where the search began, all
    distinct, so there is fuel left for every one that is still unseen. *)
Lemma roots_settled (fuel : nat) : forall (n : CallGraphNode) (path : list addr),
  List.NoDup path ->
  (forall x, In x path -> x < N) ->
  (forall x, In x path -> ancestor s (fn n) x) ->
  N + 1 <= fuel + length path ->
  exists ys,
    roots w fuel n s = Some ((ys, None), s) /\
    Forall (fun r => isRoot w r s = (Ok true, s)) ys.
Proof.
  induction fuel as [|fuel IH]; intros n path Hnd Hvalid Hdesc Hfuel.
  - pose proof (addresses_bounded path Hnd Hvalid). simpl in Hfuel. lia.
  - cbn [roots].
    rewrite (isRoot_after s s n (calculate_done s Hdone)).
    destruct (_parentReferences (function_at s (fn n))) as [|call calls] eqn:Hps.
    + cbn [is_nil]. exists [n]. split; [reflexivity|].
      constructor; [|constructor].
      rewrite (isRoot_after s s n (calculate_done s Hdone)), Hps. reflexivity.
    + cbn [is_nil]. rewrite (parents_after s s n (calculate_done s Hdone)), Hps.
      assert (Hn : fn n < N).
      { destruct (Nat.lt_ge_cases (fn n) N) as [Hlt|Hge]; [exact Hlt|].
        rewrite (no_parents_beyond _ Hge) in Hps. discriminate. }
      assert (Hfresh : ~ In (fn n) path).
      { intros Hin. exact (Hacyclic (fn n) (Hdesc _ Hin)). }
      assert (Hsub : forall p, In p (call :: calls) ->
                exists ys, roots w fuel (node_of p) s = Some ((ys, None), s) /\
                  Forall (fun r => isRoot w r s = (Ok true, s)) ys).
      { intros p Hp.
        assert (Hparent : parent_of s (cl_fn p) (fn n)).
        { exists p. rewrite Hps. split; [exact Hp | reflexivity]. }
        apply (IH (node_of p) (fn n :: path)).
        - now constructor.
        - intros x [<-|Hx]; auto.
        - intros x [<-|Hx]; cbn [node_of fn].
          + now apply ancestor_parent.
          + eapply ancestor_step; [exact Hparent | now apply Hdesc].
        - cbn [length]. lia. }
      clear Hps. revert Hsub. generalize (call :: calls). intros ps.
      induction ps as [|p ps IHps]; intros Hsub; cbn [map yield_from_each].
      * exists []. split; [reflexivity | constructor].
      * destruct (Hsub p (or_introl eq_refl)) as (ys & -> & Hys).
        destruct IHps as (ys' & -> & Hys').
        { intros q Hq. apply Hsub. now right. }
        exists (ys ++ ys'). split; [reflexivity|].
        apply Forall_app. now split.
Qed.

End Settled.

(** C4.  [roots] comes to its end when the call graph has no cycle: with
    fuel for one more call than there are functions it does not run out.
    The back references are computed first if they have not been; if that
    raises, the traversal ends with the exception.  Otherwise it yields
    nodes without parents only, each one a node for which [isRoot] is true,
    and when the starting node is itself without parents it yields that
    node and nothing else.  (The recursion limit of the interpreter is not
    part of the model.) *)
Theorem roots_terminates (s : store) (n : CallGraphNode) :
  acyclic (snd (calculateFunctionBackreferences w false s)) ->
  match calculateFunctionBackreferences w false s with
  | (Raise e, s1) =>
      forall fuel, roots w (S fuel) n s = Some (([], Some e), s1)
  | (Ok _, s1) =>
      exists ys,
        roots w (S (length (functionInfos s1))) n s = Some ((ys, None), s1) /\
        Forall (fun r => isRoot w r s1 = (Ok true, s1)) ys /\
        (isRoot w n s = (Ok true, s1) ->
         forall fuel, roots w (S fuel) n s = Some (([n], None), s1))
  end.
Proof.
  destruct (calculateFunctionBackreferences w false s) as [[[]|e] s1] eqn:Hcalc;
    cbn [snd]; intros Hacyclic.
  - pose proof (calculate_sets_flag _ _ _ Hcalc) as Hdone.
    destruct (roots_settled s1 Hdone Hacyclic (S (length (functionInfos s1)))
                n [] (List.NoDup_nil _)) as (ys & Hroots & Hys).
    { intros x []. } { intros x []. } { cbn [length]. lia. }
    assert (Hsame : forall fuel, roots w (S fuel) n s = roots w (S fuel) n s1).
    { intros fuel. cbn [roots].
      now rewrite (isRoot_after _ _ n Hcalc),
        (isRoot_after _ _ n (calculate_done s1 Hdone)). }
    exists ys. split; [now rewrite Hsame|]. split; [exact Hys|].
    intros Hroot fuel. cbn [roots]. now rewrite Hroot.
  - intros fuel. cbn [roots]. now rewrite (isRoot_raises _ _ n _ Hcalc).
Qed.

End Graph.

(** The registry of [main] and [helper]: its call graph has no cycle. *)
Lemma main_helper_acyclic :
  acyclic (DoxygenExamples.linked DoxygenExamples.main_helper).
Proof.
  assert (Hparent : forall p c,
            parent_of (DoxygenExamples.linked DoxygenExamples.main_helper) p c ->
            p = 0 /\ c = 1).
  { intros p c (call & Hin & <-).
    destruct c as [|[|c]]; vm_compute in Hin.
    - destruct Hin.
    - destruct Hin as [<-|[]]. now split.
    - destruct c; destruct Hin. }
  intros a Hanc.
  assert (Hlt : forall p c,
            ancestor (DoxygenExamples.linked DoxygenExamples.main_helper) p c ->
            p < c).
  { induction 1 as [p c H|p m c H _ IH].
    - apply Hparent in H as [-> ->]. lia.
    - apply Hparent in H as [-> ->]. lia. }
  apply Hlt in Hanc. lia.
Qed.

Lemma roots_terminates_witness :
  acyclic (snd (calculateFunctionBackreferences DoxygenExamples.main_helper
                  false (DoxygenExamples.parsed DoxygenExamples.main_helper))) /\
  match calculateFunctionBackreferences DoxygenExamples.main_helper false
          (DoxygenExamples.parsed DoxygenExamples.main_helper) with
  | (Raise e, s1) =>
      forall fuel,
        roots DoxygenExamples.main_helper (S fuel) (CallGraph 1)
          (DoxygenExamples.parsed DoxygenExamples.main_helper)
        = Some (([], Some e), s1)
  | (Ok _, s1) =>
      exists ys,
        roots DoxygenExamples.main_helper (S (length (functionInfos s1)))
          (CallGraph 1) (DoxygenExamples.parsed DoxygenExamples.main_helper)
        = Some ((ys, None), s1) /\
        Forall (fun r => isRoot DoxygenExamples.main_helper r s1 = (Ok true, s1))
          ys /\
        (isRoot DoxygenExamples.main_helper (CallGraph 1)
           (DoxygenExamples.parsed DoxygenExamples.main_helper) = (Ok true, s1) ->
         forall fuel,
           roots DoxygenExamples.main_helper (S fuel) (CallGraph 1)
             (DoxygenExamples.parsed DoxygenExamples.main_helper)
           = Some (([CallGraph 1], None), s1))
  end.
Proof.
  split; [exact main_helper_acyclic|].
  exact (roots_terminates DoxygenExamples.main_helper
           (DoxygenExamples.parsed DoxygenExamples.main_helper)
           (CallGraph 1) main_helper_acyclic).
Defined.

(** C2 on the code: [main] calls [mid] and [mid] calls [leaf].  [root] of
    [leaf] is the node of [mid], one call up; that node is not a root
    ([isRoot] is false for it), and the root of the chain, which [roots]
    does find, is [main]. *)
Theorem root_stops_at_first_parent :
  let s := DoxygenExamples.linked DoxygenExamples.chain in
  let mid := mkNode 1 (Some (mkCallLocation 1 "chain.c:6")) in
  root DoxygenExamples.chain (CallGraph 2) s = (Ok mid, s) /\
  isRoot DoxygenExamples.chain mid s = (Ok false, s) /\
  roots DoxygenExamples.chain 4 (CallGraph 2) s
    = Some (([mkNode 0 (Some (mkCallLocation 0 "chain.c:2"))], None), s).
Proof. vm_compute. repeat split. Qed.

End CallGraphSpec.

(** ** doxygenInfo.py: the back references *)

Module BackReferences.

Import PyDict Doxygen DoxygenFacts Invariants ForwardCalls.

Lemma grown_refl s : grown s s.
Proof. constructor; auto using alike_refl. Qed.

Lemma grown_trans s t u : grown s t -> grown t u -> grown s u.
Proof.
  intros [Ha Hl Hp] [Ha' Hl' Hp']. constructor.
  - eapply alike_trans; eassumption.
  - congruence.
  - auto.
Qed.

Lemma caches_only_grown s t : caches_only s t -> grown s t.
Proof.
  intros Hc. constructor.
  - now apply caches_only_alike.
  - now rewrite (same_functionInfos _ _ Hc).
  - intros a back. now rewrite (caches_only_function_at s t a Hc).
Qed.

Lemma record_grown f call s :
  grown s (with_function (cl_fn call)
             (append_parent (mkCallLocation f (cl_location call))) s).
Proof.
  constructor.
  - constructor; try reflexivity; intros a; try reflexivity;
      rewrite IndexParse.function_at_alter;
      (destruct (decide (cl_fn call = a)) as [Heq|]; [|reflexivity]);
      unfold function_at; now destruct (functionInfos s !! a).
  - unfold with_function. cbn. apply length_alter.
  - intros a back Hin. rewrite IndexParse.function_at_alter.
    destruct (decide (cl_fn call = a)) as [Heq|]; [|exact Hin].
    unfold function_at in Hin. destruct (functionInfos s !! a); [|destruct Hin].
    cbn. apply in_app_iff. now left.
Qed.

Lemma record_recorded f call s :
  cl_fn call < length (functionInfos s) ->
  In (mkCallLocation f (cl_location call))
     (_parentReferences
        (function_at
           (with_function (cl_fn call)
              (append_parent (mkCallLocation f (cl_location call))) s)
           (cl_fn call))).
Proof.
  intros Hlt. rewrite function_at_with_function_eq by exact Hlt.
  cbn. apply in_app_iff. right. now left.
Qed.

(** The inner loop returns, and every call it was given is recorded. *)
Lemma for_each_record f (calls : list CallLocation) : forall s,
  exists u,
    for_each calls (record f) s = (Ok tt, u) /\
    grown s u /\ fileInfos u = fileInfos s /\
    forall call,
      In call calls -> cl_fn call < length (functionInfos s) ->
      In (mkCallLocation f (cl_location call))
         (_parentReferences (function_at u (cl_fn call))).
Proof.
  induction calls as [|call calls IH]; intros s.
  - exists s. split; [reflexivity|]. split; [apply grown_refl|].
    split; [reflexivity | intros call []].
  - set (s1 := with_function (cl_fn call)
                 (append_parent (mkCallLocation f (cl_location call))) s).
    destruct (IH s1) as (u & Hrun & Hgrown & Hfiles & Hrec).
    exists u. split; [exact Hrun|].
    pose proof (record_grown f call s) as Hstep. fold s1 in Hstep.
    split; [eapply grown_trans; eassumption|].
    split; [exact Hfiles|].
    intros c [<-|Hin] Hlt.
    + apply (grown_parents _ _ Hgrown). now apply record_recorded.
    + apply Hrec; [exact Hin|]. now rewrite (grown_length _ _ Hstep).
Qed.

Lemma cache_ok_files w s u :
  fileInfos u = fileInfos s -> cache_ok w s -> cache_ok w u.
Proof. intros Hf Hc a x e. rewrite Hf. apply Hc. Qed.

Section Calculate.
Variables (w : World) (s : store).
Hypothesis Hok : registry_ok w s.
Hypothesis Hrefs : _references (info s) <> [].

Local Abbreviation calls_of := (Invariants.calls_of w s).

Lemma grown_akin u : grown s u -> cache_ok w u -> akin w s u.
Proof.
  intros Hg Hc. destruct Hok as (Hcs & _).
  split; [apply (grown_alike _ _ Hg)|]. auto.
Qed.

(** The forward calls do not change while back references are added. *)
Lemma calls_of_grown u f :
  grown s u -> cache_ok w u ->
  fst (fst (thisCallsFunctions w f None u)) = calls_of f.
Proof.
  intros Hg Hc. unfold Invariants.calls_of.
  destruct (sim_thisCallsFunctions w f None s u (grown_akin u Hg Hc) I)
    as (Hres & _). now rewrite Hres.
Qed.

(** One round of the outer loop: the calls of [f] are recorded. *)
Lemma round_records f u1 u2 :
  grown s u1 -> cache_ok w u1 ->
  consume (thisCallsFunctions w f None) (record f) u1 = (Ok tt, u2) ->
  grown u1 u2 /\ cache_ok w u2 /\
  forall call,
    In call (calls_of f) ->
    In (mkCallLocation f (cl_location call))
       (_parentReferences (function_at u2 (cl_fn call))).
Proof.
  intros Hg Hc Hrun.
  pose proof (calls_of_grown u1 f Hg Hc) as Hcalls.
  assert (Hrefs1 : _references (info u1) <> []).
  { now rewrite <- (alike_references _ _ (grown_alike _ _ Hg)). }
  unfold consume in Hrun.
  destruct (thisCallsFunctions w f None u1) as [[calls e] v] eqn:E.
  cbn [fst] in Hcalls. subst calls.
  destruct (thisCallsFunctions_yields w f u1 _ e v Hc Hrefs1 E)
    as (Hcv & Hov & _ & Hin).
  destruct (for_each_record f (calls_of f) v) as (u & Hu & Hgu & Hfu & Hrec).
  rewrite Hu in Hrun. destruct e as [e|]; [discriminate|].
  injection Hrun as <-.
  split; [|split].
  - eapply grown_trans; [apply caches_only_grown; exact Hcv | exact Hgu].
  - now apply (cache_ok_files w v).
  - intros call Hcall. apply Hrec; [exact Hcall|].
    destruct (Hin call Hcall) as (_ & rid & Hrid).
    rewrite <- (alike_references _ _ (grown_alike _ _ Hg)) in Hrid.
    destruct Hok as (_ & Hro & _). destruct (Hro rid _ Hrid) as [Hlt _].
    rewrite (same_functionInfos _ _ Hcv), (grown_length _ _ Hg). exact Hlt.
Qed.

(** The outer loop: after it, the calls of every function it went through
    are recorded. *)
Lemma rounds_record (fs : list addr) u :
  for_each fs (fun f => consume (thisCallsFunctions w f None) (record f)) s
    = (Ok tt, u) ->
  grown s u /\ cache_ok w u /\
  forall f call,
    In f fs -> In call (calls_of f) ->
    In (mkCallLocation f (cl_location call))
       (_parentReferences (function_at u (cl_fn call))).
Proof.
  intros Hrun.
  pose (Inv := fun (done : list addr) (t : store) =>
          grown s t /\ cache_ok w t /\
          forall f call,
            In f done -> In call (calls_of f) ->
            In (mkCallLocation f (cl_location call))
               (_parentReferences (function_at t (cl_fn call)))).
  change (Inv ([] ++ fs) u).
  eapply (IndexParse.for_each_returns Inv); [| |exact Hrun].
  - intros done f u1 u2 (Hg & Hc & Hdone) Hround.
    destruct (round_records f u1 u2 Hg Hc Hround) as (Hg2 & Hc2 & Hnew).
    split; [eapply grown_trans; eassumption|]. split; [exact Hc2|].
    intros f' call Hf' Hcall. apply in_app_iff in Hf' as [Hf'|[<-|[]]].
    + apply (grown_parents _ _ Hg2). now apply Hdone.
    + now apply Hnew.
  - split; [apply grown_refl|]. split; [apply Hok|]. intros f call [].
Qed.

End Calculate.

(** C1 for the functions that the loop visits.  Take a registry that is
    in order and let [calculateFunctionBackreferences] run and return.  For
    every function [F] that the registry has under its name (a value of
    [functions]) and
    every call that [thisCallsFunctions] of [F] yields, to a function [G]:
    the back references of [G] hold a call location whose function is [F],
    with the location of the call; the [parents] of the node of [G] hold a
    node whose function is [F]; and the [children] of the node of [F] hold
    a node whose function is [G]. *)
Theorem back_references_complete
    (w : World) (s s' : store) (force : bool) (F : addr) :
  registry_ok w s ->
  force = true \/ _functionBackreferencesCalculated (info s) = false ->
  calculateFunctionBackreferences w force s = (Ok tt, s') ->
  In F (values (_functions (info s))) ->
  forall call,
    In call (fst (fst (thisCallsFunctions w F None s'))) ->
    (exists back,
       In back (_parentReferences (function_at s' (cl_fn call))) /\
       cl_fn back = F /\ cl_location back = cl_location call) /\
    (exists ps p,
       parents w (CallGraph (cl_fn call)) s' = (Ok ps, s') /\
       In p ps /\ fn p = F) /\
    (exists child,
       In child (fst (fst (children w (CallGraph F) s'))) /\
       fn child = cl_fn call).
Proof.
  intros Hok Hrun Hcalc HF call Hcall.
  pose proof (CallGraphSpec.calculate_sets_flag w _ _ _ Hcalc) as Hflag.
  assert (Hfuns : _functions (info s) <> []).
  { destruct (_functions (info s)); [destruct HF | discriminate]. }
  assert (Hrefs : _references (info s) <> []).
  { unfold values in HF. apply in_map_iff in HF as ([n a] & <- & Hin).
    destruct Hok as (_ & _ & Hfo). specialize (Hfo n a Hin).
    destruct (_references (info s)); [discriminate Hfo | discriminate]. }
  unfold calculateFunctionBackreferences in Hcalc.
  apply bind_returns in Hcalc as (done & t & Hdone & Hcalc).
  unfold gets in Hdone. injection Hdone as <- <-.
  assert (Hcond : force || negb (_functionBackreferencesCalculated (info s)) = true).
  { destruct Hrun as [->| ->]; [reflexivity | apply orb_true_r]. }
  rewrite Hcond in Hcalc.
  apply bind_returns in Hcalc as (fs & t & Hfs & Hcalc).
  assert (Hread : Info_functions w s = (Ok (_functions (info s)), s)).
  { unfold Info_functions, bind, gets.
    destruct (_functions (info s)); [contradiction | reflexivity]. }
  rewrite Hread in Hfs. injection Hfs as <- <-.
  apply bind_returns in Hcalc as ([] & u & Hloop & Hcalc).
  unfold modify in Hcalc. injection Hcalc as <-.
  destruct (rounds_record w s Hok Hrefs _ u Hloop) as (Hg & Hc & Hrec).
  set (s' := with_info (set_calculated true) u) in *.
  assert (Hg' : grown s s').
  { eapply grown_trans; [exact Hg|]. constructor; auto using alike_refl.
    now constructor. }
  assert (Hc' : cache_ok w s') by exact Hc.
  rewrite (calls_of_grown w s Hok Hrefs s' F Hg' Hc') in Hcall.
  pose proof (Hrec F call HF Hcall) as Hback.
  change (function_at u (cl_fn call)) with (function_at s' (cl_fn call))
    in Hback.
  split; [|split].
  - eexists. split; [exact Hback|]. split; reflexivity.
  - eexists _, (node_of (mkCallLocation F (cl_location call))).
    split; [|split].
    + apply CallGraphSpec.parents_after.
      now apply CallGraphSpec.calculate_done.
    + cbn [fn CallGraph]. now apply in_map.
    + reflexivity.
  - exists (node_of call). split; [|reflexivity].
    unfold children. cbn [fn CallGraph].
    fold (calls_of w s F) in Hcall.
    rewrite <- (calls_of_grown w s Hok Hrefs s' F Hg' Hc') in Hcall.
    destruct (thisCallsFunctions w F None s') as [[calls e] v].
    cbn [fst] in *. now apply in_map.
Qed.

(** The registry of [main] and [helper]: [main] calls [helper].  After the
    back references are computed, the parents of [helper] are exactly one
    node, which refers to [main]; [main] is a root and [helper] is not. *)
Lemma back_references_complete_witness :
  let w := DoxygenExamples.main_helper in
  let s := DoxygenExamples.parsed w in
  let s' := DoxygenExamples.linked w in
  registry_ok w s /\
  (false = true \/ _functionBackreferencesCalculated (info s) = false) /\
  calculateFunctionBackreferences w false s = (Ok tt, s') /\
  In 0 (values (_functions (info s))) /\
  In (mkCallLocation 1 "main.c:4") (fst (fst (thisCallsFunctions w 0 None s'))) /\
  (exists back,
     In back (_parentReferences (function_at s' 1)) /\
     cl_fn back = 0 /\ cl_location back = "main.c:4") /\
  parents w (CallGraph 1) s'
    = (Ok [mkNode 0 (Some (mkCallLocation 0 "main.c:4"))], s') /\
  isRoot w (CallGraph 0) s' = (Ok true, s') /\
  isRoot w (CallGraph 1) s' = (Ok false, s').
Proof.
  cbv zeta.
  assert (Hok : registry_ok DoxygenExamples.main_helper
                  (DoxygenExamples.parsed DoxygenExamples.main_helper)).
  { apply (IndexParse.reparse_registry_ok _ init);
      [apply IndexParse.init_cache_ok | reflexivity]. }
  assert (Hrun : false = true \/
            _functionBackreferencesCalculated
              (info (DoxygenExamples.parsed DoxygenExamples.main_helper))
            = false) by (right; reflexivity).
  assert (Hcalc : calculateFunctionBackreferences DoxygenExamples.main_helper
                    false (DoxygenExamples.parsed DoxygenExamples.main_helper)
                  = (Ok tt, DoxygenExamples.linked DoxygenExamples.main_helper))
    by (vm_compute; reflexivity).
  assert (HF : In 0 (values (_functions
                 (info (DoxygenExamples.parsed DoxygenExamples.main_helper)))))
    by (left; reflexivity).
  assert (Hcall : In (mkCallLocation 1 "main.c:4")
            (fst (fst (thisCallsFunctions DoxygenExamples.main_helper 0 None
                         (DoxygenExamples.linked DoxygenExamples.main_helper)))))
    by (left; reflexivity).
  split; [exact Hok|]. split; [exact Hrun|]. split; [exact Hcalc|].
  split; [exact HF|]. split; [exact Hcall|].
  split.
  - exact (proj1 (back_references_complete _ _ _ _ _ Hok Hrun Hcalc HF _ Hcall)).
  - repeat split; vm_compute; reflexivity.
Defined.

(** C1 on the code: a function that shares its name with a later one is
    left out.  The registry has two functions named [f] and a function [g];
    the first [f] is registered under its reference ID and calls [g], as
    [thisCallsFunctions] yields and as its children show.  The loop goes
    over [functions], which is keyed by name, so it meets the second [f]
    only, and not all functions, as the docstring has it; after the back
    references are computed [g] has no parent. *)
Lemma shadowed_caller_is_no_parent :
  let w := DoxygenExamples.overloads in
  let s' := DoxygenExamples.linked w in
  calculateFunctionBackreferences w false (DoxygenExamples.parsed w)
    = (Ok tt, s') /\
  get (_references (info s')) "o_8cpp_1a" = Some 0 /\
  _functions (info s') = [(Some "f", 1); (Some "g", 2)] /\
  fst (thisCallsFunctions w 0 None s')
    = ([mkCallLocation 2 "o.cpp:2"], None) /\
  fst (children w (CallGraph 0) s')
    = ([mkNode 2 (Some (mkCallLocation 2 "o.cpp:2"))], None) /\
  _parentReferences (function_at s' 2) = [] /\
  parents w (CallGraph 2) s' = (Ok [], s').
Proof. cbv zeta. repeat split; vm_compute; reflexivity. Qed.

End BackReferences.
(** ** More on [str]: lines and separators *)

Module PyStrLaws.

Import PyStr PyStrFacts.

Lemma split_not_nil c s : split c s <> [].
Proof.
  destruct s as [|a s]; cbn [split]; [discriminate|].
  destruct (Ascii.eqb a c); [discriminate|].
  destruct (split c s); discriminate.
Qed.

Lemma join_cons sep x y l :
  join sep (x :: y :: l) = x +:+ sep +:+ join sep (y :: l).
Proof. reflexivity. Qed.

Lemma join_String sep a h t :
  join sep (String a h :: t) = String a (join sep (h :: t)).
Proof.
  destruct t as [|y t]; [reflexivity|].
  now rewrite !join_cons, append_cons.
Qed.

(** Joining the pieces of a split with the separator gives the text back. *)
Lemma join_split c s : join (String c EmptyString) (split c s) = s.
Proof.
  induction s as [|a s IH]; [reflexivity|]. cbn [split].
  destruct (Ascii.eqb a c) eqn:E.
  - apply Ascii.eqb_eq in E. subst a.
    destruct (split c s) as [|y l] eqn:Es; [now apply split_not_nil in Es|].
    rewrite join_cons, append_nil, append_cons, append_nil. now rewrite IH.
  - destruct (split c s) as [|h t] eqn:Es; [now apply split_not_nil in Es|].
    rewrite join_String. now rewrite IH.
Qed.

Lemma contains_append c s t :
  contains c (s +:+ t) = contains c s || contains c t.
Proof.
  induction s as [|a s IH]; [now rewrite append_nil|].
  rewrite append_cons. cbn [contains]. rewrite IH. apply orb_assoc.
Qed.

(** A piece of a split holds no separator. *)
Lemma split_pieces c s : forall piece,
  In piece (split c s) -> contains c piece = false.
Proof.
  induction s as [|a s IH]; cbn [split]; intros piece.
  - intros [<-|[]]. reflexivity.
  - destruct (Ascii.eqb a c) eqn:E.
    + intros [<-|Hin]; [reflexivity | now apply IH].
    + destruct (split c s) as [|h t] eqn:Es; [now apply split_not_nil in Es|].
      intros [<-|Hin].
      * cbn [contains]. rewrite E. apply IH. now left.
      * apply IH. now right.
Qed.

Lemma split_free c s : contains c s = false -> split c s = [s].
Proof.
  induction s as [|a s IH]; [reflexivity|]. cbn [contains split].
  intros H. apply orb_false_iff in H as [Ha Hs]. rewrite Ha.
  now rewrite (IH Hs).
Qed.

Lemma split_append c s t :
  contains c s = false ->
  split c (s +:+ String c t) = s :: split c t.
Proof.
  induction s as [|a s IH]; intros H.
  - rewrite append_nil. cbn [split]. now rewrite Ascii.eqb_refl.
  - cbn [contains] in H. apply orb_false_iff in H as [Ha Hs].
    rewrite append_cons. cbn [split]. rewrite Ha. now rewrite (IH Hs).
Qed.

(** Splitting the join of lines without separators gives the lines back. *)
Lemma split_join c lines :
  lines <> [] ->
  (forall line, In line lines -> contains c line = false) ->
  split c (join (String c EmptyString) lines) = lines.
Proof.
  induction lines as [|x l IH]; [contradiction|]. intros _ Hfree.
  destruct l as [|y l].
  - cbn. apply split_free, Hfree. now left.
  - rewrite join_cons, append_cons, append_nil.
    rewrite split_append by (apply Hfree; now left).
    f_equal. apply IH; [discriminate|]. intros line Hin. apply Hfree. now right.
Qed.

Lemma lstrip_idem s : lstrip (lstrip s) = lstrip s.
Proof.
  induction s as [|a s IH]; [reflexivity|]. cbn [lstrip].
  destruct (isspace a) eqn:E; [exact IH|]. cbn [lstrip]. now rewrite E.
Qed.

Lemma contains_lstrip c s : contains c s = false -> contains c (lstrip s) = false.
Proof.
  induction s as [|a s IH]; [reflexivity|]. cbn [contains lstrip].
  intros H. apply orb_false_iff in H as [Ha Hs].
  destruct (isspace a); [now apply IH|]. cbn [contains]. now rewrite Ha, Hs.
Qed.

Lemma strip_idem s : strip (strip s) = strip s.
Proof.
  unfold strip.
  rewrite (rstrip_lstrip (rstrip s)) by apply rstrip_idem.
  apply lstrip_idem.
Qed.

Lemma contains_rstrip c s : contains c s = false -> contains c (rstrip s) = false.
Proof.
  induction s as [|a s IH]; [reflexivity|]. cbn [contains].
  intros H. apply orb_false_iff in H as [Ha Hs]. rewrite rstrip_cons.
  specialize (IH Hs). destruct (rstrip s) as [|b r].
  - destruct (isspace a); [reflexivity|]. cbn [contains]. now rewrite Ha.
  - cbn [contains] in *. now rewrite Ha, IH.
Qed.

Lemma contains_strip c s : contains c s = false -> contains c (strip s) = false.
Proof. intros H. unfold strip. now apply contains_lstrip, contains_rstrip. Qed.

Lemma rstrip_nonspace a t :
  isspace a = false -> rstrip (String a t) = String a (rstrip t).
Proof. intros Ha. rewrite rstrip_cons, Ha. now destruct (rstrip t). Qed.

Lemma rstrip_append s u :
  rstrip u <> EmptyString -> rstrip (s +:+ u) = s +:+ rstrip u.
Proof.
  intros Hu. induction s as [|x s IH]; [now rewrite !append_nil|].
  rewrite !append_cons, rstrip_cons, IH.
  destruct (s +:+ rstrip u) as [|b r] eqn:E; [|reflexivity].
  destruct s; [rewrite append_nil in E; contradiction|].
  rewrite append_cons in E. discriminate E.
Qed.

Lemma strip_space a s : isspace a = true -> strip (String a s) = strip s.
Proof.
  intros Ha. unfold strip. rewrite rstrip_cons.
  destruct (rstrip s) as [|b r]; cbn [lstrip]; now rewrite Ha.
Qed.

Lemma head_append s a t t' : head (s +:+ String a t) = head (s +:+ String a t').
Proof. destruct s; [now rewrite !append_nil | now rewrite !append_cons]. Qed.

Lemma lstrip_head s c :
  head s = Some c -> isspace c = false -> lstrip s = s.
Proof. destruct s as [|a s]; [discriminate|]. intros [= ->] H. cbn. now rewrite H. Qed.

Lemma lstrip_nonspace s c rest :
  lstrip s = String c rest -> isspace c = false.
Proof.
  induction s as [|a s IH]; [discriminate|]. cbn [lstrip].
  destruct (isspace a) eqn:E; [exact IH|]. now intros [= <- _].
Qed.

Lemma contains_partition c x s : forall h t,
  partition c s = Some (h, t) -> contains x s = false ->
  contains x h = false /\ contains x t = false.
Proof.
  induction s as [|a s IH]; intros h t; cbn [partition]; [discriminate|].
  cbn [contains]. destruct (Ascii.eqb a c).
  - intros [= <- <-] H. apply orb_false_iff in H as [_ H]. now split.
  - destruct (partition c s) as [[h' t']|]; [|discriminate].
    intros [= <- <-] H. apply orb_false_iff in H as [Ha Hs].
    destruct (IH h' t' eq_refl Hs) as [H1 H2]. cbn [contains].
    now rewrite Ha, H1.
Qed.

(** A piece of a split holds only characters of the text. *)
Lemma split_pieces_free c d s :
  contains d s = false ->
  forall piece, In piece (split c s) -> contains d piece = false.
Proof.
  induction s as [|a s IH]; cbn [split contains]; intros H piece.
  - intros [<-|[]]. reflexivity.
  - apply orb_false_iff in H as [Ha Hs]. destruct (Ascii.eqb a c).
    + intros [<-|Hin]; [reflexivity | now apply IH].
    + destruct (split c s) as [|h t] eqn:Es; [now apply split_not_nil in Es|].
      intros [<-|Hin].
      * cbn [contains]. rewrite Ha. apply IH; [exact Hs | now left].
      * apply IH; [exact Hs | now right].
Qed.

Lemma contains_join c sep lines :
  contains c sep = false ->
  (forall line, In line lines -> contains c line = false) ->
  contains c (join sep lines) = false.
Proof.
  intros Hsep. induction lines as [|x l IH]; intros Hfree; [reflexivity|].
  destruct l as [|y l]; [apply Hfree; now left|].
  rewrite join_cons, !contains_append, Hsep, (Hfree x) by now left.
  apply IH. intros line Hin. apply Hfree. now right.
Qed.

(** Reading with universal newlines leaves no carriage return, and leaves
    a text without carriage return as it is. *)
Lemma universal_newlines_no_cr s : contains cr (universal_newlines s) = false.
Proof.
  induction s as [|c s IH]; [reflexivity|]. cbn [universal_newlines].
  destruct (Ascii.eqb c cr) eqn:E.
  - destruct s as [|c' s']; [reflexivity|].
    destruct (Ascii.eqb c' nl); [exact IH|].
    cbn [contains]. now rewrite IH.
  - cbn [contains]. now rewrite E, IH.
Qed.

Lemma universal_newlines_free s :
  contains cr s = false -> universal_newlines s = s.
Proof.
  induction s as [|c s IH]; [reflexivity|]. cbn [contains universal_newlines].
  intros H. apply orb_false_iff in H as [Hc Hs]. rewrite Hc.
  now rewrite (IH Hs).
Qed.

End PyStrLaws.
(** ** gitignore.py: adding and removing rules, saving and reading again *)

Module GitignoreLaws.

Import Gitignore GitignoreSpec PyStrLaws.

Lemma has_line_false rule lines :
  has_line rule lines = false <-> ~ In rule lines.
Proof.
  rewrite <- has_line_In. destruct (has_line rule lines).
  - split; [discriminate | intros H; now contradiction H].
  - split; [intros _ H; discriminate | reflexivity].
Qed.

Lemma addRule_present rule g : In rule (_dataLines g) -> addRule rule g = g.
Proof.
  intros H. unfold addRule. apply has_line_In in H. now rewrite H.
Qed.

Lemma addRule_absent rule g :
  ~ In rule (_dataLines g) ->
  addRule rule g =
  {| currentFile := currentFile g;
     _rules := _rules g ++ [globToRegex rule true];
     _dataLines := _dataLines g ++ [rule];
     hasChanged := true |}.
Proof.
  intros H. unfold addRule. apply has_line_false in H. now rewrite H.
Qed.

Lemma addRule_distinct rule g :
  List.NoDup (_dataLines g) -> List.NoDup (_dataLines (addRule rule g)).
Proof.
  intros Hnd. destruct (in_dec string_dec rule (_dataLines g)) as [Hin|Hnot].
  - now rewrite addRule_present.
  - rewrite addRule_absent by exact Hnot. cbn [_dataLines].
    apply List.NoDup_app; [exact Hnd | repeat constructor; intros [] |].
    intros x Hx [<-|[]]. contradiction.
Qed.

Lemma addRule_currentFile rule g : currentFile (addRule rule g) = currentFile g.
Proof. unfold addRule. now destruct (has_line _ _). Qed.

(** Where [enumerate] finds the rule: at its first place. *)
Lemma index_of_first rule before after :
  ~ In rule before ->
  index_of rule (before ++ rule :: after) = Some (length before).
Proof.
  induction before as [|x before IH]; intros Hnot; cbn [app index_of length].
  - now rewrite String.eqb_refl.
  - destruct (String.eqb x rule) eqn:E.
    + apply String.eqb_eq in E. exfalso. apply Hnot. now left.
    + rewrite IH; [reflexivity|]. intros Hin. apply Hnot. now right.
Qed.

Lemma first_place (rule : string) lines :
  In rule lines ->
  exists before after, lines = before ++ rule :: after /\ ~ In rule before.
Proof.
  induction lines as [|x lines IH]; [intros []|].
  destruct (string_dec x rule) as [->|Hne].
  - intros _. exists [], lines. split; [reflexivity | intros []].
  - intros [Heq|Hin]; [contradiction|].
    destruct (IH Hin) as (before & after & -> & Hnot).
    exists (x :: before), after. split; [reflexivity|].
    intros [Heq|Hin']; [contradiction | now apply Hnot].
Qed.

(** Lines that [load] stores from the lines of a file *)
Lemma load_lines_rule_lines data : forall g,
  (forall raw, In raw data ->
     PyStr.contains PyStr.nl raw = false /\
     PyStr.contains PyStr.cr raw = false) ->
  Forall rule_line (_dataLines g) ->
  Forall rule_line (_dataLines (load_lines data g)).
Proof.
  induction data as [|raw rest IH]; cbn [load_lines]; intros g Hfree Hg;
    [exact Hg|].
  apply IH; [intros r Hr; apply Hfree; now right|].
  destruct (keep_line (PyStr.lstrip raw)) eqn:Ek; [|exact Hg].
  destruct (in_dec string_dec (PyStr.lstrip raw) (_dataLines g)) as [Hin|Hnot].
  - now rewrite addRule_present.
  - rewrite addRule_absent by exact Hnot. cbn [_dataLines].
    apply Forall_app. split; [exact Hg|]. constructor; [|constructor].
    destruct (Hfree raw) as [Hnl Hcr]; [now left|].
    split; [apply lstrip_idem|]. split; [exact Ek|].
    split; now apply contains_lstrip.
Qed.

(** The lines of a text as it is read hold no line break. *)
Lemma read_lines_free text raw :
  In raw (PyStr.split PyStr.nl (PyStr.universal_newlines text)) ->
  PyStr.contains PyStr.nl raw = false /\ PyStr.contains PyStr.cr raw = false.
Proof.
  intros Hin. split.
  - now apply (split_pieces PyStr.nl (PyStr.universal_newlines text)).
  - apply (split_pieces_free PyStr.nl PyStr.cr
             (PyStr.universal_newlines text)); [|exact Hin].
    apply universal_newlines_no_cr.
Qed.

(** The text that [save] writes for rule lines is read as it was written. *)
Lemma saved_text_read lines :
  Forall rule_line lines ->
  PyStr.universal_newlines (PyStr.join PyStr.NL lines)
  = PyStr.join PyStr.NL lines.
Proof.
  intros Hrl. apply universal_newlines_free, contains_join; [reflexivity|].
  intros line Hin. rewrite Forall_forall in Hrl.
  now destruct (Hrl line Hin) as (_ & _ & _ & Hcr).
Qed.

Lemma load_lines_distinct data : forall g,
  List.NoDup (_dataLines g) -> List.NoDup (_dataLines (load_lines data g)).
Proof.
  induction data as [|raw rest IH]; cbn [load_lines]; intros g Hg; [exact Hg|].
  apply IH. destruct (keep_line (PyStr.lstrip raw)); [|exact Hg].
  now apply addRule_distinct.
Qed.

(** What is there stays in front; what is new comes behind, once. *)
Lemma load_lines_behind data : forall g,
  exists added,
    _dataLines (load_lines data g) = _dataLines g ++ added /\
    List.NoDup added /\
    (forall line, In line added ->
       ~ In line (_dataLines g) /\
       exists raw, In raw data /\ keep_line (PyStr.lstrip raw) = true /\
                   line = PyStr.lstrip raw).
Proof.
  induction data as [|raw rest IH]; cbn [load_lines]; intros g.
  - exists []. split; [now rewrite app_nil_r|].
    split; [constructor | intros line []].
  - assert (Hskip : exists added,
              _dataLines (load_lines rest g) = _dataLines g ++ added /\
              List.NoDup added /\
              (forall line, In line added ->
                 ~ In line (_dataLines g) /\
                 exists r, In r (raw :: rest) /\
                           keep_line (PyStr.lstrip r) = true /\
                           line = PyStr.lstrip r)).
    { destruct (IH g) as (added & Heq & Hnd & Hadded). exists added.
      split; [exact Heq|]. split; [exact Hnd|]. intros line Hl.
      destruct (Hadded line Hl) as (Hnew & r & Hr & Hk & ->).
      split; [exact Hnew|]. exists r. split; [now right | auto]. }
    destruct (keep_line (PyStr.lstrip raw)) eqn:Ek; [|exact Hskip].
    destruct (in_dec string_dec (PyStr.lstrip raw) (_dataLines g))
      as [Hin|Hnot].
    + now rewrite addRule_present by exact Hin.
    + destruct (IH (addRule (PyStr.lstrip raw) g))
        as (added & Heq & Hnd & Hadded).
      assert (Hold : forall line, In line added ->
                ~ In line (_dataLines g ++ [PyStr.lstrip raw])).
      { intros line Hl. destruct (Hadded line Hl) as (Hnew & _).
        now rewrite addRule_absent in Hnew by exact Hnot. }
      exists (PyStr.lstrip raw :: added).
      split; [|split].
      * rewrite Heq, addRule_absent by exact Hnot. cbn [_dataLines].
        now rewrite <- app_assoc.
      * constructor; [|exact Hnd]. intros Hl. apply (Hold _ Hl).
        apply in_app_iff. right. now left.
      * intros line [<-|Hl].
        -- split; [exact Hnot|]. exists raw. split; [now left | auto].
        -- destruct (Hadded line Hl) as (_ & r & Hr & Hk & ->).
           split; [intros Ho; apply (Hold _ Hl), in_app_iff; now left|].
           exists r. split; [now right | auto].
Qed.

(** Rule lines that are not there yet are stored as they are, in order. *)
Lemma load_lines_appends lines : forall g,
  Forall rule_line lines -> List.NoDup lines ->
  (forall line, In line lines -> ~ In line (_dataLines g)) ->
  _dataLines (load_lines lines g) = _dataLines g ++ lines /\
  (in_step g -> in_step (load_lines lines g)) /\
  currentFile (load_lines lines g) = currentFile g.
Proof.
  induction lines as [|x lines IH]; cbn [load_lines]; intros g Hrl Hnd Hnew.
  - split; [now rewrite app_nil_r | auto].
  - inversion Hrl as [|? ? (Hl & Hk & _) Hrl']; subst.
    inversion Hnd as [|? ? Hx Hnd']; subst.
    rewrite Hl, Hk.
    assert (Hnot : ~ In x (_dataLines g)) by (apply Hnew; now left).
    destruct (IH (addRule x g) Hrl' Hnd') as (Heq & Hstep & Hcur).
    { intros line Hin. rewrite addRule_lines. intros [Hold| ->].
      - apply (Hnew line); [now right | exact Hold].
      - contradiction. }
    split; [|split].
    + rewrite Heq, addRule_absent by exact Hnot. cbn [_dataLines].
      now rewrite <- app_assoc.
    + intros Hg. now apply Hstep, addRule_in_step.
    + now rewrite Hcur, addRule_currentFile.
Qed.

(** X1.  [addRule] "will not add duplicates": if the stored lines are
    pairwise different they stay so, the rule is among them afterwards, and
    adding it a second time changes nothing. *)
Theorem addRule_no_duplicates (rule : string) (g : Gitignore) :
  List.NoDup (_dataLines g) ->
  List.NoDup (_dataLines (addRule rule g)) /\
  In rule (_dataLines (addRule rule g)) /\
  addRule rule (addRule rule g) = addRule rule g.
Proof.
  intros Hnd.
  assert (Hin : In rule (_dataLines (addRule rule g))).
  { apply addRule_lines. now right. }
  split; [now apply addRule_distinct|]. split; [exact Hin|].
  now apply addRule_present.
Qed.

Lemma addRule_no_duplicates_witness :
  List.NoDup (_dataLines GitignoreExamples.two_rules) /\
  _dataLines (addRule "*.log" GitignoreExamples.two_rules)
    = ["*.o"; "*.pyc"; "*.log"] /\
  List.NoDup (_dataLines (addRule "*.log" GitignoreExamples.two_rules)).
Proof.
  assert (H : List.NoDup (_dataLines GitignoreExamples.two_rules)).
  { cbn. repeat constructor; cbn; intros H;
      repeat (destruct H as [H|H]; [discriminate H|]); exact H. }
  split; [exact H|]. split; [reflexivity|].
  exact (proj1 (addRule_no_duplicates "*.log" _ H)).
Defined.

(** X2.  Removing a rule that was just added, and was not there before,
    gives the rules and the lines back as they were; the object counts as
    changed.  The rules have to be in step with the lines, as they are in
    every object made by [load] and [addRule]. *)
Theorem removeRule_undoes_addRule (rule : string) (g : Gitignore) :
  in_step g -> ~ In rule (_dataLines g) ->
  removeRule rule (addRule rule g) = (Ok tt, set_hasChanged true g).
Proof.
  intros Hstep Hnot. rewrite addRule_absent by exact Hnot.
  unfold removeRule. cbn [_dataLines _rules currentFile].
  rewrite index_of_first by exact Hnot.
  assert (Hlen : length (_rules g) = length (_dataLines g)).
  { rewrite Hstep. apply length_map. }
  rewrite length_app. cbn [length].
  replace (length (_dataLines g) <? length (_rules g) + 1) with true
    by (symmetry; apply Nat.ltb_lt; lia).
  rewrite <- Hlen at 1. rewrite !delete_middle, !app_nil_r. reflexivity.
Qed.

Lemma removeRule_undoes_addRule_witness :
  in_step GitignoreExamples.two_rules /\
  ~ In "*.log" (_dataLines GitignoreExamples.two_rules) /\
  removeRule "*.log" (addRule "*.log" GitignoreExamples.two_rules)
    = (Ok tt, set_hasChanged true GitignoreExamples.two_rules).
Proof.
  assert (Hstep : in_step GitignoreExamples.two_rules) by reflexivity.
  assert (Hnot : ~ In "*.log" (_dataLines GitignoreExamples.two_rules)).
  { cbn. intros [H|[H|[]]]; discriminate H. }
  split; [exact Hstep|]. split; [exact Hnot|].
  exact (removeRule_undoes_addRule "*.log" _ Hstep Hnot).
Defined.

(** X3.  [removeRule] of a rule that is stored returns without raising,
    takes out the first line equal to the rule together with the compiled
    rule at the same place, keeps the other lines in their order, and sets
    [hasChanged].  When the lines are pairwise different, as [addRule]
    keeps them, the rule is gone afterwards. *)
Theorem removeRule_removes (rule : string) (g : Gitignore) :
  in_step g -> In rule (_dataLines g) ->
  exists before after g',
    _dataLines g = before ++ rule :: after /\ ~ In rule before /\
    removeRule rule g = (Ok tt, g') /\
    _dataLines g' = before ++ after /\
    in_step g' /\ hasChanged g' = true /\ currentFile g' = currentFile g /\
    (List.NoDup (_dataLines g) -> ~ In rule (_dataLines g')).
Proof.
  intros Hstep Hin.
  destruct (first_place rule _ Hin) as (before & after & Hlines & Hnot).
  exists before, after.
  assert (Hrules : _rules g =
            map (fun l => globToRegex l true) before
            ++ globToRegex rule true :: map (fun l => globToRegex l true) after).
  { rewrite Hstep, Hlines, map_app. reflexivity. }
  eexists. split; [exact Hlines|]. split; [exact Hnot|].
  split; [|split; [|split; [|split; [|split]]]].
  - unfold removeRule. rewrite Hlines at 1. rewrite index_of_first by exact Hnot.
    replace (length before <? length (_rules g)) with true.
    + f_equal.
    + symmetry. apply Nat.ltb_lt. rewrite Hrules, length_app, length_map.
      cbn [length]. lia.
  - cbn [_dataLines]. rewrite Hlines. apply delete_middle.
  - unfold in_step. cbn [_rules _dataLines]. rewrite Hrules, Hlines.
    rewrite delete_middle.
    rewrite <- (length_map (fun l => globToRegex l true) before) at 1.
    rewrite delete_middle. now rewrite map_app.
  - reflexivity.
  - reflexivity.
  - cbn [_dataLines]. rewrite Hlines, delete_middle. intros Hnd Habs.
    apply List.NoDup_remove_2 in Hnd. contradiction.
Qed.

Lemma removeRule_removes_witness :
  in_step GitignoreExamples.two_rules /\
  In "*.o" (_dataLines GitignoreExamples.two_rules) /\
  removeRule "*.o" GitignoreExamples.two_rules
    = (Ok tt, {| currentFile := Some ".gitignore";
                 _rules := [globToRegex "*.pyc" true];
                 _dataLines := ["*.pyc"]; hasChanged := true |}) /\
  exists before after g',
    _dataLines GitignoreExamples.two_rules = before ++ "*.o" :: after /\
    removeRule "*.o" GitignoreExamples.two_rules = (Ok tt, g') /\
    _dataLines g' = before ++ after.
Proof.
  assert (Hstep : in_step GitignoreExamples.two_rules) by reflexivity.
  assert (Hin : In "*.o" (_dataLines GitignoreExamples.two_rules))
    by (left; reflexivity).
  split; [exact Hstep|]. split; [exact Hin|]. split; [reflexivity|].
  destruct (removeRule_removes "*.o" _ Hstep Hin)
    as (before & after & g' & H1 & _ & H2 & H3 & _).
  exists before, after, g'. auto.
Defined.

(** *** Reading a file *)

(** The object [load] starts from: what is there, or nothing *)
Lemma load_file fs p text addToExisting errorOnFileNotFound g :
  fs p = Some (File text) ->
  load (Some p) addToExisting errorOnFileNotFound fs g =
  (Ok tt,
   set_hasChanged
     (negb (is_nil (if addToExisting then _rules g else [])))
     (load_lines (PyStr.split PyStr.nl (PyStr.universal_newlines text))
        (set_currentFile (Some p)
           (if addToExisting then g
            else {| currentFile := currentFile g; _rules := [];
                    _dataLines := []; hasChanged := hasChanged g |})))).
Proof.
  intros Hfile. unfold load.
  assert (Hdir : is_dir fs p = false) by (unfold is_dir; now rewrite Hfile).
  rewrite Hdir. unfold exists_, read_text. rewrite Hfile. cbn [negb].
  now destruct addToExisting.
Qed.

Lemma load_nothing fs p g :
  fs p = None ->
  load (Some p) false false fs g =
  (Ok tt, {| currentFile := Some p; _rules := []; _dataLines := [];
             hasChanged := hasChanged g |}).
Proof.
  intros Hnone. unfold load.
  assert (Hdir : is_dir fs p = false) by (unfold is_dir; now rewrite Hnone).
  rewrite Hdir. unfold exists_. rewrite Hnone. reflexivity.
Qed.

(** The lines of a saved file, read again *)
Lemma load_lines_join lines g :
  Forall rule_line lines -> List.NoDup lines ->
  (forall line, In line lines -> ~ In line (_dataLines g)) ->
  _dataLines (load_lines (PyStr.split PyStr.nl (PyStr.join PyStr.NL lines)) g)
    = _dataLines g ++ lines /\
  (in_step g ->
   in_step (load_lines (PyStr.split PyStr.nl (PyStr.join PyStr.NL lines)) g)) /\
  currentFile (load_lines (PyStr.split PyStr.nl (PyStr.join PyStr.NL lines)) g)
    = currentFile g.
Proof.
  intros Hrl Hnd Hnew. destruct lines as [|x lines].
  - cbn. now rewrite app_nil_r.
  - unfold PyStr.NL. rewrite split_join.
    + now apply load_lines_appends.
    + discriminate.
    + intros line Hin. rewrite Forall_forall in Hrl.
      now destruct (Hrl line Hin) as (_ & _ & Hnl & _).
Qed.

Lemma Gitignore_eq g g' :
  currentFile g = currentFile g' -> _rules g = _rules g' ->
  _dataLines g = _dataLines g' -> hasChanged g = hasChanged g' -> g = g'.
Proof. destruct g, g'. cbn. now intros -> -> -> ->. Qed.

(** X4.  Saving and reading again gives the lines back.  When the stored
    lines are rule lines (no blanks in front, not empty, no comment, and
    neither a line feed nor a carriage return inside, as a carriage return
    would be read back as a line break) and pairwise different, and [save] has a reason to
    write (the object has changed, or the file is another one), the file
    then holds the lines joined by line breaks, and a [load] of it into any
    object stores the same lines in the same order, with their rules. *)
Theorem save_then_load (fs : filesystem) (p : string) (g g0 : Gitignore) :
  Forall rule_line (_dataLines g) -> List.NoDup (_dataLines g) ->
  is_dir fs p = false ->
  hasChanged g = true \/ currentFile g <> Some p ->
  exists fs' g',
    save (Some p) fs g
      = (Ok tt, set_hasChanged false (set_currentFile (Some p) g), fs') /\
    text_at fs' p = Some (__repr__ g) /\
    (forall q, q <> p -> fs' q = fs q) /\
    load (Some p) false true fs' g0 = (Ok tt, g') /\
    _dataLines g' = _dataLines g /\ in_step g' /\
    hasChanged g' = false /\ currentFile g' = Some p.
Proof.
  intros Hrl Hnd Hdir Hwhy.
  set (fs' := fun q => if String.eqb q p
                       then Some (File (PyStr.join PyStr.NL (_dataLines g)))
                       else fs q).
  assert (Hcond : hasChanged g || negb (path_eqb (currentFile g) p) = true).
  { destruct Hwhy as [->|Hne]; [reflexivity|]. apply orb_true_iff. right.
    unfold path_eqb. destruct (currentFile g) as [c|]; [|reflexivity].
    apply negb_true_iff, String.eqb_neq. congruence. }
  assert (Hsave : save (Some p) fs g
            = (Ok tt, set_hasChanged false (set_currentFile (Some p) g), fs')).
  { unfold save. rewrite Hdir, Hcond. unfold write_text, is_dir in *.
    cbn [set_currentFile _dataLines].
    destruct (fs p) as [[|t]|]; [discriminate | reflexivity | reflexivity]. }
  assert (Hfile : fs' p = Some (File (PyStr.join PyStr.NL (_dataLines g)))).
  { unfold fs'. now rewrite String.eqb_refl. }
  pose proof (load_file fs' p _ false true g0 Hfile) as Hload.
  cbn [negb is_nil] in Hload. rewrite (saved_text_read _ Hrl) in Hload.
  destruct (load_lines_join (_dataLines g)
              (set_currentFile (Some p)
                 {| currentFile := currentFile g0; _rules := [];
                    _dataLines := []; hasChanged := hasChanged g0 |})
              Hrl Hnd) as (Hlines & Hstep & Hcur); [intros line _ []|].
  exists fs'. eexists. split; [exact Hsave|]. split.
  { unfold text_at. now rewrite Hfile. }
  split.
  { intros q Hq. unfold fs'.
    now replace (String.eqb q p) with false
      by (symmetry; now apply String.eqb_neq). }
  split; [exact Hload|]. cbn [set_hasChanged _dataLines hasChanged currentFile].
  split; [exact Hlines|]. split; [|split; [reflexivity | exact Hcur]].
  unfold in_step. cbn [_rules _dataLines]. now apply Hstep.
Qed.

Lemma save_then_load_witness :
  Forall rule_line (_dataLines GitignoreExamples.two_rules) /\
  List.NoDup (_dataLines GitignoreExamples.two_rules) /\
  exists fs' g',
    save (Some "copy") GitignoreExamples.disk0 GitignoreExamples.two_rules
      = (Ok tt,
         set_hasChanged false
           (set_currentFile (Some "copy") GitignoreExamples.two_rules), fs') /\
    text_at fs' "copy" = Some ("*.o" +:+ PyStr.NL +:+ "*.pyc") /\
    load (Some "copy") false true fs' init = (Ok tt, g') /\
    _dataLines g' = ["*.o"; "*.pyc"].
Proof.
  assert (Hrl : Forall rule_line (_dataLines GitignoreExamples.two_rules)).
  { cbn. repeat constructor. }
  assert (Hnd : List.NoDup (_dataLines GitignoreExamples.two_rules)).
  { cbn. repeat constructor; cbn; intros H;
      repeat (destruct H as [H|H]; [discriminate H|]); exact H. }
  split; [exact Hrl|]. split; [exact Hnd|].
  destruct (save_then_load GitignoreExamples.disk0 "copy"
              GitignoreExamples.two_rules init Hrl Hnd)
    as (fs' & g' & H1 & H2 & _ & H3 & H4 & _);
    [reflexivity | right; discriminate |].
  exists fs', g'. auto.
Defined.

(** X5.  What [load] stores from a file, when it does not add to what is
    there: rule lines only (no blanks in front, not empty, no comment, no
    line break inside), each of them once, and the compiled rules in step
    with them.  So the lines of an object that was read from a file
    survive [save] and [load] (X4). *)
Theorem load_stores_rule_lines
    (fs : filesystem) (path text : string) (g0 : Gitignore) :
  fs path = Some (File text) ->
  exists g,
    load (Some path) false true fs g0 = (Ok tt, g) /\
    Forall rule_line (_dataLines g) /\ List.NoDup (_dataLines g) /\
    in_step g.
Proof.
  intros Hfile. eexists. split; [eapply load_file; exact Hfile|].
  cbn [set_hasChanged _dataLines]. split; [|split].
  - apply load_lines_rule_lines; [|constructor].
    intros raw Hraw. now apply (read_lines_free text).
  - apply load_lines_distinct. constructor.
  - unfold in_step. cbn [_rules _dataLines set_hasChanged].
    now apply load_lines_in_step.
Qed.

Lemma load_stores_rule_lines_witness :
  GitignoreExamples.disk0 ".gitignore"
    = Some (File GitignoreExamples.commented) /\
  exists g,
    load (Some ".gitignore") false true GitignoreExamples.disk0
      GitignoreExamples.two_rules = (Ok tt, g) /\
    Forall rule_line (_dataLines g) /\ List.NoDup (_dataLines g).
Proof.
  assert (H : GitignoreExamples.disk0 ".gitignore"
              = Some (File GitignoreExamples.commented)) by reflexivity.
  split; [exact H|].
  destruct (load_stores_rule_lines _ _ _ GitignoreExamples.two_rules H)
    as (g & H1 & H2 & H3 & _).
  exists g. auto.
Defined.

(** X6.  [load] with [addToExisting]: the lines that were stored stay in
    front, in their order; behind them come the kept lines of the file (as
    it is read) that were not stored yet, each once; the rules stay in step.  [hasChanged] is
    set when the object had rules before the call, and cleared when it had
    none, whatever the file holds. *)
Theorem load_adds_to_existing
    (fs : filesystem) (path text : string) (g : Gitignore) :
  fs path = Some (File text) ->
  exists g' added,
    load (Some path) true true fs g = (Ok tt, g') /\
    _dataLines g' = _dataLines g ++ added /\ List.NoDup added /\
    (forall line, In line added <->
       ~ In line (_dataLines g) /\
       exists raw, In raw (PyStr.split PyStr.nl (PyStr.universal_newlines text)) /\
                   keep_line (PyStr.lstrip raw) = true /\
                   line = PyStr.lstrip raw) /\
    (in_step g -> in_step g') /\
    hasChanged g' = negb (is_nil (_rules g)) /\ currentFile g' = Some path.
Proof.
  intros Hfile.
  destruct (load_lines_behind (PyStr.split PyStr.nl (PyStr.universal_newlines text))
              (set_currentFile (Some path) g))
    as (added & Heq & Hnd & Hadded).
  eexists. exists added. split; [eapply load_file; exact Hfile|].
  cbn [set_hasChanged _dataLines hasChanged currentFile].
  split; [exact Heq|]. split; [exact Hnd|]. split; [|split; [|split]].
  - intros line. split; [apply Hadded|]. intros (Hnew & Hraw).
    assert (Hin : In line (_dataLines
              (load_lines (PyStr.split PyStr.nl (PyStr.universal_newlines text))
                 (set_currentFile (Some path) g)))).
    { apply load_lines_lines. now right. }
    rewrite Heq in Hin. apply in_app_iff in Hin as [Hold|Hin];
      [contradiction | exact Hin].
  - intros Hstep. unfold in_step. cbn [_rules _dataLines].
    now apply load_lines_in_step.
  - reflexivity.
  - now rewrite load_lines_currentFile.
Qed.

Lemma load_adds_to_existing_witness :
  GitignoreExamples.disk0 ".gitignore"
    = Some (File GitignoreExamples.commented) /\
  exists g',
    load (Some ".gitignore") true true GitignoreExamples.disk0
      (addRule "*.pyc" init) = (Ok tt, g') /\
    _dataLines g' = ["*.pyc"; "*.o"] /\ hasChanged g' = true.
Proof.
  assert (H : GitignoreExamples.disk0 ".gitignore"
              = Some (File GitignoreExamples.commented)) by reflexivity.
  split; [exact H|].
  destruct (load_adds_to_existing _ _ _ (addRule "*.pyc" init) H)
    as (g' & added & H1 & _ & _ & _ & _ & H2 & _).
  exists g'. split; [exact H1|].
  rewrite H2. vm_compute in H1. injection H1 as <-. split; reflexivity.
Defined.

End GitignoreLaws.
(** ** fdox.py: the [.gitignore] of a directory that gets documented *)

Module FdoxSpec.

Import Gitignore GitignoreSpec GitignoreLaws PyStrLaws Fdox.

Lemma addRule_hasChanged rule g :
  hasChanged (addRule rule g)
  = hasChanged g || negb (has_line rule (_dataLines g)).
Proof.
  unfold addRule. destruct (has_line rule (_dataLines g)); cbn.
  - now rewrite orb_false_r.
  - now rewrite orb_true_r.
Qed.

Lemma addRule_rule_lines rule g :
  rule_line rule -> Forall rule_line (_dataLines g) ->
  Forall rule_line (_dataLines (addRule rule g)).
Proof.
  intros Hr Hg. unfold addRule. destruct (has_line rule (_dataLines g));
    [exact Hg|]. cbn [_dataLines]. apply Forall_app. split; [exact Hg|].
  now constructor.
Qed.

Lemma addRule_behind rule g :
  exists added,
    _dataLines (addRule rule g) = _dataLines g ++ added /\ incl added [rule].
Proof.
  unfold addRule. destruct (has_line rule (_dataLines g)); cbn [_dataLines].
  - exists []. split; [now rewrite app_nil_r | intros x []].
  - exists [rule]. split; [reflexivity | apply incl_refl].
Qed.

Section Block.

Variables (fs : filesystem) (dir : string).

Local Abbreviation path := (child dir ".gitignore").

Hypothesis Hdir : is_dir fs dir = true.
Hypothesis Hfile : is_dir fs path = false.

(** The object [Gitignore(directory,errorOnFileNotFound=False)] *)
Lemma new_in_directory :
  exists g0,
    new (Some dir) false fs = (Ok tt, g0) /\
    currentFile g0 = Some path /\ hasChanged g0 = false /\
    Forall rule_line (_dataLines g0) /\ List.NoDup (_dataLines g0) /\
    in_step g0 /\
    (forall lines,
       Forall rule_line lines -> List.NoDup lines ->
       text_at fs path = Some (PyStr.join PyStr.NL lines) ->
       _dataLines g0 = lines).
Proof.
  unfold new, load. rewrite Hdir. unfold exists_, read_text, text_at.
  unfold is_dir in Hfile. cbn [_rules is_nil negb set_currentFile].
  destruct (fs path) as [[|text]|] eqn:E; [discriminate| |].
  - cbn [negb]. eexists. split; [reflexivity|].
    cbn [set_hasChanged currentFile hasChanged _dataLines].
    split; [apply load_lines_currentFile|]. split; [reflexivity|].
    split; [|split; [|split]].
    + apply load_lines_rule_lines; [|constructor].
      intros raw Hraw. now apply (read_lines_free text).
    + apply load_lines_distinct. constructor.
    + unfold in_step. cbn [_rules _dataLines]. now apply load_lines_in_step.
    + intros lines Hrl Hnd [= ->]. rewrite (saved_text_read _ Hrl).
      match goal with
      | |- _dataLines (load_lines _ ?G) = _ =>
          destruct (load_lines_join lines G Hrl Hnd) as (H1 & _);
            [intros line _ [] | exact H1]
      end.
  - cbn [negb]. eexists. split; [reflexivity|]. cbn.
    split; [reflexivity|]. split; [reflexivity|].
    split; [constructor|]. split; [constructor|]. split; [reflexivity|].
    intros lines _ _ [=].
Qed.

(** The block runs to its end; the file is written if a rule was added. *)
Lemma block_runs :
  exists g0,
    new (Some dir) false fs = (Ok tt, g0) /\
    currentFile g0 = Some path /\ hasChanged g0 = false /\
    Forall rule_line (_dataLines g0) /\ List.NoDup (_dataLines g0) /\
    in_step g0 /\
    (forall lines,
       Forall rule_line lines -> List.NoDup lines ->
       text_at fs path = Some (PyStr.join PyStr.NL lines) ->
       _dataLines g0 = lines) /\
    addDoxygenStuffToGitIgnore dir fs =
    (Ok tt,
     set_hasChanged false (addRule "doxygen/*" (addRule "Doxyfile" g0)),
     if hasChanged (addRule "doxygen/*" (addRule "Doxyfile" g0))
     then fun q =>
            if String.eqb q path
            then Some (File (__repr__
                        (addRule "doxygen/*" (addRule "Doxyfile" g0))))
            else fs q
     else fs).
Proof.
  destruct new_in_directory as (g0 & Hnew & Hcur & Hch & Hrl & Hnd & Hst & Hrt).
  exists g0. do 6 (split; [assumption|]). split; [exact Hrt|].
  unfold addDoxygenStuffToGitIgnore. rewrite Hnew.
  set (g2 := addRule "doxygen/*" (addRule "Doxyfile" g0)).
  assert (Hcur2 : currentFile g2 = Some path).
  { unfold g2. now rewrite !addRule_currentFile. }
  unfold save. rewrite Hcur2, Hfile. cbn [path_eqb].
  rewrite String.eqb_refl. cbn [negb]. rewrite orb_false_r.
  destruct (hasChanged g2) eqn:Ech.
  - unfold write_text. unfold is_dir in Hfile.
    cbn [set_currentFile _dataLines].
    replace (set_currentFile (Some path) g2) with g2
      by (apply Gitignore_eq; cbn; auto).
    destruct (fs path) as [[|t]|]; [discriminate | reflexivity | reflexivity].
  - f_equal. f_equal. apply Gitignore_eq; cbn; auto.
Qed.

End Block.

Lemma Doxyfile_rule_line : rule_line "Doxyfile".
Proof. repeat split. Qed.

Lemma doxygen_rule_line : rule_line "doxygen/*".
Proof. repeat split. Qed.

(** X7.  The block of [fdox] that sees to the [.gitignore] of the directory
    (a directory whose [.gitignore], if there is one, is a file): it returns
    without raising, also when there is no [.gitignore]; afterwards the
    object lists [Doxyfile] and [doxygen/*], behind the rules that were read
    from the file, which keep their order, and every rule once.  If the two
    rules were both in the file, nothing is written.  If not, the file is
    written and holds the stored lines joined by line breaks (so the comment
    and empty lines it had are gone).  No other file is touched. *)
Theorem fdox_gitignore (fs : filesystem) (dir : string) :
  is_dir fs dir = true ->
  is_dir fs (child dir ".gitignore") = false ->
  exists g0 g fs',
    new (Some dir) false fs = (Ok tt, g0) /\
    addDoxygenStuffToGitIgnore dir fs = (Ok tt, g, fs') /\
    currentFile g = Some (child dir ".gitignore") /\ hasChanged g = false /\
    In "Doxyfile" (_dataLines g) /\ In "doxygen/*" (_dataLines g) /\
    (exists added,
       _dataLines g = _dataLines g0 ++ added /\
       incl added ["Doxyfile"; "doxygen/*"]) /\
    List.NoDup (_dataLines g) /\ in_step g /\
    (forall q, q <> child dir ".gitignore" -> fs' q = fs q) /\
    (In "Doxyfile" (_dataLines g0) -> In "doxygen/*" (_dataLines g0) ->
     fs' = fs) /\
    (~ (In "Doxyfile" (_dataLines g0) /\ In "doxygen/*" (_dataLines g0)) ->
     text_at fs' (child dir ".gitignore") = Some (__repr__ g)).
Proof.
  intros Hdir Hfile.
  destruct (block_runs fs dir Hdir Hfile)
    as (g0 & Hnew & Hcur & Hch & Hrl & Hnd & Hst & _ & Hrun).
  set (g1 := addRule "Doxyfile" g0) in *.
  set (g2 := addRule "doxygen/*" g1) in *.
  exists g0. eexists. eexists. split; [exact Hnew|]. split; [exact Hrun|].
  cbn [set_hasChanged currentFile hasChanged _dataLines _rules].
  assert (Hch2 : hasChanged g2
            = negb (has_line "Doxyfile" (_dataLines g0))
              || negb (has_line "doxygen/*" (_dataLines g1))).
  { unfold g2, g1. now rewrite !addRule_hasChanged, Hch. }
  split; [unfold g2, g1; now rewrite !addRule_currentFile|].
  split; [reflexivity|].
  split; [unfold g2; apply addRule_lines; left; apply addRule_lines; now right|].
  split; [unfold g2; apply addRule_lines; now right|].
  split.
  { destruct (addRule_behind "Doxyfile" g0) as (a1 & H1 & Hi1).
    destruct (addRule_behind "doxygen/*" g1) as (a2 & H2 & Hi2).
    exists (a1 ++ a2). split.
    - unfold g2. rewrite H2. unfold g1. rewrite H1. now rewrite app_assoc.
    - intros x Hx. apply in_app_iff in Hx as [Hx|Hx].
      + apply Hi1 in Hx. destruct Hx as [<-|[]]. now left.
      + apply Hi2 in Hx. destruct Hx as [<-|[]]. right. now left. }
  split; [unfold g2, g1; now do 2 apply addRule_distinct|].
  split.
  { unfold in_step. cbn [_rules _dataLines].
    unfold g2, g1. now do 2 apply addRule_in_step. }
  split; [|split].
  - intros q Hq. destruct (hasChanged g2); [|reflexivity].
    now replace (String.eqb q (child dir ".gitignore")) with false
      by (symmetry; now apply String.eqb_neq).
  - intros H1 H2. rewrite Hch2.
    assert (H2' : In "doxygen/*" (_dataLines g1)).
    { unfold g1. apply addRule_lines. now left. }
    apply has_line_In in H1, H2'. now rewrite H1, H2'.
  - intros Hnot.
    assert (Hw : hasChanged g2 = true).
    { rewrite Hch2. apply orb_true_iff.
      destruct (has_line "Doxyfile" (_dataLines g0)) eqn:E1; [|now left].
      right. apply negb_true_iff.
      destruct (has_line "doxygen/*" (_dataLines g1)) eqn:E2; [|reflexivity].
      exfalso. apply Hnot. apply has_line_In in E1, E2.
      split; [exact E1|]. unfold g1 in E2. apply addRule_lines in E2.
      destruct E2 as [E2|E2]; [exact E2 | discriminate E2]. }
    rewrite Hw. unfold text_at. now rewrite String.eqb_refl.
Qed.

Lemma fdox_gitignore_witness :
  is_dir GitignoreExamples.project "proj" = true /\
  is_dir GitignoreExamples.project (child "proj" ".gitignore") = false /\
  exists g fs',
    addDoxygenStuffToGitIgnore "proj" GitignoreExamples.project
      = (Ok tt, g, fs') /\
    _dataLines g = ["*.o"; "Doxyfile"; "doxygen/*"] /\
    text_at fs' "proj/.gitignore"
      = Some ("*.o" +:+ PyStr.NL +:+ "Doxyfile" +:+ PyStr.NL +:+ "doxygen/*") /\
    List.NoDup (_dataLines g).
Proof.
  assert (H1 : is_dir GitignoreExamples.project "proj" = true) by reflexivity.
  assert (H2 : is_dir GitignoreExamples.project (child "proj" ".gitignore")
               = false) by reflexivity.
  split; [exact H1|]. split; [exact H2|].
  destruct (fdox_gitignore _ _ H1 H2)
    as (g0 & g & fs' & _ & Hrun & _ & _ & _ & _ & _ & Hnd & _).
  exists g, fs'. split; [exact Hrun|].
  vm_compute in Hrun. injection Hrun as <- <-.
  split; [reflexivity|]. split; [reflexivity | exact Hnd].
Defined.

(** X8.  Running that block a second time changes nothing: the object it
    ends with is the same, and the [.gitignore] is not written again. *)
Theorem fdox_gitignore_twice
    (fs fs' : filesystem) (dir : string) (g : Gitignore) :
  is_dir fs dir = true ->
  is_dir fs (child dir ".gitignore") = false ->
  addDoxygenStuffToGitIgnore dir fs = (Ok tt, g, fs') ->
  addDoxygenStuffToGitIgnore dir fs' = (Ok tt, g, fs').
Proof.
  intros Hdir Hfile Hrun.
  destruct (block_runs fs dir Hdir Hfile)
    as (g0 & _ & Hcur & Hch & Hrl & Hnd & Hst & _ & Hrun0).
  rewrite Hrun0 in Hrun.
  set (g2 := addRule "doxygen/*" (addRule "Doxyfile" g0)) in *.
  assert (Hcur2 : currentFile g2 = Some (child dir ".gitignore")).
  { unfold g2. now rewrite !addRule_currentFile. }
  assert (Hrl2 : Forall rule_line (_dataLines g2)).
  { unfold g2. apply addRule_rule_lines; [apply doxygen_rule_line|].
    apply addRule_rule_lines; [apply Doxyfile_rule_line | exact Hrl]. }
  assert (Hnd2 : List.NoDup (_dataLines g2)).
  { unfold g2. now do 2 apply addRule_distinct. }
  assert (Hst2 : in_step g2).
  { unfold g2. now do 2 apply addRule_in_step. }
  assert (HD : In "Doxyfile" (_dataLines g2)).
  { unfold g2. apply addRule_lines. left. apply addRule_lines. now right. }
  assert (Hd : In "doxygen/*" (_dataLines g2)).
  { unfold g2. apply addRule_lines. now right. }
  destruct (hasChanged g2) eqn:Ech.
  - injection Hrun as <- <-.
    set (fsw := fun q : string =>
                  if String.eqb q (child dir ".gitignore")
                  then Some (File (__repr__ g2)) else fs q).
    assert (Hne : String.eqb dir (child dir ".gitignore") = false).
    { apply String.eqb_neq. intros Heq. rewrite <- Heq in Hfile. congruence. }
    assert (Hdir' : is_dir fsw dir = true).
    { unfold is_dir, fsw. rewrite Hne. exact Hdir. }
    assert (Hfile' : is_dir fsw (child dir ".gitignore") = false).
    { unfold is_dir, fsw. now rewrite String.eqb_refl. }
    destruct (block_runs fsw dir Hdir' Hfile')
      as (g0' & _ & Hcur' & Hch' & _ & _ & Hst' & Hrt & Hrun').
    assert (Hlines : _dataLines g0' = _dataLines g2).
    { apply Hrt; [exact Hrl2 | exact Hnd2 |].
      unfold text_at, fsw. now rewrite String.eqb_refl. }
    assert (Hg0' : g0' = set_hasChanged false g2).
    { apply Gitignore_eq; cbn [set_hasChanged currentFile _rules _dataLines
                                 hasChanged]; try congruence.
      all: rewrite Hst', Hst2; now rewrite Hlines. }
    rewrite Hg0' in Hrun'.
    rewrite (addRule_present "Doxyfile") in Hrun' by exact HD.
    rewrite (addRule_present "doxygen/*") in Hrun' by exact Hd.
    exact Hrun'.
  - injection Hrun as <- <-. rewrite Hrun0. fold g2. try rewrite Ech.
    reflexivity.
Qed.

Lemma fdox_gitignore_twice_witness :
  exists g fs',
    addDoxygenStuffToGitIgnore "proj" GitignoreExamples.project
      = (Ok tt, g, fs') /\
    addDoxygenStuffToGitIgnore "proj" fs' = (Ok tt, g, fs').
Proof.
  assert (H1 : is_dir GitignoreExamples.project "proj" = true) by reflexivity.
  assert (H2 : is_dir GitignoreExamples.project (child "proj" ".gitignore")
               = false) by reflexivity.
  eexists. eexists.
  assert (Hrun : addDoxygenStuffToGitIgnore "proj" GitignoreExamples.project
                 = (Ok tt,
                    snd (fst (addDoxygenStuffToGitIgnore "proj"
                                GitignoreExamples.project)),
                    snd (addDoxygenStuffToGitIgnore "proj"
                           GitignoreExamples.project))) by reflexivity.
  split; [exact Hrun|].
  exact (fdox_gitignore_twice _ _ _ _ H1 H2 Hrun).
Defined.

End FdoxSpec.

(** ** fdox.py: what the command line can ask for *)

Module FdoxMainSpec.

Import FdoxMain.

Lemma calls_app t1 t2 : calls (t1 ++ t2) = calls t1 ++ calls t2.
Proof. unfold calls. apply flat_map_app. Qed.

Lemma first_piece arg :
  PyStr.split1 "="%char arg
  = option_name arg ::
    match PyStr.partition "="%char arg with
    | Some (_, v) => [v]
    | None => []
    end.
Proof.
  unfold PyStr.split1, option_name.
  now destruct (PyStr.partition "="%char arg) as [[k v]|].
Qed.

Lemma later_calls (first : bool) (done : list string) :
  first = false ->
  match done with
  | [] => []
  | d :: ds => (Some d, first) :: map (fun d' => (Some d', false)) ds
  end = map (fun d' : string => (Some d', false)) done.
Proof. intros ->. now destruct done. Qed.

Section Main.
Variable World : Type.
Variable fdox : option string -> bool -> World -> result unit * World.
Variable lower : string -> string.
Variable environ : option string.

(** [str.lower] gives no capital [D]. *)
Hypothesis lower_gives_no_D : forall s, PyStr.contains "D"%char (lower s) = false.

Lemma not_the_option s :
  String.eqb (lower s) "--addDoxygenStuffToGitIgnore" = false.
Proof.
  destruct (String.eqb (lower s) "--addDoxygenStuffToGitIgnore") eqn:E;
    [|reflexivity].
  apply String.eqb_eq in E. pose proof (lower_gives_no_D s) as H.
  rewrite E in H. discriminate H.
Qed.

(** A round for an option: help is asked for, whatever the option. *)
Lemma round_option arg l trace w :
  is_option arg = true ->
  main_round World fdox lower arg l trace w
  = (Ok (set_printHelp true l),
     trace ++ (if String.eqb (lower (option_name arg)) "--help" then []
               else [Printed (unknown_parameter (lower (option_name arg)))]),
     w).
Proof.
  intros Hopt. unfold main_round. unfold is_option in Hopt. rewrite Hopt.
  rewrite first_piece, not_the_option.
  destruct (String.eqb (lower (option_name arg)) "--help").
  - now rewrite app_nil_r.
  - reflexivity.
Qed.

Lemma loop_runs (args : list string) : forall l trace w r trace' w',
  main_loop World fdox lower args l trace w = (r, trace', w') ->
  exists more done rest,
    trace' = trace ++ more /\
    List.filter (fun arg => negb (is_option arg)) args = done ++ rest /\
    calls more
    = match done with
      | [] => []
      | d :: ds =>
          (Some d, addDoxygenStuffToGitIgnore l)
          :: map (fun d' => (Some d', false)) ds
      end /\
    forall l', r = Ok l' ->
      rest = [] /\
      addDoxygenStuffToGitIgnore l'
        = addDoxygenStuffToGitIgnore l && Gitignore.is_nil done /\
      didSomething l' = didSomething l || negb (Gitignore.is_nil done) /\
      printHelp l' = printHelp l || existsb is_option args /\
      forall arg, In arg args -> is_option arg = true ->
        lower (option_name arg) <> "--help" ->
        In (Printed (unknown_parameter (lower (option_name arg)))) more.
Proof.
  induction args as [|arg args IH]; intros l trace w r trace' w' Hrun.
  - cbn in Hrun. injection Hrun as <- <- <-. exists [], [], [].
    rewrite app_nil_r. repeat split; try reflexivity.
    + injection H as <-. now rewrite andb_true_r.
    + injection H as <-. now rewrite orb_false_r.
    + injection H as <-. now rewrite orb_false_r.
    + intros arg [].
  - cbn [main_loop] in Hrun. cbn [List.filter existsb].
    destruct (is_option arg) eqn:Hopt; cbn [negb].
    + rewrite (round_option arg l trace w Hopt) in Hrun.
      destruct (IH _ _ _ _ _ _ Hrun)
        as (more & done & rest & -> & Hdirs & Hcalls & Hend).
      eexists (_ ++ more), done, rest. rewrite app_assoc.
      split; [reflexivity|]. split; [exact Hdirs|]. split.
      * rewrite calls_app, Hcalls.
        now destruct (String.eqb (lower (option_name arg)) "--help").
      * intros l' Hl'. destruct (Hend l' Hl') as (Hrest & Hadd & Hdid & Hhelp & Hprinted).
        cbn [set_printHelp addDoxygenStuffToGitIgnore didSomething printHelp]
          in Hadd, Hdid, Hhelp.
        split; [exact Hrest|]. split; [exact Hadd|]. split; [exact Hdid|].
        split; [now rewrite orb_true_r|].
        intros a [<-|Hin] Ha Hk.
        -- apply in_or_app. left.
           destruct (String.eqb (lower (option_name arg)) "--help") eqn:E.
           ++ apply String.eqb_eq in E. contradiction.
           ++ now left.
        -- apply in_or_app. right. now apply Hprinted.
    + unfold main_round in Hrun. unfold is_option in Hopt. rewrite Hopt in Hrun.
      cbn [set_didSomething addDoxygenStuffToGitIgnore] in Hrun.
      destruct (fdox (Some arg) (addDoxygenStuffToGitIgnore l) w)
        as [[[]|e] w1] eqn:Hcall.
      * destruct (IH _ _ _ _ _ _ Hrun)
          as (more & done & rest & -> & Hdirs & Hcalls & Hend).
        cbn [set_addDoxygenStuffToGitIgnore addDoxygenStuffToGitIgnore]
          in Hcalls.
        rewrite (later_calls false done eq_refl) in Hcalls.
        eexists (_ :: more), (arg :: done), rest.
        rewrite <- app_assoc. split; [reflexivity|].
        split; [now rewrite Hdirs|]. split.
        -- cbn [calls flat_map app]. fold (calls more). now rewrite Hcalls.
        -- intros l' Hl'.
           destruct (Hend l' Hl') as (Hrest & Hadd & Hdid & Hhelp & Hprinted).
           cbn [set_addDoxygenStuffToGitIgnore set_didSomething
                addDoxygenStuffToGitIgnore didSomething printHelp
                Gitignore.is_nil negb] in *.
           split; [exact Hrest|]. split; [now rewrite andb_false_r|].
           split; [now rewrite orb_true_r|]. split; [exact Hhelp|].
           intros a [<-|Hin] Ha Hk.
           ++ unfold is_option in Ha. congruence.
           ++ right. now apply Hprinted.
      * injection Hrun as <- <- <-.
        eexists [_], [arg], _. split; [reflexivity|].
        split; [reflexivity|]. split; [reflexivity|]. discriminate.
Qed.

(** X24.  The option [--addDoxygenStuffToGitIgnore] of the command line is
    never recognised: the name of an option is put in lower case, which
    leaves no capital [D] in it, before it is compared with a text that has
    capital letters.  So, whatever the arguments, the calls of [fdox] that
    [main] makes are, in order, those of the plan: the first directory with the rules for [.gitignore] asked
    for, every later directory without, and the default directory (with the
    rules) when there is no argument at all; all of them when [main]
    returns, the first ones up to the call that raised otherwise.  And when
    [main] returns it has printed [Unknown parameter] for every option but
    [--help], that one included. *)
Theorem main_option_is_dead
    (argv : list string) (w w' : World) (r : result unit)
    (trace : list event) :
  main World fdox lower environ argv w = (r, trace, w') ->
  (exists rest, plan argv = calls trace ++ rest) /\
  (r = Ok tt ->
   calls trace = plan argv /\
   forall arg, In arg (tl argv) -> is_option arg = true ->
     lower (option_name arg) <> "--help" ->
     In (Printed (unknown_parameter (lower (option_name arg)))) trace).
Proof.
  intros Hrun. unfold main in Hrun.
  destruct (main_loop World fdox lower (tl argv) _ [] w)
    as [[[l|e] tr] w1] eqn:Hloop.
  - destruct (loop_runs _ _ _ _ _ _ _ Hloop)
      as (more & done & rest & Htr & Hdirs & Hcalls & Hend).
    cbn [app addDoxygenStuffToGitIgnore] in Htr, Hcalls. subst tr.
    destruct (Hend l eq_refl) as (-> & Hadd & Hdid & Hhelp & Hprinted).
    cbn [addDoxygenStuffToGitIgnore didSomething printHelp andb orb]
      in Hadd, Hdid, Hhelp.
    rewrite app_nil_r in Hdirs. unfold plan, directories. rewrite Hdirs.
    rewrite Hhelp, Hdid, Hadd in Hrun.
    destruct (existsb is_option (tl argv)) eqn:Hopts.
    + injection Hrun as <- <- <-. rewrite calls_app, Hcalls.
      cbn [calls flat_map app]. rewrite app_nil_r.
      destruct done as [|d ds].
      * split; [now exists []|]. intros _. split; [reflexivity|].
        intros arg Hin Ha Hk. apply in_or_app. left. now apply Hprinted.
      * split; [exists []; now rewrite app_nil_r|]. intros _.
        split; [reflexivity|].
        intros arg Hin Ha Hk. apply in_or_app. left. now apply Hprinted.
    + destruct done as [|d ds]; cbn [Gitignore.is_nil negb] in Hrun.
      * destruct (fdox None true w1) as [[[]|e] w2];
          injection Hrun as <- <- <-; rewrite calls_app, Hcalls.
        -- split; [now exists []|]. intros _. split; [reflexivity|].
           intros arg Hin Ha Hk. apply in_or_app. left. now apply Hprinted.
        -- split; [now exists []|]. discriminate.
      * injection Hrun as <- <- <-. rewrite Hcalls.
        split; [exists []; now rewrite app_nil_r|]. intros _.
        split; [reflexivity|]. intros arg Hin Ha Hk. now apply Hprinted.
  - injection Hrun as <- <- <-.
    destruct (loop_runs _ _ _ _ _ _ _ Hloop)
      as (more & done & rest & Htr & Hdirs & Hcalls & _).
    cbn [app addDoxygenStuffToGitIgnore] in Htr, Hcalls. subst tr.
    split; [|discriminate].
    unfold plan, directories. rewrite Hdirs, Hcalls.
    destruct done as [|d ds]; cbn [app].
    + eexists. reflexivity.
    + exists (map (fun d' => (Some d', false)) rest).
      now rewrite map_app.
Qed.

End Main.

Lemma lower_char_no_D c : Ascii.eqb (UtilExamples.lower_char c) "D" = false.
Proof. destruct c as [[] [] [] [] [] [] [] []]; reflexivity. Qed.

Lemma lower_no_D s : PyStr.contains "D"%char (UtilExamples.lower s) = false.
Proof.
  induction s as [|c s IH]; [reflexivity|].
  cbn [UtilExamples.lower PyStr.contains]. now rewrite lower_char_no_D, IH.
Qed.

Lemma main_option_is_dead_witness :
  let fdox := fun (_ : option string) (_ : bool) (w : unit) => (Ok tt, w) in
  let run := main unit fdox UtilExamples.lower None
               ["fdox"; "--addDoxygenStuffToGitIgnore=n"; "src"; "lib"] tt in
  fst (fst run) = Ok tt /\
  calls (snd (fst run)) = [(Some "src", true); (Some "lib", false)] /\
  In (Printed (unknown_parameter "--adddoxygenstufftogitignore"))
     (snd (fst run)).
Proof.
  cbv zeta.
  pose proof (main_option_is_dead unit
                (fun _ _ w => (Ok tt, w)) UtilExamples.lower None lower_no_D
                ["fdox"; "--addDoxygenStuffToGitIgnore=n"; "src"; "lib"]
                tt tt (Ok tt) _ eq_refl) as [_ H].
  destruct (H eq_refl) as [Hcalls Hprinted].
  split; [reflexivity|]. split; [exact Hcalls|].
  apply (Hprinted "--addDoxygenStuffToGitIgnore=n").
  - left. reflexivity.
  - reflexivity.
  - discriminate.
Defined.

End FdoxMainSpec.
(** ** doxyFile.py: setting many values at once *)

Module DoxyFileLaws.

Import DoxyFile DoxyFileSpec PyStrLaws.

(** The line the setter writes holds a [=]. *)
Lemma line_value_rewritten line p0 p1 rest value :
  PyStr.split1 "=" line = p0 :: p1 :: rest ->
  line_value (p0 +:+ "= " +:+ value) = Some (PyStr.lstrip value).
Proof.
  unfold line_value, PyStr.split1.
  destruct (PyStr.partition "=" line) as [[h t]|] eqn:Hp; [|discriminate].
  intros [= <- <- <-].
  change (h +:+ "= " +:+ value) with (h +:+ String "=" (String " " value)).
  now rewrite (PyStrFacts.partition_head _ _ _ _ _ Hp).
Qed.

Lemma get_set_is_Some (ss : PyDict.dict string DoxyfileSetting) k st st' k' :
  PyDict.get ss k = Some st ->
  is_Some (PyDict.get (PyDict.set k st' ss) k') <-> is_Some (PyDict.get ss k').
Proof.
  intros Hget. destruct (decide (k = k')) as [<-|Hne].
  - rewrite PyDictFacts.get_set_eq, Hget. split; eauto.
  - now rewrite PyDictFacts.get_set_ne.
Qed.

(** Without auto-save an assignment to a key that is there returns,
    writes nothing, and keeps every setting pointing at a line with a
    [=]. *)
Lemma setitem_quiet d dk k v ss st :
  autosave d = false -> pointed d ->
  _settings d = Some ss -> PyDict.get ss k = Some st ->
  exists d',
    setitem k v d dk = (Ok tt, d', dk) /\
    pointed d' /\ autosave d' = false /\ filename d' = filename d /\
    _settings d' = Some (PyDict.set k (with_value (textual v) st) ss) /\
    (_dirty d = true -> _dirty d' = true).
Proof.
  intros Hauto (ss0 & Hss0 & Hpt) Hss Hget.
  rewrite Hss in Hss0. injection Hss0 as <-.
  destruct (Hpt k st Hget) as (line & w & Hline & Hval).
  unfold line_value in Hval.
  destruct (PyStr.split1 "=" line) as [|p0 [|p1 rest]] eqn:Hsplit;
    try discriminate.
  set (ss' := PyDict.set k (with_value (textual v) st) ss).
  assert (Hpt' : forall lines',
            (lines' = _lines d \/
             lines' = <[_lineNo st := p0 +:+ "= " +:+ textual v]> (_lines d)) ->
            forall k1 st1, PyDict.get ss' k1 = Some st1 ->
            exists line1 v1,
              lines' !! _lineNo st1 = Some line1 /\
              line_value line1 = Some v1).
  { intros lines' Hlines k1 st1 H1.
    assert (Hold : exists line1 v1,
              _lines d !! _lineNo st1 = Some line1 /\
              line_value line1 = Some v1).
    { unfold ss' in H1. destruct (decide (k = k1)) as [<-|Hne].
      - rewrite PyDictFacts.get_set_eq in H1. injection H1 as <-.
        cbn [_lineNo with_value]. exists line, (PyStr.lstrip p1).
        split; [exact Hline|]. unfold line_value. now rewrite Hsplit.
      - rewrite PyDictFacts.get_set_ne in H1 by exact Hne. now apply (Hpt k1). }
    destruct Hlines as [->| ->]; [exact Hold|].
    destruct Hold as (line1 & v1 & Hl1 & Hv1).
    destruct (decide (_lineNo st = _lineNo st1)) as [Heq|Hne].
    - rewrite <- Heq. eexists _, _. split.
      + apply list_lookup_insert_eq. eapply lookup_lt_Some. exact Hline.
      + eapply line_value_rewritten. exact Hsplit.
    - exists line1, v1. split; [|exact Hv1].
      now rewrite list_lookup_insert_ne. }
  unfold setitem, value_setter. rewrite Hss, Hget.
  cbn [_lines set_settings _lineNo]. rewrite Hline, Hsplit.
  destruct (String.eqb (PyStr.lstrip p1) (textual v)).
  - eexists. split; [reflexivity|].
    cbn [set_settings autosave filename _settings _dirty _lines].
    split; [|auto]. exists ss'. split; [reflexivity|]. apply Hpt'. now left.
  - unfold markDirty.
    cbn [autosave set_lines set_settings filename _lines]. rewrite Hauto.
    eexists. split; [reflexivity|].
    cbn [set_dirty set_lines set_settings autosave filename _settings _dirty
         _lines].
    split; [|auto]. exists ss'. split; [reflexivity|]. apply Hpt'. now right.
Qed.

Lemma update_loop_app a b d dk :
  update_loop (a ++ b) d dk =
  match update_loop a d dk with
  | (Ok _, d', dk') => update_loop b d' dk'
  | (Raise e, d', dk') => (Raise e, d', dk')
  end.
Proof.
  revert d dk. induction a as [|[k v] a IH]; intros d dk; [reflexivity|].
  cbn [app update_loop].
  destruct (setitem k v d dk) as [[[u|e] d'] dk']; [apply IH | reflexivity].
Qed.

(** The loop of [update], run without auto-save over keys that are there *)
Lemma update_loop_quiet values : forall d dk ss,
  autosave d = false -> pointed d -> _settings d = Some ss ->
  (forall k v, In (k, v) values -> exists st, PyDict.get ss k = Some st) ->
  exists d' ss',
    update_loop values d dk = (Ok tt, d', dk) /\
    pointed d' /\ autosave d' = false /\ filename d' = filename d /\
    _settings d' = Some ss' /\
    (forall k, is_Some (PyDict.get ss' k) <-> is_Some (PyDict.get ss k)) /\
    (forall k, ~ In k (PyDict.keys values) ->
       PyDict.get ss' k = PyDict.get ss k) /\
    (List.NoDup (PyDict.keys values) ->
     forall k v, In (k, v) values ->
       exists st', PyDict.get ss' k = Some st' /\ _value st' = textual v) /\
    (_dirty d = true -> _dirty d' = true).
Proof.
  induction values as [|[k v] values IH]; intros d dk ss Hauto Hpt Hss Hkeys.
  - exists d, ss. cbn [update_loop]. split; [reflexivity|].
    split; [exact Hpt|]. split; [exact Hauto|]. split; [reflexivity|].
    split; [exact Hss|]. split; [reflexivity|]. split; [reflexivity|].
    split; [intros _ k v [] | auto].
  - destruct (Hkeys k v) as [st Hget]; [now left|].
    destruct (setitem_quiet d dk k v ss st Hauto Hpt Hss Hget)
      as (d1 & Hrun1 & Hpt1 & Hauto1 & Hfile1 & Hss1 & Hdirty1).
    destruct (IH d1 dk _ Hauto1 Hpt1 Hss1)
      as (d' & ss' & Hrun & Hpt' & Hauto' & Hfile' & Hss' & Hsome & Hother
          & Hvals & Hdirty').
    { intros k' v' Hin. destruct (Hkeys k' v') as [st' Hst']; [now right|].
      apply (get_set_is_Some ss k st (with_value (textual v) st) k' Hget).
      eauto. }
    exists d', ss'. cbn [update_loop]. rewrite Hrun1.
    split; [exact Hrun|]. split; [exact Hpt'|]. split; [exact Hauto'|].
    split; [congruence|]. split; [exact Hss'|].
    split; [|split; [|split]].
    + intros k'. rewrite Hsome. now apply get_set_is_Some with (st := st).
    + intros k' Hnot. cbn [PyDict.keys map fst] in Hnot.
      rewrite Hother by (intros Hin; apply Hnot; now right).
      apply PyDictFacts.get_set_ne. intros ->. apply Hnot. now left.
    + intros Hnd k' v' Hin. cbn [PyDict.keys map fst] in Hnd.
      inversion Hnd as [|? ? Hk Hnd']; subst.
      destruct Hin as [[= -> ->]|Hin].
      * rewrite Hother by exact Hk. rewrite PyDictFacts.get_set_eq.
        eexists. split; [reflexivity|]. reflexivity.
      * now apply Hvals.
    + auto.
Qed.

(** Values that are there already: the loop changes nothing. *)
Lemma update_loop_unchanged values : forall d dk,
  (forall k v, In (k, v) values ->
     exists st, loaded d k st /\ textual v = _value st) ->
  update_loop values d dk = (Ok tt, d, dk).
Proof.
  induction values as [|[k v] values IH]; intros d dk Hsame; [reflexivity|].
  cbn [update_loop]. destruct (Hsame k v) as (st & Hl & Hv); [now left|].
  rewrite (setitem_unchanged d dk k st v Hl Hv). apply IH.
  intros k' v' Hin. apply Hsame. now right.
Qed.

(** Values whose texts stand on the lines already: the loop stores them
    and leaves the lines, the flags and the disk as they are. *)
Lemma update_loop_same_as_lines values : forall d dk ss,
  _settings d = Some ss ->
  (forall k v, In (k, v) values ->
     exists st line,
       PyDict.get ss k = Some st /\
       _lines d !! _lineNo st = Some line /\
       line_value line = Some (textual v)) ->
  exists d',
    update_loop values d dk = (Ok tt, d', dk) /\
    _lines d' = _lines d /\ _dirty d' = _dirty d /\
    autosave d' = autosave d /\ filename d' = filename d.
Proof.
  induction values as [|[k v] values IH]; intros d dk ss Hss Hsame.
  - exists d. repeat split.
  - destruct (Hsame k v) as (st & line & Hget & Hline & Hval); [now left|].
    cbn [update_loop].
    rewrite (setitem_same_as_line d dk k v ss st line Hss Hget Hline Hval).
    destruct (IH (set_settings (PyDict.set k (with_value (textual v) st) ss) d)
                dk (PyDict.set k (with_value (textual v) st) ss) eq_refl)
      as (d' & Hrun & Hlines & Hdirty & Hauto & Hfile).
    + intros k' v' Hin.
      destruct (Hsame k' v') as (st' & line' & Hget' & Hline' & Hval');
        [now right|].
      cbn [_lines set_settings].
      destruct (decide (k = k')) as [<-|Hne].
      * rewrite Hget in Hget'. injection Hget' as <-.
        exists (with_value (textual v) st), line'.
        split; [apply PyDictFacts.get_set_eq|]. split; assumption.
      * exists st', line'.
        split; [now rewrite PyDictFacts.get_set_ne|]. split; assumption.
    + exists d'. split; [exact Hrun|]. now repeat split.
Qed.

Lemma pointed_set_autosave b d : pointed d -> pointed (set_autosave b d).
Proof. intros (ss & Hss & Hpt). exists ss. split; assumption. Qed.

Lemma loaded_set_autosave b d k st : loaded d k st -> loaded (set_autosave b d) k st.
Proof. intros (ss & line & H). exists ss, line. exact H. Qed.


Lemma small_pointed : pointed DoxyFileExamples.small.
Proof.
  eexists. split; [reflexivity|]. intros k st H. cbn in H.
  destruct (decide ("HAVE_DOT" = k)); [|discriminate]. injection H as <-.
  eexists _, _. split; reflexivity.
Qed.


(** X10.  [update] with a key that is not among the settings: the values
    before it are assigned (in memory only), then [KeyError] is raised for
    that key; nothing is written, and auto-save is left switched off, also
    when it was on before the call. *)
Theorem update_missing_key (d : DoxyFile) (dk : disk)
    (done rest : PyDict.dict string PyValue) (k : string) (v : PyValue)
    (ss : PyDict.dict string DoxyfileSetting) :
  pointed d -> _settings d = Some ss ->
  (forall k' v', In (k', v') done -> exists st, PyDict.get ss k' = Some st) ->
  PyDict.get ss k = None ->
  exists d',
    update (done ++ (k, v) :: rest) d dk = (Raise (KeyError k), d', dk) /\
    update_loop done (set_autosave false d) dk = (Ok tt, d', dk) /\
    autosave d' = false /\
    (_dirty d = true -> _dirty d' = true).
Proof.
  intros Hpt Hss Hkeys Hnone.
  destruct (update_loop_quiet done (set_autosave false d) dk ss)
    as (d1 & ss' & Hrun & _ & Hauto1 & _ & Hss1 & Hsome & _ & _ & Hdirty);
    [reflexivity | now apply pointed_set_autosave | exact Hss | exact Hkeys |].
  exists d1. split; [|auto].
  unfold update. rewrite update_loop_app, Hrun. cbn [update_loop].
  unfold setitem. rewrite Hss1.
  assert (Hnone' : PyDict.get ss' k = None).
  { destruct (PyDict.get ss' k) eqn:E; [|reflexivity].
    assert (Hs : is_Some (PyDict.get ss k)) by (apply Hsome; eauto).
    rewrite Hnone in Hs. now destruct Hs. }
  now rewrite Hnone'.
Qed.

Lemma update_missing_key_witness :
  pointed DoxyFileExamples.small /\
  autosave DoxyFileExamples.small = true /\
  exists d',
    update [("HAVE_DOT", VBool true); ("NO_SUCH_KEY", VStr "x")]
      DoxyFileExamples.small [] = (Raise (KeyError "NO_SUCH_KEY"), d', []) /\
    autosave d' = false /\
    _lines d' = ["# use dot"; "HAVE_DOT           = YES"; ""].
Proof.
  split; [exact small_pointed|]. split; [reflexivity|].
  destruct (update_missing_key DoxyFileExamples.small []
              [("HAVE_DOT", VBool true)] [] "NO_SUCH_KEY" (VStr "x") _
              small_pointed eq_refl)
    as (d' & Hrun & Hloop & Hauto & _).
  - intros k v [[= <- <-]|[]]. eexists. reflexivity.
  - reflexivity.
  - exists d'. split; [exact Hrun|]. split; [exact Hauto|].
    vm_compute in Hloop. injection Hloop as <-. reflexivity.
Defined.

End DoxyFileLaws.
(** ** doxyFile.py: what [load] reads, and reading again what was written *)

Module DoxyFileReload.

Import DoxyFile DoxyFileSpec PyStrLaws.

(** *** The loop of [load], line by line *)

Lemma lookup_snoc (pre : list string) line j x :
  (pre ++ [line]) !! j = Some x ->
  pre !! j = Some x \/ (j = length pre /\ x = line).
Proof.
  intros H. apply lookup_app_Some in H as [H|[Hle H]]; [now left|].
  apply list_lookup_singleton_Some in H as [H ->]. right. split; [lia | auto].
Qed.

Lemma sets_last_snoc pre line k i v :
  sets_last pre k i v -> (forall w, setting_of line <> Some (k, w)) ->
  sets_last (pre ++ [line]) k i v.
Proof.
  intros [(l & Hl & Hs) Hlater] Hline. split.
  - exists l. split; [|exact Hs]. now apply lookup_app_l_Some.
  - intros j l' w Hj Hl'. apply lookup_snoc in Hl' as [Hl'|[_ ->]].
    + now apply (Hlater j).
    + apply Hline.
Qed.

Lemma never_set_snoc pre line k :
  never_set pre k -> (forall w, setting_of line <> Some (k, w)) ->
  never_set (pre ++ [line]) k.
Proof.
  intros Hpre Hline j l w Hl. apply lookup_snoc in Hl as [Hl|[_ ->]].
  - now apply (Hpre j).
  - apply Hline.
Qed.

Lemma reads_skip pre ss line :
  setting_of line = None -> reads pre ss -> reads (pre ++ [line]) ss.
Proof.
  intros Hnone Hr k. specialize (Hr k).
  assert (Hline : forall w, setting_of line <> Some (k, w))
    by (intros w; rewrite Hnone; discriminate).
  destruct (PyDict.get ss k) as [st|].
  - destruct Hr as [Hn Hs]. split; [exact Hn | now apply sets_last_snoc].
  - now apply never_set_snoc.
Qed.

Lemma reads_set pre ss line k v dcs :
  setting_of line = Some (k, v) -> reads pre ss ->
  reads (pre ++ [line])
    (PyDict.set k {| name := k; docs := dcs; _value := v;
                     _lineNo := length pre |} ss).
Proof.
  intros Hsome Hr k'. destruct (decide (k = k')) as [<-|Hne].
  - rewrite PyDictFacts.get_set_eq. cbn [name _lineNo _value].
    split; [reflexivity|]. split.
    + exists line. split; [|exact Hsome].
      rewrite lookup_app_r by lia. now rewrite Nat.sub_diag.
    + intros j l w Hj Hl. apply lookup_lt_Some in Hl.
      rewrite length_app in Hl. cbn [length] in Hl. lia.
  - rewrite PyDictFacts.get_set_ne by exact Hne. specialize (Hr k').
    assert (Hline : forall w, setting_of line <> Some (k', w)).
    { intros w. rewrite Hsome. congruence. }
    destruct (PyDict.get ss k') as [st|].
    + destruct Hr as [Hn Hs]. split; [exact Hn | now apply sets_last_snoc].
    + now apply never_set_snoc.
Qed.

(** The settings the loop ends with are those the lines set. *)
Lemma load_loop_reads rest : forall pre lastsection section ss,
  reads pre ss ->
  reads (pre ++ rest) (load_loop (length pre) rest lastsection section ss).
Proof.
  induction rest as [|line rest IH]; intros pre lastsection section ss Hr.
  - cbn [load_loop]. now rewrite app_nil_r.
  - assert (Hnext : forall ls sec ss',
              reads (pre ++ [line]) ss' ->
              reads (pre ++ line :: rest)
                (load_loop (S (length pre)) rest ls sec ss')).
    { intros ls sec ss' Hr'.
      replace (pre ++ line :: rest) with ((pre ++ [line]) ++ rest)
        by now rewrite <- app_assoc.
      replace (S (length pre)) with (length (pre ++ [line]))
        by (rewrite length_app; cbn [length]; lia).
      now apply IH. }
    cbn [load_loop]. destruct line as [|c line'].
    { destruct (is_nil section); apply Hnext; now apply reads_skip. }
    destruct (Ascii.eqb c "#") eqn:Ec.
    { apply Hnext. apply reads_skip; [|exact Hr].
      cbn [setting_of]. now rewrite Ec. }
    destruct (PyStr.split1 "=" (String c line')) as [|col0 [|col1 more]]
      eqn:Hsplit.
    + apply Hnext. apply reads_skip; [|exact Hr].
      cbn [setting_of]. now rewrite Ec, Hsplit.
    + apply Hnext. apply reads_skip; [|exact Hr].
      cbn [setting_of]. now rewrite Ec, Hsplit.
    + apply Hnext. cbn [name]. apply reads_set; [|exact Hr].
      cbn [setting_of]. now rewrite Ec, Hsplit.
Qed.

Lemma reads_nil : reads [] [].
Proof. intros k j line w H. discriminate H. Qed.

Lemma load_text_reads data d :
  reads (_lines (load_text data d))
    (load_loop 0 (_lines (load_text data d)) [] [] []).
Proof. apply (load_loop_reads _ [] [] [] []), reads_nil. Qed.


(** *** Writing and reading again *)

Lemma split_map_strip data line :
  In line (map PyStr.strip (PyStr.split PyStr.nl data)) ->
  PyStr.strip line = line /\ PyStr.contains PyStr.nl line = false.
Proof.
  intros Hin. apply in_map_iff in Hin as (raw & <- & Hraw). split.
  - apply strip_idem.
  - apply contains_strip. now apply (split_pieces PyStr.nl data).
Qed.

Lemma map_strip_fixed lines :
  (forall line, In line lines -> PyStr.strip line = line) ->
  map PyStr.strip lines = lines.
Proof.
  intros H. rewrite <- (map_id lines) at 2. apply map_ext_in. exact H.
Qed.

(** Lines as [load] keeps them are read back as they are. *)
Lemma relines lines :
  lines <> [] ->
  (forall line, In line lines ->
     PyStr.strip line = line /\ PyStr.contains PyStr.nl line = false) ->
  map PyStr.strip (PyStr.split PyStr.nl (PyStr.join PyStr.NL lines)) = lines.
Proof.
  intros Hne H. unfold PyStr.NL. rewrite split_join; [|exact Hne|].
  - apply map_strip_fixed. intros line Hin. now apply H.
  - intros line Hin. now apply H.
Qed.

Lemma lines_not_nil data : map PyStr.strip (PyStr.split PyStr.nl data) <> [].
Proof.
  pose proof (split_not_nil PyStr.nl data).
  now destruct (PyStr.split PyStr.nl data).
Qed.


(** *** A value assigned, written and read again *)

Lemma sets_last_unique lines k i v i' v' :
  sets_last lines k i v -> sets_last lines k i' v' -> i = i' /\ v = v'.
Proof.
  intros [(l & Hl & Hs) Hlater] [(l' & Hl' & Hs') Hlater'].
  destruct (Nat.lt_trichotomy i i') as [Hlt|[Heq|Hgt]].
  - now destruct (Hlater i' l' v' Hlt Hl').
  - subst i'. split; [reflexivity|]. congruence.
  - now destruct (Hlater' i l v Hgt Hl).
Qed.

Lemma sets_last_not_never lines k i v :
  sets_last lines k i v -> never_set lines k -> False.
Proof. intros [(l & Hl & Hs) _] Hnever. exact (Hnever i l v Hl Hs). Qed.

Section Agree.

Variables (k : string) (lines lines' : list string).
Hypothesis Hlen : length lines' = length lines.
Hypothesis Hagree : forall j l l' w,
  lines !! j = Some l -> lines' !! j = Some l' ->
  (setting_of l = Some (k, w) <-> setting_of l' = Some (k, w)).

Lemma lookup_other j l' : lines' !! j = Some l' -> exists l, lines !! j = Some l.
Proof.
  intros H. apply lookup_lt_Some in H. rewrite Hlen in H.
  now apply lookup_lt_is_Some_2.
Qed.

Lemma sets_last_agree i v : sets_last lines k i v -> sets_last lines' k i v.
Proof.
  intros [(l & Hl & Hs) Hlater]. split.
  - destruct (lookup_lt_is_Some_2 lines' i) as [l' Hl'].
    { rewrite Hlen. now apply lookup_lt_Some in Hl. }
    exists l'. split; [exact Hl'|]. now apply (Hagree i l l' v Hl Hl').
  - intros j l' w Hj Hl' Hs'. destruct (lookup_other j l' Hl') as [l0 Hl0].
    apply (Hlater j l0 w Hj Hl0). now apply (Hagree j l0 l' w Hl0 Hl').
Qed.

Lemma never_set_agree : never_set lines k -> never_set lines' k.
Proof.
  intros Hnever j l' w Hl' Hs'. destruct (lookup_other j l' Hl') as [l0 Hl0].
  apply (Hnever j l0 w Hl0). now apply (Hagree j l0 l' w Hl0 Hl').
Qed.

(** Settings read from lines that set the key alike hold the same value
    for it, at the same line. *)
Lemma reads_agree ss ss' :
  reads lines ss -> reads lines' ss' ->
  option_map (fun st => (_lineNo st, _value st)) (PyDict.get ss k)
  = option_map (fun st => (_lineNo st, _value st)) (PyDict.get ss' k).
Proof.
  intros Hr Hr'. specialize (Hr k). specialize (Hr' k).
  destruct (PyDict.get ss k) as [st|], (PyDict.get ss' k) as [st'|];
    cbn [option_map].
  - destruct Hr as [_ Hs], Hr' as [_ Hs']. apply sets_last_agree in Hs.
    destruct (sets_last_unique _ _ _ _ _ _ Hs Hs') as [-> ->]. reflexivity.
  - destruct Hr as [_ Hs]. apply sets_last_agree in Hs.
    destruct (sets_last_not_never _ _ _ _ Hs Hr').
  - destruct Hr' as [_ Hs']. apply never_set_agree in Hr.
    destruct (sets_last_not_never _ _ _ _ Hs' Hr).
  - reflexivity.
Qed.

End Agree.

Lemma lookup_map {A B} (f : A -> B) (l : list A) i :
  map f l !! i = option_map f (l !! i).
Proof.
  revert i. induction l as [|x l IH]; intros [|i]; cbn; auto.
Qed.

Lemma In_insert {A} (l : list A) i y x :
  In x (<[i:=y]> l) -> x = y \/ In x l.
Proof.
  revert i. induction l as [|a l IH]; intros [|i]; cbn; try tauto.
  - intros [H|H]; auto.
  - intros [H|H]; [auto|]. destruct (IH i H); auto.
Qed.

(** The line the setter writes, stripped, sets the same key to the new
    value. *)
Lemma setting_of_rewritten raw k old col0 col1 more value :
  setting_of (PyStr.strip raw) = Some (k, old) ->
  PyStr.split1 "=" (PyStr.strip raw) = col0 :: col1 :: more ->
  PyStr.strip value = value ->
  setting_of (PyStr.strip (col0 +:+ "= " +:+ value)) = Some (k, value).
Proof.
  intros Hset Hsplit Hvalue.
  destruct (PyStr.strip raw) as [|c rest] eqn:Hline; [discriminate|].
  assert (Hc : PyStr.isspace c = false).
  { unfold PyStr.strip in Hline. now apply lstrip_nonspace in Hline. }
  cbn [setting_of] in Hset.
  destruct (Ascii.eqb c "#") eqn:Ec; [discriminate|].
  rewrite Hsplit in Hset. injection Hset as Hk _.
  unfold PyStr.split1 in Hsplit.
  destruct (PyStr.partition "=" (String c rest)) as [[h t]|] eqn:Hp;
    [|discriminate].
  injection Hsplit as <- <- <-.
  pose proof (PyStrFacts.partition_app _ _ _ _ Hp) as Happ.
  set (R := PyStr.rstrip (String " " value)).
  assert (Hr : PyStr.rstrip (h +:+ "= " +:+ value) = h +:+ String "=" R).
  { change (h +:+ "= " +:+ value) with (h +:+ String "=" (String " " value)).
    rewrite rstrip_append.
    - now rewrite rstrip_nonspace by reflexivity.
    - now rewrite rstrip_nonspace by reflexivity. }
  assert (Hhead : PyStr.head (h +:+ String "=" R) = Some c).
  { rewrite (head_append h "=" R t), <- Happ. reflexivity. }
  assert (Hstrip : PyStr.strip (h +:+ "= " +:+ value) = h +:+ String "=" R).
  { unfold PyStr.strip. rewrite Hr. now apply lstrip_head with (c := c). }
  rewrite Hstrip.
  destruct (h +:+ String "=" R) as [|c' rest'] eqn:HN; [discriminate|].
  injection Hhead as ->. cbn [setting_of]. rewrite Ec, <- HN.
  unfold PyStr.split1.
  rewrite (PyStrFacts.partition_head _ _ _ _ R Hp). f_equal. f_equal; [exact Hk|].
  unfold PyStr.strip, R. rewrite PyStrFacts.rstrip_idem.
  fold (PyStr.strip (String " " value)).
  now rewrite strip_space by reflexivity.
Qed.



End DoxyFileReload.
(** ** util.py: the search for the topmost directories with source code *)

Module UtilSpec.

Import Util.

Lemma size_pos e : 0 < size e.
Proof. destruct e; cbn; lia. Qed.

Lemma size_Dir n l : size (Dir n l) = S (list_sum (map size l)).
Proof.
  cbn [size]. f_equal. induction l as [|c l IH]; [reflexivity|].
  cbn [map list_sum]. now rewrite IH.
Qed.

Lemma weight_cons d tape :
  weight (d :: tape)
  = match snd d with Some e => size e | None => 1 end + weight tape.
Proof. reflexivity. Qed.

Lemma weight_app a b : weight (a ++ b) = weight a + weight b.
Proof. unfold weight. now rewrite map_app, list_sum_app. Qed.

(** The entries of a directory that are directories: they are on the tape
    with their paths, and weigh less than the directory. *)
Lemma subdirectories_Dir p n l :
  subdirectories (p, Some (Dir n l))
  = Done (map (fun c => (p ++ [name c], Some c)) (List.filter is_dir l)).
Proof.
  unfold subdirectories, iterdir. f_equal.
  induction l as [|c l IH]; [reflexivity|]. cbn [map List.filter].
  unfold Path_is_dir at 1. cbn [snd]. destruct (is_dir c); cbn [map];
    now rewrite IH.
Qed.

Lemma weight_subdirectories p l :
  weight (map (fun c => (p ++ [name c], Some c)) (List.filter is_dir l))
  <= list_sum (map size l).
Proof.
  induction l as [|c l IH]; [reflexivity|].
  cbn [List.filter map].
  change (list_sum (size c :: map size l))
    with (size c + list_sum (map size l)).
  destruct (is_dir c); [|lia]. cbn [map]. rewrite weight_cons. cbn [snd]. lia.
Qed.

Lemma all_directories_subdirectories p l :
  all_directories
    (map (fun c => (p ++ [name c], Some c)) (List.filter is_dir l)).
Proof.
  intros d Hd. apply in_map_iff in Hd as (c & <- & Hc).
  apply filter_In in Hc as [_ Hc]. destruct c as [|n' l']; [discriminate|].
  cbn. eauto.
Qed.

Lemma all_directories_app a b :
  all_directories a -> all_directories b -> all_directories (a ++ b).
Proof. intros Ha Hb d Hd. apply in_app_iff in Hd as [Hd|Hd]; auto. Qed.

Lemma all_directories_tail d tape :
  all_directories (d :: tape) -> all_directories tape.
Proof. intros H x Hx. apply H. now right. Qed.

Section Pathlib.

Variables (suffix : string -> string) (lower : string -> string).

Local Abbreviation containsSource := (Util.containsSource suffix lower).
Local Abbreviation findDoxygenInputDirs :=
  (Util.findDoxygenInputDirs suffix lower).
Local Abbreviation counts_as_source := (Util.counts_as_source suffix lower).
Local Abbreviation exposed := (Util.exposed suffix lower).

(** [containsSource] of a directory looks at the names of its entries. *)
Lemma containsSource_Dir p n l :
  containsSource (p, Some (Dir n l)) = Done (existsb counts_as_source l).
Proof.
  unfold Util.containsSource, iterdir. f_equal.
  induction l as [|c l IH]; [reflexivity|]. cbn [map existsb]. rewrite IH.
  f_equal. unfold has_source_suffix, Util.counts_as_source, Path_name.
  cbn [fst]. now rewrite last_last.
Qed.

(** More fuel does not change a result. *)
Lemma fuel_enough fuel : forall tape r,
  findDoxygenInputDirs fuel tape = Some r ->
  forall fuel', fuel <= fuel' -> findDoxygenInputDirs fuel' tape = Some r.
Proof.
  induction fuel as [|fuel IH]; intros tape r Hrun fuel' Hle; [discriminate|].
  destruct fuel' as [|fuel']; [lia|]. cbn [Util.findDoxygenInputDirs] in *.
  destruct tape as [|d rest]; [exact Hrun|].
  destruct (containsSource d) as [[|]|e]; [| |exact Hrun].
  - destruct (findDoxygenInputDirs fuel rest) as [[ys e]|] eqn:E;
      [|discriminate].
    rewrite (IH rest _ E fuel') by lia. exact Hrun.
  - destruct (subdirectories d) as [subs|e]; [|exact Hrun].
    apply (IH _ _ Hrun). lia.
Qed.

Lemma runs_to_end fuel : forall tape,
  all_directories tape -> weight tape < fuel ->
  exists ys, findDoxygenInputDirs fuel tape = Some (ys, None).
Proof.
  induction fuel as [|fuel IH]; intros tape Hall Hw; [lia|].
  cbn [Util.findDoxygenInputDirs]. destruct tape as [|[p at_p] rest]; [eauto|].
  destruct (Hall (p, at_p)) as (n & l & Hd); [now left|]. cbn [snd] in Hd.
  subst at_p. rewrite containsSource_Dir.
  rewrite weight_cons in Hw. cbn [snd] in Hw. rewrite size_Dir in Hw.
  apply all_directories_tail in Hall.
  destruct (existsb counts_as_source l).
  - destruct (IH rest Hall) as [ys Hys]; [lia|]. rewrite Hys. eauto.
  - rewrite subdirectories_Dir. apply IH.
    + apply all_directories_app; [exact Hall|].
      apply all_directories_subdirectories.
    + rewrite weight_app. pose proof (weight_subdirectories p l). lia.
Qed.

(** What is yielded, by induction on the rounds of the loop *)
Lemma yields_topmost fuel : forall tape ys e,
  all_directories tape ->
  findDoxygenInputDirs fuel tape = Some (ys, e) ->
  forall p,
    In p ys <->
    exists p0 t0 q n l,
      In (p0, Some t0) tape /\ p = p0 ++ q /\
      exposed t0 q (Dir n l) /\ existsb counts_as_source l = true.
Proof.
  induction fuel as [|fuel IH]; intros tape ys e Hall Hrun p; [discriminate|].
  cbn [Util.findDoxygenInputDirs] in Hrun.
  destruct tape as [|[p0 at0] rest].
  { injection Hrun as <- _. split; [intros []|].
    intros (? & ? & ? & ? & ? & [] & _). }
  destruct (Hall (p0, at0)) as (n & l & Hd); [now left|]. cbn [snd] in Hd.
  subst at0. rewrite containsSource_Dir in Hrun.
  pose proof (all_directories_tail _ _ Hall) as Hrest.
  destruct (existsb counts_as_source l) eqn:Hsrc.
  - destruct (findDoxygenInputDirs fuel rest) as [[ys' e']|] eqn:E;
      [|discriminate].
    injection Hrun as <- <-. cbn [fst]. specialize (IH rest ys' e' Hrest E p).
    split.
    + intros [<-|Hin].
      * exists p0, (Dir n l), [], n, l. split; [now left|].
        split; [now rewrite app_nil_r|]. split; [constructor | exact Hsrc].
      * apply IH in Hin as (p1 & t1 & q & n1 & l1 & Hin & H).
        exists p1, t1, q, n1, l1. split; [now right | exact H].
    + intros (p1 & t1 & q & n1 & l1 & [Hhead|Hin] & -> & Hexp & Hl1).
      * injection Hhead as <- <-. left. inversion Hexp; subst.
        -- now rewrite app_nil_r.
        -- congruence.
      * right. apply IH. exists p1, t1, q, n1, l1. auto.
  - rewrite subdirectories_Dir in Hrun.
    assert (Hall' : all_directories
              (rest ++ map (fun c => (p0 ++ [name c], Some c))
                         (List.filter is_dir l))).
    { apply all_directories_app; [exact Hrest|].
      apply all_directories_subdirectories. }
    specialize (IH _ ys e Hall' Hrun p). rewrite IH. split.
    + intros (p1 & t1 & q & n1 & l1 & Hin & -> & Hexp & Hl1).
      apply in_app_iff in Hin as [Hin|Hin].
      * exists p1, t1, q, n1, l1. split; [now right | auto].
      * apply in_map_iff in Hin as (c & [= <- <-] & Hc).
        apply filter_In in Hc as [Hc Hdir].
        exists p0, (Dir n l), (name c :: q), n1, l1. split; [now left|].
        split; [now rewrite <- app_assoc|]. split; [|exact Hl1].
        now constructor.
    + intros (p1 & t1 & q & n1 & l1 & [Hhead|Hin] & -> & Hexp & Hl1).
      * injection Hhead as <- <-. inversion Hexp; subst; [congruence|].
        exists (p0 ++ [name c]), c, q0, n1, l1. split.
        -- apply in_app_iff. right. apply in_map_iff. exists c.
           split; [reflexivity|]. now apply filter_In.
        -- split; [now rewrite <- app_assoc | auto].
      * exists p1, t1, q, n1, l1. split; [|auto].
        apply in_app_iff. now left.
Qed.

End Pathlib.

(** X14.  On a directory tree (no links), started on paths that lead to
    directories, [findDoxygenInputDirs] comes to its end without raising:
    with fuel for more rounds than there are files and directories below
    the starting paths, the run ends, and it yields the same directories
    whatever the fuel. *)
Theorem findDoxygenInputDirs_terminates
    (suffix lower : string -> string) (tape : list located) :
  all_directories tape ->
  exists ys,
    forall fuel, weight tape < fuel ->
      findDoxygenInputDirs suffix lower fuel tape = Some (ys, None).
Proof.
  intros Hall.
  destruct (runs_to_end suffix lower (S (weight tape)) tape Hall) as [ys Hys];
    [lia|].
  exists ys. intros fuel Hfuel.
  apply (fuel_enough suffix lower _ _ _ Hys). lia.
Qed.

Lemma findDoxygenInputDirs_terminates_witness :
  all_directories UtilExamples.start /\
  exists ys,
    findDoxygenInputDirs UtilExamples.suffix UtilExamples.lower 20
      UtilExamples.start = Some (ys, None) /\
    ys = [["proj"; "src"]; ["proj"; "docs"; "examples"]].
Proof.
  assert (Hall : all_directories UtilExamples.start).
  { intros d [<-|[]]. cbn. eauto. }
  split; [exact Hall|].
  destruct (findDoxygenInputDirs_terminates UtilExamples.suffix
              UtilExamples.lower _ Hall) as [ys Hys].
  specialize (Hys 20). exists ys. split.
  - apply Hys. vm_compute. lia.
  - assert (H : weight UtilExamples.start < 20) by (vm_compute; lia).
    specialize (Hys H). vm_compute in Hys. now injection Hys as <-.
Defined.

(** X15.  [findDoxygenInputDirs] yields the "topmost directories
    containing source code", and nothing else.  Started on paths that lead
    to directories, a path is yielded exactly when it is a starting path
    followed by the names of directories, one inside the other, such that
    the directory it leads to has an entry whose suffix, in lower case, is
    among [SOURCE_EXTENSIONS], and no directory above it on the way, the
    starting one included, has such an entry.  (An entry counts by its name
    alone, whether it is a file or a directory.) *)
Theorem findDoxygenInputDirs_topmost
    (suffix lower : string -> string) (fuel : nat) (tape : list located)
    (ys : list Path) (e : option OSError) :
  all_directories tape ->
  findDoxygenInputDirs suffix lower fuel tape = Some (ys, e) ->
  e = None /\
  forall p,
    In p ys <->
    exists p0 t0 q n l,
      In (p0, Some t0) tape /\ p = p0 ++ q /\
      exposed suffix lower t0 q (Dir n l) /\
      existsb (counts_as_source suffix lower) l = true.
Proof.
  intros Hall Hrun. split.
  - destruct (runs_to_end suffix lower (S (weight tape)) tape Hall)
      as [ys' Hys]; [lia|].
    destruct (Nat.le_ge_cases fuel (S (weight tape))) as [Hle|Hge].
    + rewrite (fuel_enough suffix lower _ _ _ Hrun _ Hle) in Hys. congruence.
    + rewrite (fuel_enough suffix lower _ _ _ Hys _ Hge) in Hrun. congruence.
  - now apply (yields_topmost suffix lower fuel tape ys e).
Qed.

Lemma findDoxygenInputDirs_topmost_witness :
  all_directories UtilExamples.start /\
  findDoxygenInputDirs UtilExamples.suffix UtilExamples.lower 20
    UtilExamples.start
    = Some ([["proj"; "src"]; ["proj"; "docs"; "examples"]], None) /\
  exists p0 t0 q n l,
    In (p0, Some t0) UtilExamples.start /\
    ["proj"; "docs"; "examples"] = p0 ++ q /\
    exposed UtilExamples.suffix UtilExamples.lower t0 q (Dir n l) /\
    existsb (counts_as_source UtilExamples.suffix UtilExamples.lower) l = true.
Proof.
  assert (Hall : all_directories UtilExamples.start).
  { intros d [<-|[]]. cbn. eauto. }
  assert (Hrun : findDoxygenInputDirs UtilExamples.suffix UtilExamples.lower 20
                   UtilExamples.start
                 = Some ([["proj"; "src"]; ["proj"; "docs"; "examples"]], None))
    by (vm_compute; reflexivity).
  split; [exact Hall|]. split; [exact Hrun|].
  destruct (findDoxygenInputDirs_topmost _ _ _ _ _ _ Hall Hrun) as [_ Htop].
  apply Htop. right. now left.
Defined.

End UtilSpec.
(** ** doxygenFunctionInfo.py: the file of a function that has none *)

Module Placeholder.

Import PyDict Doxygen DoxygenFacts.

Lemma rpartition_head_free c m :
  PyStr.contains c m = false -> PyStr.rpartition_head c m = None.
Proof.
  induction m as [|a m IH]; [reflexivity|]. cbn [PyStr.contains].
  intros H. apply orb_false_iff in H as [Ha Hm].
  cbn [PyStr.rpartition_head]. now rewrite (IH Hm), Ha.
Qed.

(** Cutting at the last separator undoes appending a piece without one. *)
Lemma rsplit1_head_append c h m :
  PyStr.contains c m = false ->
  PyStr.rsplit1_head c (h +:+ String c m) = h.
Proof.
  intros Hm. unfold PyStr.rsplit1_head.
  assert (H : PyStr.rpartition_head c (h +:+ String c m) = Some h).
  { induction h as [|a h IH].
    - rewrite PyStrFacts.append_nil. cbn [PyStr.rpartition_head].
      now rewrite (rpartition_head_free c m Hm), Ascii.eqb_refl.
    - rewrite PyStrFacts.append_cons. cbn [PyStr.rpartition_head].
      now rewrite IH. }
  now rewrite H.
Qed.

(** X16.  [bestFile] of a function object that has no file: a FileInfo
    with the empty name is constructed for the document named by the
    reference ID up to its last underscore, with [.xml] appended; it lists
    the function under its name, and the function gets it as its only file,
    under the path of the document.  Nothing else in the registry changes.
    Asked again, [bestFile] returns the same FileInfo and constructs
    nothing.  For a reference ID of the form Doxygen gives, the ID of the
    compound, an underscore, and a member part without underscore, the
    document is that of the compound. *)
Theorem bestFile_placeholder (s : store) (self : addr) :
  self < length (functionInfos s) ->
  files (function_at s self) = [] ->
  exists s1,
    bestFile self s = (Ok (Some (length (fileInfos s))), s1) /\
    length (fileInfos s1) = S (length (fileInfos s)) /\
    file_at s1 (length (fileInfos s))
      = {| file_name := Some "";
           functions := [(name (function_at s self), self)];
           _xml := None;
           xmlFilename :=
             PyStr.rsplit1_head "_" (refid (function_at s self)) +:+ ".xml" |} /\
    files (function_at s1 self)
      = [(ByPath (PyStr.rsplit1_head "_" (refid (function_at s self))
                  +:+ ".xml"),
          length (fileInfos s))] /\
    name (function_at s1 self) = name (function_at s self) /\
    refid (function_at s1 self) = refid (function_at s self) /\
    (forall b, b <> self -> function_at s1 b = function_at s b) /\
    (forall b, b < length (fileInfos s) -> file_at s1 b = file_at s b) /\
    info s1 = info s /\ stdout s1 = stdout s /\
    bestFile self s1 = (Ok (Some (length (fileInfos s))), s1) /\
    (forall compound member,
       refid (function_at s self) = compound +:+ "_" +:+ member ->
       PyStr.contains "_" member = false ->
       xmlFilename (file_at s1 (length (fileInfos s)))
         = compound +:+ ".xml").
Proof.
  intros Hself Hfiles.
  set (doc := PyStr.rsplit1_head "_" (refid (function_at s self)) +:+ ".xml").
  set (a := length (fileInfos s)).
  set (new := {| file_name := Some ""; functions := []; _xml := None;
                 xmlFilename := doc |}).
  set (t := {| info := info s; functionInfos := functionInfos s;
               fileInfos := fileInfos s ++ [new]; stdout := stdout s |}).
  set (s1 := with_function self (set_function_file (ByPath doc) a)
               (with_file a (set_file_function (name (function_at s self)) self)
                  t)).
  assert (Hrun : bestFile self s = (Ok (Some a), s1)).
  { unfold bestFile, bind, gets. rewrite Hfiles. reflexivity. }
  assert (Hfile : file_at s1 a
            = set_file_function (name (function_at s self)) self new).
  { unfold s1, file_at, with_function, with_file. cbn [fileInfos t].
    rewrite list_lookup_alter_eq.
    rewrite lookup_app_r by (unfold a; lia).
    unfold a. now rewrite Nat.sub_diag. }
  assert (Hfn : function_at s1 self
            = set_function_file (ByPath doc) a (function_at s self)).
  { unfold s1. rewrite function_at_with_function_eq by exact Hself.
    reflexivity. }
  exists s1. split; [exact Hrun|]. split.
  { unfold s1, with_function, with_file. cbn [fileInfos t].
    rewrite length_alter, length_app. cbn [length]. unfold a. lia. }
  split; [rewrite Hfile; reflexivity|].
  split; [rewrite Hfn; cbn [files set_function_file]; now rewrite Hfiles|].
  split; [now rewrite Hfn|]. split; [now rewrite Hfn|].
  split.
  { intros b Hb. unfold s1.
    now rewrite function_at_with_function_ne by congruence. }
  split.
  { intros b Hb. unfold s1, file_at, with_function, with_file.
    cbn [fileInfos t]. rewrite list_lookup_alter_ne by (unfold a; lia).
    now rewrite lookup_app_l by exact Hb. }
  split; [reflexivity|]. split; [reflexivity|]. split.
  { apply (BestFile.bestFile_single s1 self (ByPath doc) a).
    rewrite Hfn. cbn [files set_function_file]. now rewrite Hfiles. }
  intros compound member Hrid Hmember. rewrite Hfile.
  cbn [xmlFilename set_file_function new]. unfold doc. rewrite Hrid.
  change (compound +:+ "_" +:+ member) with (compound +:+ String "_" member).
  now rewrite rsplit1_head_append.
Qed.

Lemma bestFile_placeholder_witness :
  0 < length (functionInfos DoxygenExamples.orphan) /\
  files (function_at DoxygenExamples.orphan 0) = [] /\
  exists s1,
    bestFile 0 DoxygenExamples.orphan = (Ok (Some 0), s1) /\
    xmlFilename (file_at s1 0) = "main_8c.xml" /\
    bestFile 0 s1 = (Ok (Some 0), s1).
Proof.
  assert (H0 : 0 < length (functionInfos DoxygenExamples.orphan)) by (cbn; lia).
  assert (Hf : files (function_at DoxygenExamples.orphan 0) = [])
    by reflexivity.
  split; [exact H0|]. split; [exact Hf|].
  destruct (bestFile_placeholder _ 0 H0 Hf)
    as (s1 & Hrun & _ & _ & _ & _ & _ & _ & _ & _ & _ & Hagain & Hdoc).
  exists s1. split; [exact Hrun|]. split; [|exact Hagain].
  apply (Hdoc "main_8c" "1ab"); reflexivity.
Defined.

End Placeholder.
(** ** doxygenFunctionInfo.py: a function whose document is missing *)

Module MissingDocument.

Import PyDict Doxygen DoxygenFacts.

(** X17.  A function with one file whose document is missing on disk (and
    not cached).  Reading [xml] prints that the file was not found and, as
    the placeholder holds no element with the ID of the function, that the
    ID was not found; it returns the empty list and caches the placeholder.
    Then [getDefinitionLocation] and [getDeclarationLocation] raise
    [UnboundLocalError], as their loops never bind [filename], whereas
    [thisCallsFunctions] yields nothing and does not raise. *)
Theorem missing_document_gives_no_location
    (w : World) (s : store) (self b : addr) (k : filekey)
    (includeRow includeColumn includeSpan : bool) :
  files (function_at s self) = [(k, b)] ->
  _xml (file_at s b) = None ->
  compound_xml w (xmlFilename (file_at s b)) = Absent ->
  let s' :=
    with_stdout
      ("refid " +:+ refid (function_at s self) +:+ " not found in " +:+ quote
       +:+ str_of (file_name (file_at s b)) +:+ quote)
      (with_file b (set_xml (ET.Element_ "file_not_found"))
         (with_stdout
            ("ERR: " +:+ quote +:+ xmlFilename (file_at s b) +:+ quote
             +:+ " not found") s)) in
  FunctionInfo_xml w self s = (Ok [], s') /\
  getDefinitionLocation w self includeRow includeColumn includeSpan s
    = (Raise (UnboundLocalError "filename"), s') /\
  getDeclarationLocation w self includeRow includeColumn includeSpan s
    = (Raise (UnboundLocalError "filename"), s') /\
  thisCallsFunctions w self None s = (([], None), s').
Proof.
  intros Hfiles Hxml Habsent s'.
  assert (Hname : forall t,
            file_name (file_at
                         (with_file b (set_xml (ET.Element_ "file_not_found")) t)
                         b)
            = file_name (file_at t b)).
  { intros t. rewrite IndexParse.file_at_alter, decide_True by reflexivity.
    unfold file_at. now destruct (fileInfos t !! b). }
  assert (Hnone : forall rid,
            ET.findall_id rid (ET.Element_ "file_not_found") = [])
    by reflexivity.
  assert (Hrun : FunctionInfo_xml w self s = (Ok [], s')).
  { unfold FunctionInfo_xml, bind, gets. rewrite Hfiles.
    cbn [values map snd fold_each]. unfold bind, gets.
    unfold FileInfo_xml, bind, gets. rewrite Hxml, Habsent.
    unfold print, modify, ret.
    rewrite (Hnone (refid _)). cbn [is_nil].
    unfold bestFile_name, bind.
    rewrite (BestFile.bestFile_single _ self k b) by exact Hfiles.
    unfold gets. rewrite Hname. reflexivity. }
  split; [exact Hrun|]. split; [|split].
  - unfold getDefinitionLocation, bind. now rewrite Hrun.
  - unfold getDeclarationLocation, bind. now rewrite Hrun.
  - unfold thisCallsFunctions. now rewrite Hrun.
Qed.

Lemma missing_document_gives_no_location_witness :
  let w := DoxygenExamples.same_name_files in
  let s := DoxygenExamples.parsed w in
  files (function_at s 0) = [(ByName (Some "util.h"), 1)] /\
  _xml (file_at s 1) = None /\
  compound_xml w (xmlFilename (file_at s 1)) = Absent /\
  fst (getDefinitionLocation w 0 true true false s)
    = Raise (UnboundLocalError "filename") /\
  fst (thisCallsFunctions w 0 None s) = ([], None).
Proof.
  cbv zeta.
  assert (H1 : files (function_at
                 (DoxygenExamples.parsed DoxygenExamples.same_name_files) 0)
               = [(ByName (Some "util.h"), 1)]) by reflexivity.
  assert (H2 : _xml (file_at
                 (DoxygenExamples.parsed DoxygenExamples.same_name_files) 1)
               = None) by reflexivity.
  assert (H3 : compound_xml DoxygenExamples.same_name_files
                 (xmlFilename (file_at
                    (DoxygenExamples.parsed DoxygenExamples.same_name_files) 1))
               = Absent) by reflexivity.
  split; [exact H1|]. split; [exact H2|]. split; [exact H3|].
  destruct (missing_document_gives_no_location
              DoxygenExamples.same_name_files _ 0 1 _ true true false H1 H2 H3)
    as (_ & Hdef & _ & Hcalls).
  rewrite Hdef, Hcalls. split; reflexivity.
Defined.

End MissingDocument.
(** ** doxygenInfo.py: what the index parse registers, and what it forgets *)

Module IndexMore.

Import PyDict Doxygen DoxygenFacts Invariants IndexParse.

Lemma link_parents fileInfo f s a :
  _parentReferences (function_at (link fileInfo f s) a)
  = _parentReferences (function_at s a).
Proof.
  unfold link. rewrite function_at_alter.
  destruct (decide (f = a)) as [->|]; [|reflexivity].
  unfold function_at, with_file. cbn [functionInfos].
  now destruct (functionInfos s !! a).
Qed.

Section Only.
Variable s0 : store.

Local Abbreviation only := (Invariants.listed_only s0).

Lemma only_start : only [] (with_info reset_index s0).
Proof.
  constructor.
  - reflexivity.
  - cbn. lia.
  - intros rid a H. discriminate H.
  - intros a. change (function_at (with_info reset_index s0) a)
      with (function_at s0 a).
    destruct (a <? length (functionInfos s0)) eqn:E; [reflexivity|].
    apply Nat.ltb_ge in E. now rewrite function_at_beyond.
Qed.

Lemma only_more log log' s : only log s -> only (log ++ log') s.
Proof.
  intros [Hf Hl Hr Hp]. constructor; try assumption.
  intros rid a H. destruct (Hr rid a H) as [j Hj]. exists j.
  apply in_app_iff. now left.
Qed.

Lemma only_link log s fileInfo f : only log s -> only log (link fileInfo f s).
Proof.
  intros [Hf Hl Hr Hp]. constructor.
  - now rewrite link_info.
  - now rewrite link_functions_length.
  - rewrite link_info. exact Hr.
  - intros a. now rewrite link_parents.
Qed.

Lemma only_register log s n rid j :
  only log s -> only (log ++ [(j, rid)]) (register n rid s).
Proof.
  intros [Hf Hl Hr Hp]. constructor.
  - exact Hf.
  - rewrite register_functions, length_app. cbn [length]. lia.
  - intros rid' a. rewrite register_references.
    destruct (decide (rid = rid')) as [<-|Hne].
    + intros _. exists j. apply in_app_iff. right. now left.
    + rewrite PyDictFacts.get_set_ne by exact Hne. intros H.
      destruct (Hr rid' a H) as [j' Hj']. exists j'. apply in_app_iff.
      now left.
  - intros a. destruct (Nat.lt_trichotomy a (length (functionInfos s)))
      as [Hlt|[->|Hgt]].
    + rewrite register_old by exact Hlt. apply Hp.
    + rewrite register_new. cbn [_parentReferences].
      now replace (length (functionInfos s) <? length (functionInfos s0))
        with false by (symmetry; apply Nat.ltb_ge; lia).
    + rewrite function_at_beyond
        by (rewrite register_functions, length_app; cbn [length]; lia).
      now replace (a <? length (functionInfos s0))
        with false by (symmetry; apply Nat.ltb_ge; lia).
Qed.

Lemma only_member log s fileInfo j m s' :
  only log s ->
  reparse_member fileInfo m s = (Ok tt, s') ->
  only (log ++ map (pair j) (member_refid m)) s'.
Proof.
  intros Ho Hrun.
  apply reparse_member_returns in Hrun
    as (rid & kind & Erid & Ekind & [[Hk ->]|[-> Hcase]]).
  - now apply only_more.
  - unfold member_refid. rewrite Ekind, decide_True, Erid by reflexivity.
    cbn [map]. destruct Hcase as [(f & Hf & ->)|(Hnone & n & ->)].
    + apply only_link. now apply only_more.
    + apply only_link. now apply only_register.
Qed.

Lemma only_compound done c s1 s2 :
  only (entries done) s1 ->
  compound_body c s1 = (Ok tt, s2) ->
  only (entries (done ++ [c])) s2.
Proof.
  intros Ho Hrun. unfold compound_body in Hrun.
  apply bind_returns in Hrun as (rid & t & Hrid & Hrun).
  unfold lift in Hrid. injection Hrid as _ <-.
  apply bind_returns in Hrun as (n & t & Hn & Hrun).
  unfold lift in Hn. injection Hn as _ <-.
  apply bind_returns in Hrun as (fileInfo & t & Hnew & Hrun).
  assert (Ht : only (entries done) t).
  { unfold new_file in Hnew. injection Hnew as _ <-.
    destruct Ho as [Hf Hl Hr Hp]. constructor; assumption. }
  rewrite entries_snoc. unfold member_refids.
  pose (I := fun (mdone : list ET.Element) (s : store) =>
               only (entries done ++
                     map (pair (length done)) (flat_map member_refid mdone)) s).
  change (I ([] ++ ET.findall "member" c) s2).
  eapply (for_each_returns I); [| |exact Hrun].
  - intros mdone m u1 u2 HI Hm. unfold I in *.
    rewrite flat_map_app, map_app, app_assoc. cbn [flat_map].
    rewrite app_nil_r. eapply only_member; eassumption.
  - unfold I. cbn [flat_map map]. now rewrite app_nil_r.
Qed.

Lemma reparse_listed_only w root s :
  index_xml w = Parsed root ->
  _reparseXmlIndex w s0 = (Ok tt, s) ->
  only (index_entries root) s.
Proof.
  intros Hroot Hrun. unfold _reparseXmlIndex in Hrun.
  apply bind_returns in Hrun as ([] & t & Hreset & Hrun).
  unfold modify in Hreset. injection Hreset as <-.
  apply bind_returns in Hrun as (root' & t & Hxml & Hrun).
  unfold Info_xml in Hxml. rewrite Hroot in Hxml.
  unfold ret in Hxml. injection Hxml as <- <-.
  apply reparse_compounds in Hrun.
  change (only (entries ([] ++ file_compounds root)) s).
  eapply (for_each_returns (fun done u => only (entries done) u));
    [| |exact Hrun].
  - intros done c u1 u2. apply only_compound.
  - apply only_start.
Qed.

End Only.

(** The entries of the index, spelled out *)
Lemma index_entries_listed root j rid :
  In (j, rid) (index_entries root) ->
  exists c m,
    In c (ET.findall_below "compound" root) /\
    ET.attrib_get c "kind" "" = "file" /\
    In m (ET.findall "member" c) /\
    get (ET.attrib m) "kind" = Some "function" /\
    get (ET.attrib m) "refid" = Some rid.
Proof.
  unfold index_entries. intros H. apply in_concat in H as (l & Hl & Hin).
  apply list_elem_of_In, list_elem_of_lookup_1 in Hl as [i Hi].
  rewrite list_lookup_imap in Hi.
  destruct (file_compounds root !! i) as [c|] eqn:Ec; [|discriminate].
  cbn in Hi. injection Hi as <-.
  apply in_map_iff in Hin as (rid' & [= <- <-] & Hrid).
  unfold member_refids in Hrid. apply in_flat_map in Hrid as (m & Hm & Hrid).
  unfold member_refid in Hrid.
  destruct (decide (get (ET.attrib m) "kind" = Some "function")) as [Hk|];
    [|destruct Hrid].
  destruct (get (ET.attrib m) "refid") as [r|] eqn:Er; [|destruct Hrid].
  destruct Hrid as [->|[]].
  apply list_elem_of_lookup_2, list_elem_of_In in Ec.
  unfold file_compounds in Ec.
  apply list_elem_of_In, list_elem_of_filter in Ec as [Hkind Hc].
  exists c, m. split; [now apply list_elem_of_In|]. auto.
Qed.

Lemma listed_index_entries root c m rid :
  In c (ET.findall_below "compound" root) ->
  ET.attrib_get c "kind" "" = "file" ->
  In m (ET.findall "member" c) ->
  get (ET.attrib m) "kind" = Some "function" ->
  get (ET.attrib m) "refid" = Some rid ->
  exists j, In (j, rid) (index_entries root).
Proof.
  intros Hc Hkind Hm Hk Hr.
  assert (Hfc : In c (file_compounds root)).
  { unfold file_compounds. apply list_elem_of_In, list_elem_of_filter.
    split; [exact Hkind | now apply list_elem_of_In]. }
  apply list_elem_of_In, list_elem_of_lookup_1 in Hfc as [j Hj].
  exists j. unfold index_entries. apply in_concat.
  exists (map (pair j) (member_refids c)). split.
  - apply list_elem_of_In. apply (list_elem_of_lookup_2 _ j).
    rewrite list_lookup_imap, Hj. reflexivity.
  - apply in_map. unfold member_refids. apply in_flat_map. exists m.
    split; [exact Hm|]. unfold member_refid.
    rewrite decide_True by exact Hk. rewrite Hr. now left.
Qed.

(** X18.  After a parse of the index that returns, the reference IDs of
    the registry are exactly those of the members of kind [function] listed
    under the compounds of kind [file]: every such member is registered, and
    nothing else is (no member of another kind, and no member of a compound
    of another kind, such as a class or a namespace, unless a file lists it
    too). *)
Theorem registered_iff_listed
    (w : World) (s0 s : store) (root : ET.Element) (rid : string) :
  index_xml w = Parsed root ->
  _reparseXmlIndex w s0 = (Ok tt, s) ->
  (exists a, get (_references (info s)) rid = Some a) <->
  (exists c m,
     In c (ET.findall_below "compound" root) /\
     ET.attrib_get c "kind" "" = "file" /\
     In m (ET.findall "member" c) /\
     get (ET.attrib m) "kind" = Some "function" /\
     get (ET.attrib m) "refid" = Some rid).
Proof.
  intros Hroot Hrun. split.
  - intros [a Ha].
    destruct (reparse_listed_only s0 w root s Hroot Hrun) as [_ _ Hr _].
    destruct (Hr rid a Ha) as [j Hj]. now apply index_entries_listed in Hj.
  - intros (c & m & Hc & Hkind & Hm & Hk & Hr).
    destruct (listed_index_entries root c m rid Hc Hkind Hm Hk Hr) as [j Hj].
    destruct (reparse_pass w s0 root s Hroot Hrun)
      as [_ _ _ _ _ _ _ _ Hlinked].
    destruct (Hlinked j rid Hj) as (a & _ & _ & Ha & _). eauto.
Qed.

Lemma registered_iff_listed_witness :
  let w := DoxygenExamples.main_helper in
  exists root,
    index_xml w = Parsed root /\
    _reparseXmlIndex w init = (Ok tt, DoxygenExamples.parsed w) /\
    get (_references (info (DoxygenExamples.parsed w))) "main_8c_1b" = Some 1 /\
    exists c m,
      In c (ET.findall_below "compound" root) /\
      ET.attrib_get c "kind" "" = "file" /\
      In m (ET.findall "member" c) /\
      get (ET.attrib m) "kind" = Some "function" /\
      get (ET.attrib m) "refid" = Some "main_8c_1b".
Proof.
  cbv zeta. eexists. split; [reflexivity|].
  assert (Hrun : _reparseXmlIndex DoxygenExamples.main_helper init
                 = (Ok tt, DoxygenExamples.parsed DoxygenExamples.main_helper))
    by reflexivity.
  split; [exact Hrun|]. split; [reflexivity|].
  apply (registered_iff_listed DoxygenExamples.main_helper init _ _
           "main_8c_1b" eq_refl Hrun).
  exists 1. reflexivity.
Defined.

(** X19.  A parse of the index does not touch the flag that says the back
    references are computed, and the function objects it constructs have
    none.  So when the index is parsed again after the back references were
    computed, every function of the new registry reports no caller:
    [functionsCallThis] returns the empty list and computes nothing, and
    [isRoot] holds of every function, whatever the calls are. *)
Theorem reparse_forgets_callers
    (w : World) (s0 s : store) (rid : string) (a : addr) :
  _functionBackreferencesCalculated (info s0) = true ->
  _reparseXmlIndex w s0 = (Ok tt, s) ->
  get (_references (info s)) rid = Some a ->
  length (functionInfos s0) <= a /\
  _parentReferences (function_at s a) = [] /\
  functionsCallThis w a s = (Ok [], s) /\
  isRoot w (CallGraph a) s = (Ok true, s).
Proof.
  intros Hflag Hrun Ha.
  assert (exists root, index_xml w = Parsed root) as [root Hroot].
  { unfold _reparseXmlIndex in Hrun.
    apply bind_returns in Hrun as ([] & t & _ & Hrun).
    apply bind_returns in Hrun as (root & t' & Hxml & _).
    unfold Info_xml in Hxml. destruct (index_xml w); try discriminate. eauto. }
  destruct (reparse_listed_only s0 w root s Hroot Hrun) as [Hf _ _ Hp].
  destruct (reparse_pass w s0 root s Hroot Hrun) as [_ _ _ Hrefs _ _ _ _ _].
  destruct (Hrefs rid a Ha) as [[Hge _] _].
  assert (Hnone : _parentReferences (function_at s a) = []).
  { rewrite Hp. now replace (a <? length (functionInfos s0))
      with false by (symmetry; apply Nat.ltb_ge; lia). }
  assert (Hdone : calculateFunctionBackreferences w false s = (Ok tt, s)).
  { apply CallGraphSpec.calculate_done. now rewrite Hf. }
  split; [exact Hge|]. split; [exact Hnone|]. split.
  - unfold functionsCallThis, bind. rewrite Hdone. unfold gets.
    now rewrite Hnone.
  - rewrite (CallGraphSpec.isRoot_after w s s _ Hdone). cbn [fn CallGraph].
    now rewrite Hnone.
Qed.

Lemma reparse_forgets_callers_witness :
  let w := DoxygenExamples.main_helper in
  let s0 := DoxygenExamples.linked w in
  let s := snd (_reparseXmlIndex w s0) in
  _functionBackreferencesCalculated (info s0) = true /\
  _parentReferences (function_at s0 1) = [mkCallLocation 0 "main.c:4"] /\
  _reparseXmlIndex w s0 = (Ok tt, s) /\
  get (_references (info s)) "main_8c_1b" = Some 3 /\
  functionsCallThis w 3 s = (Ok [], s) /\
  fst (fst (thisCallsFunctions w 2 None s)) = [mkCallLocation 3 "main.c:4"].
Proof.
  cbv zeta.
  assert (Hflag : _functionBackreferencesCalculated
                    (info (DoxygenExamples.linked DoxygenExamples.main_helper))
                  = true) by reflexivity.
  assert (Hrun : _reparseXmlIndex DoxygenExamples.main_helper
                   (DoxygenExamples.linked DoxygenExamples.main_helper)
                 = (Ok tt,
                    snd (_reparseXmlIndex DoxygenExamples.main_helper
                           (DoxygenExamples.linked DoxygenExamples.main_helper))))
    by reflexivity.
  assert (Ha : get (_references (info
                 (snd (_reparseXmlIndex DoxygenExamples.main_helper
                         (DoxygenExamples.linked DoxygenExamples.main_helper)))))
                 "main_8c_1b" = Some 3) by reflexivity.
  split; [exact Hflag|]. split; [reflexivity|]. split; [exact Hrun|].
  split; [exact Ha|]. split.
  - exact (proj1 (proj2 (proj2
             (reparse_forgets_callers _ _ _ _ _ Hflag Hrun Ha)))).
  - vm_compute. reflexivity.
Defined.

End IndexMore.
(** ** doxygenInfo.py: the back references, exactly *)

Module BackReferencesExact.

Import PyDict Doxygen DoxygenFacts Invariants ForwardCalls BackReferences.

(** One call recorded: the callee gets one more back reference. *)
Lemma record_exact f call s a :
  cl_fn call < length (functionInfos s) ->
  _parentReferences
    (function_at
       (with_function (cl_fn call)
          (append_parent (mkCallLocation f (cl_location call))) s) a)
  = _parentReferences (function_at s a)
    ++ (if Nat.eqb (cl_fn call) a
        then [mkCallLocation f (cl_location call)] else []).
Proof.
  intros Hlt. rewrite IndexParse.function_at_alter.
  destruct (decide (cl_fn call = a)) as [Heq|Hne].
  - rewrite <- Heq, Nat.eqb_refl.
    rewrite (function_at_valid s _ Hlt). reflexivity.
  - replace (Nat.eqb (cl_fn call) a) with false
      by (symmetry; now apply Nat.eqb_neq).
    now rewrite app_nil_r.
Qed.

Lemma for_each_record_exact f (calls : list CallLocation) : forall s u,
  (forall c, In c calls -> cl_fn c < length (functionInfos s)) ->
  for_each calls (record f) s = (Ok tt, u) ->
  forall a,
    _parentReferences (function_at u a)
    = _parentReferences (function_at s a)
      ++ map (fun c => mkCallLocation f (cl_location c))
           (List.filter (fun c => Nat.eqb (cl_fn c) a) calls).
Proof.
  induction calls as [|call calls IH]; intros s u Hvalid Hrun a.
  - cbn in Hrun. injection Hrun as <-. cbn. now rewrite app_nil_r.
  - cbn [for_each] in Hrun. unfold bind, record at 1, modify in Hrun.
    match type of Hrun with
    | for_each _ _ ?s1 = _ =>
        assert (Hv : forall c, In c calls ->
                  cl_fn c < length (functionInfos s1))
    end.
    { intros c Hc. unfold with_function. cbn [functionInfos].
      rewrite length_alter. apply Hvalid. now right. }
    rewrite (IH _ u Hv Hrun a).
    rewrite record_exact by (apply Hvalid; now left).
    cbn [List.filter]. destruct (Nat.eqb (cl_fn call) a); cbn [map].
    + now rewrite <- app_assoc.
    + now rewrite app_nil_r.
Qed.

Section Calculate.
Variables (w : World) (s : store).
Hypothesis Hok : registry_ok w s.
Hypothesis Hrefs : _references (info s) <> [].

Local Abbreviation back_from := (Invariants.back_from w s).

(** One round of the outer loop: the callees of [f] get their back
    references, and nobody else gets one. *)
Lemma round_exact f u1 u2 :
  grown s u1 -> cache_ok w u1 ->
  consume (thisCallsFunctions w f None) (record f) u1 = (Ok tt, u2) ->
  forall a,
    _parentReferences (function_at u2 a)
    = _parentReferences (function_at u1 a) ++ back_from a f.
Proof.
  intros Hg Hc Hrun a.
  pose proof (calls_of_grown w s Hok Hrefs u1 f Hg Hc) as Hcalls.
  assert (Hrefs1 : _references (info u1) <> []).
  { now rewrite <- (alike_references _ _ (grown_alike _ _ Hg)). }
  unfold consume in Hrun.
  destruct (thisCallsFunctions w f None u1) as [[calls e] v] eqn:E.
  cbn [fst] in Hcalls. subst calls.
  destruct (thisCallsFunctions_yields w f u1 _ e v Hc Hrefs1 E)
    as (Hcv & _ & _ & Hin).
  destruct (for_each (calls_of w s f) (record f) v) as [[[]|e'] u] eqn:Eu;
    [|discriminate].
  destruct e as [e|]; [discriminate|]. injection Hrun as <-.
  assert (Hv : forall c, In c (calls_of w s f) ->
            cl_fn c < length (functionInfos v)).
  { intros c Hcin. destruct (Hin c Hcin) as (_ & rid & Hrid).
    rewrite <- (alike_references _ _ (grown_alike _ _ Hg)) in Hrid.
    destruct Hok as (_ & Hro & _). destruct (Hro rid _ Hrid) as [Hlt _].
    rewrite (same_functionInfos _ _ Hcv), (grown_length _ _ Hg). exact Hlt. }
  rewrite (for_each_record_exact f _ v u Hv Eu a).
  now rewrite (caches_only_function_at _ _ a Hcv).
Qed.

Lemma rounds_exact (fs : list addr) u :
  for_each fs (fun f => consume (thisCallsFunctions w f None) (record f)) s
    = (Ok tt, u) ->
  grown s u /\ cache_ok w u /\
  forall a,
    _parentReferences (function_at u a)
    = _parentReferences (function_at s a) ++ flat_map (back_from a) fs.
Proof.
  intros Hrun.
  pose (Inv := fun (done : list addr) (t : store) =>
          grown s t /\ cache_ok w t /\
          forall a,
            _parentReferences (function_at t a)
            = _parentReferences (function_at s a)
              ++ flat_map (back_from a) done).
  change (Inv ([] ++ fs) u).
  eapply (IndexParse.for_each_returns Inv); [| |exact Hrun].
  - intros done f u1 u2 (Hg & Hc & Hdone) Hround.
    destruct (round_records w s Hok Hrefs f u1 u2 Hg Hc Hround)
      as (Hg2 & Hc2 & _).
    split; [eapply grown_trans; eassumption|]. split; [exact Hc2|].
    intros a. rewrite (round_exact f u1 u2 Hg Hc Hround a), Hdone.
    rewrite flat_map_app. cbn [flat_map]. now rewrite app_nil_r, app_assoc.
  - split; [apply grown_refl|]. split; [apply Hok|]. intros a. cbn.
    now rewrite app_nil_r.
Qed.

End Calculate.

(** What a computation of the back references that returns has done *)
Lemma calculate_exact w s s' force :
  registry_ok w s -> _functions (info s) <> [] ->
  force = true \/ _functionBackreferencesCalculated (info s) = false ->
  calculateFunctionBackreferences w force s = (Ok tt, s') ->
  grown s s' /\ cache_ok w s' /\
  _functionBackreferencesCalculated (info s') = true /\
  forall a,
    _parentReferences (function_at s' a)
    = _parentReferences (function_at s a)
      ++ flat_map (back_from w s a) (values (_functions (info s))).
Proof.
  intros Hok Hfuns Hrun Hcalc.
  pose proof (CallGraphSpec.calculate_sets_flag w _ _ _ Hcalc) as Hflag.
  assert (Hrefs : _references (info s) <> []).
  { destruct (_functions (info s)) as [|[n a] l] eqn:E; [contradiction|].
    destruct Hok as (_ & _ & Hfo). specialize (Hfo n a).
    rewrite E in Hfo. specialize (Hfo (or_introl eq_refl)).
    destruct (_references (info s)); [discriminate Hfo | discriminate]. }
  unfold calculateFunctionBackreferences in Hcalc.
  apply bind_returns in Hcalc as (done & t & Hdone & Hcalc).
  unfold gets in Hdone. injection Hdone as <- <-.
  assert (Hcond : force || negb (_functionBackreferencesCalculated (info s))
                  = true).
  { destruct Hrun as [->| ->]; [reflexivity | apply orb_true_r]. }
  rewrite Hcond in Hcalc.
  apply bind_returns in Hcalc as (fs & t & Hfs & Hcalc).
  assert (Hread : Info_functions w s = (Ok (_functions (info s)), s)).
  { unfold Info_functions, bind, gets.
    destruct (_functions (info s)); [contradiction | reflexivity]. }
  rewrite Hread in Hfs. injection Hfs as <- <-.
  apply bind_returns in Hcalc as ([] & u & Hloop & Hcalc).
  unfold modify in Hcalc. injection Hcalc as <-.
  destruct (rounds_exact w s Hok Hrefs _ u Hloop) as (Hg & Hc & Hexact).
  split; [|split; [exact Hc|split; [exact Hflag | exact Hexact]]].
  eapply grown_trans; [exact Hg|]. constructor; auto using alike_refl.
  now constructor.
Qed.

Lemma grown_registry_ok w s u :
  registry_ok w s -> grown s u -> cache_ok w u -> registry_ok w u.
Proof.
  intros (_ & Hro & Hfo) Hg Hc. pose proof (grown_alike _ _ Hg) as Ha.
  split; [exact Hc|]. split.
  - intros rid a. rewrite <- (alike_references _ _ Ha). intros H.
    destruct (Hro rid a H) as [Hlt Hrid]. split.
    + now rewrite (grown_length _ _ Hg).
    + now rewrite <- (alike_refid _ _ Ha).
  - intros n a. rewrite <- (alike_functions _ _ Ha),
      <- (alike_references _ _ Ha), <- (alike_refid _ _ Ha). apply Hfo.
Qed.

(** X20.  The back references hold nothing but forward calls.  In a
    registry that is in order, holds a function, and has no back reference
    yet, after [calculateFunctionBackreferences] has run and returned, every
    back reference of a function [G] names a function [F] that the registry
    has under its name and whose [thisCallsFunctions] yields a call to [G]
    with the location of the back reference; and [F] is not [G] itself: a
    function that calls itself is not its own parent. *)
Theorem back_references_sound
    (w : World) (s s' : store) (force : bool) (G : addr)
    (back : CallLocation) :
  registry_ok w s -> _functions (info s) <> [] ->
  no_back_references s ->
  force = true \/ _functionBackreferencesCalculated (info s) = false ->
  calculateFunctionBackreferences w force s = (Ok tt, s') ->
  In back (_parentReferences (function_at s' G)) ->
  In (cl_fn back) (values (_functions (info s))) /\
  In (mkCallLocation G (cl_location back))
     (fst (fst (thisCallsFunctions w (cl_fn back) None s'))) /\
  cl_fn back <> G.
Proof.
  intros Hok Hfuns Hfresh Hrun Hcalc Hback.
  assert (Hrefs : _references (info s) <> []).
  { destruct (_functions (info s)) as [|[n a] l] eqn:E; [contradiction|].
    destruct Hok as (_ & _ & Hfo). specialize (Hfo n a).
    rewrite E in Hfo. specialize (Hfo (or_introl eq_refl)).
    destruct (_references (info s)); [discriminate Hfo | discriminate]. }
  destruct (calculate_exact w s s' force Hok Hfuns Hrun Hcalc)
    as (Hg & Hc & _ & Hexact).
  rewrite Hexact, Hfresh in Hback. cbn [app] in Hback.
  apply in_flat_map in Hback as (F & HF & Hback).
  unfold back_from in Hback. apply in_map_iff in Hback as (c & <- & Hc').
  apply filter_In in Hc' as [Hcall Hfn]. apply Nat.eqb_eq in Hfn.
  cbn [cl_fn cl_location]. split; [exact HF|]. split.
  - rewrite (calls_of_grown w s Hok Hrefs s' F Hg Hc).
    destruct c as [g loc]. cbn [cl_fn cl_location] in *. now subst g.
  - unfold calls_of in Hcall.
    destruct (thisCallsFunctions w F None s) as [[calls e] v] eqn:E.
    cbn [fst] in Hcall.
    destruct (thisCallsFunctions_yields w F s calls e v (proj1 Hok) Hrefs E)
      as (_ & _ & _ & Hin).
    destruct (Hin c Hcall) as (Hne & _). intros ->. now rewrite Hfn in Hne.
Qed.

Lemma main_helper_fresh :
  no_back_references (DoxygenExamples.parsed DoxygenExamples.main_helper).
Proof. intros [|[|[|a]]]; reflexivity. Qed.

Lemma back_references_sound_witness :
  let w := DoxygenExamples.main_helper in
  let s := DoxygenExamples.parsed w in
  let s' := DoxygenExamples.linked w in
  registry_ok w s /\ no_back_references s /\
  calculateFunctionBackreferences w false s = (Ok tt, s') /\
  _parentReferences (function_at s' 1) = [mkCallLocation 0 "main.c:4"] /\
  In (mkCallLocation 1 "main.c:4") (fst (fst (thisCallsFunctions w 0 None s'))).
Proof.
  cbv zeta.
  assert (Hok : registry_ok DoxygenExamples.main_helper
                  (DoxygenExamples.parsed DoxygenExamples.main_helper)).
  { apply (IndexParse.reparse_registry_ok _ init);
      [apply IndexParse.init_cache_ok | reflexivity]. }
  assert (Hcalc : calculateFunctionBackreferences DoxygenExamples.main_helper
                    false (DoxygenExamples.parsed DoxygenExamples.main_helper)
                  = (Ok tt, DoxygenExamples.linked DoxygenExamples.main_helper))
    by (vm_compute; reflexivity).
  assert (Hback : In (mkCallLocation 0 "main.c:4")
            (_parentReferences
               (function_at
                  (DoxygenExamples.linked DoxygenExamples.main_helper) 1)))
    by (left; reflexivity).
  split; [exact Hok|]. split; [exact main_helper_fresh|].
  split; [exact Hcalc|]. split; [reflexivity|].
  refine (proj1 (proj2 (back_references_sound _ _ _ false 1 _ Hok _
                          main_helper_fresh (or_intror eq_refl) Hcalc Hback))).
  discriminate.
Defined.

(** X21.  The back references are appended, never cleared: when they are
    computed a second time with [force], after a first computation on a
    registry that had none, every function has each of its back references
    twice. *)
Theorem forced_recalculation_doubles (w : World) (s s1 s2 : store) :
  registry_ok w s -> _functions (info s) <> [] ->
  no_back_references s ->
  _functionBackreferencesCalculated (info s) = false ->
  calculateFunctionBackreferences w false s = (Ok tt, s1) ->
  calculateFunctionBackreferences w true s1 = (Ok tt, s2) ->
  forall a,
    _parentReferences (function_at s2 a)
    = _parentReferences (function_at s1 a)
      ++ _parentReferences (function_at s1 a).
Proof.
  intros Hok Hfuns Hfresh Hflag Hfirst Hsecond a.
  assert (Hrefs : _references (info s) <> []).
  { destruct (_functions (info s)) as [|[n b] l] eqn:E; [contradiction|].
    destruct Hok as (_ & _ & Hfo). specialize (Hfo n b).
    rewrite E in Hfo. specialize (Hfo (or_introl eq_refl)).
    destruct (_references (info s)); [discriminate Hfo | discriminate]. }
  destruct (calculate_exact w s s1 false Hok Hfuns (or_intror Hflag) Hfirst)
    as (Hg & Hc & _ & Hexact1).
  pose proof (grown_registry_ok w s s1 Hok Hg Hc) as Hok1.
  pose proof (alike_functions _ _ (grown_alike _ _ Hg)) as Hsame.
  assert (Hfuns1 : _functions (info s1) <> []) by now rewrite <- Hsame.
  destruct (calculate_exact w s1 s2 true Hok1 Hfuns1 (or_introl eq_refl)
              Hsecond) as (_ & _ & _ & Hexact2).
  rewrite Hexact2. f_equal. rewrite Hexact1, Hfresh. cbn [app].
  rewrite <- Hsame. apply flat_map_ext. intros f.
  unfold back_from, calls_of.
  now rewrite (calls_of_grown w s Hok Hrefs s1 f Hg Hc).
Qed.

Lemma forced_recalculation_doubles_witness :
  let w := DoxygenExamples.main_helper in
  let s := DoxygenExamples.parsed w in
  let s1 := DoxygenExamples.linked w in
  let s2 := snd (calculateFunctionBackreferences w true s1) in
  _parentReferences (function_at s1 1) = [mkCallLocation 0 "main.c:4"] /\
  calculateFunctionBackreferences w true s1 = (Ok tt, s2) /\
  _parentReferences (function_at s2 1)
    = [mkCallLocation 0 "main.c:4"; mkCallLocation 0 "main.c:4"].
Proof.
  cbv zeta.
  assert (Hok : registry_ok DoxygenExamples.main_helper
                  (DoxygenExamples.parsed DoxygenExamples.main_helper)).
  { apply (IndexParse.reparse_registry_ok _ init);
      [apply IndexParse.init_cache_ok | reflexivity]. }
  assert (Hfirst : calculateFunctionBackreferences DoxygenExamples.main_helper
                     false (DoxygenExamples.parsed DoxygenExamples.main_helper)
                   = (Ok tt, DoxygenExamples.linked DoxygenExamples.main_helper))
    by (vm_compute; reflexivity).
  assert (Hsecond : calculateFunctionBackreferences DoxygenExamples.main_helper
                      true (DoxygenExamples.linked DoxygenExamples.main_helper)
                    = (Ok tt,
                       snd (calculateFunctionBackreferences
                              DoxygenExamples.main_helper true
                              (DoxygenExamples.linked
                                 DoxygenExamples.main_helper))))
    by (vm_compute; reflexivity).
  split; [reflexivity|]. split; [exact Hsecond|].
  rewrite (forced_recalculation_doubles _ _ _ _ Hok ltac:(discriminate)
             main_helper_fresh eq_refl Hfirst Hsecond 1).
  reflexivity.
Defined.

End BackReferencesExact.

(** ** doxygenFunctionInfo.py: the callers of a function, and its page *)

Module Callers.

Import PyDict Doxygen DoxygenFacts Invariants BackReferences.

(** X22.  What [functionsCallThis] returns, exactly.  On a registry that is
    in order, holds a function, and has no back reference yet and the flag
    down, the first call of [functionsCallThis] that returns gives, for the
    function [G] asked about: for each function of the registry, in the
    order of the registry, and for each call to [G] that its
    [thisCallsFunctions] yields, in the order they are yielded, one entry
    with the caller and the location of the call.  From then on every call
    of [functionsCallThis], for whatever function, is answered from the
    lists stored, so that it leaves the store as it is. *)
Theorem functionsCallThis_exact
    (w : World) (s s' : store) (G : addr) (callers : list CallLocation) :
  registry_ok w s -> _functions (info s) <> [] ->
  no_back_references s ->
  _functionBackreferencesCalculated (info s) = false ->
  functionsCallThis w G s = (Ok callers, s') ->
  callers = flat_map (back_from w s G) (values (_functions (info s))) /\
  forall H,
    functionsCallThis w H s'
    = (Ok (flat_map (back_from w s H) (values (_functions (info s)))), s').
Proof.
  intros Hok Hfuns Hfresh Hflag Hrun.
  unfold functionsCallThis in Hrun.
  apply bind_returns in Hrun as ([] & s1 & Hcalc & Hget).
  unfold gets in Hget. injection Hget as <- <-.
  destruct (BackReferencesExact.calculate_exact w s s1 false Hok Hfuns
              (or_intror Hflag) Hcalc) as (_ & _ & Hdone & Hexact).
  split.
  - now rewrite Hexact, Hfresh.
  - intros H. unfold functionsCallThis, bind.
    rewrite (CallGraphSpec.calculate_done w s1 Hdone). unfold gets.
    now rewrite Hexact, Hfresh.
Qed.

Lemma functionsCallThis_exact_witness :
  let w := DoxygenExamples.main_helper in
  let s := DoxygenExamples.parsed w in
  let s' := DoxygenExamples.linked w in
  functionsCallThis w 1 s = (Ok [mkCallLocation 0 "main.c:4"], s') /\
  functionsCallThis w 1 s' = (Ok [mkCallLocation 0 "main.c:4"], s') /\
  functionsCallThis w 0 s' = (Ok [], s').
Proof.
  cbv zeta.
  assert (Hok : registry_ok DoxygenExamples.main_helper
                  (DoxygenExamples.parsed DoxygenExamples.main_helper)).
  { apply (IndexParse.reparse_registry_ok _ init);
      [apply IndexParse.init_cache_ok | reflexivity]. }
  assert (Hrun : functionsCallThis DoxygenExamples.main_helper 1
                   (DoxygenExamples.parsed DoxygenExamples.main_helper)
                 = (Ok [mkCallLocation 0 "main.c:4"],
                    DoxygenExamples.linked DoxygenExamples.main_helper))
    by (vm_compute; reflexivity).
  destruct (functionsCallThis_exact _ _ _ 1 _ Hok ltac:(discriminate)
              BackReferencesExact.main_helper_fresh eq_refl Hrun)
    as [_ Hlater].
  split; [exact Hrun|]. split.
  - rewrite (Hlater 1). reflexivity.
  - rewrite (Hlater 0). reflexivity.
Defined.

End Callers.

Module LocalUrl.

Import Doxygen Invariants.

(** As long as the best extension starts with [h], or there is no page
    yet, the next page is taken. *)
Lemma round_takes best bestExt file url :
  PyStr.startswith "h"%char bestExt = true \/ best = None ->
  localUrl_round (best, bestExt) (file, url)
  = (Some url, PyStr.rsplit1_last "."%char file).
Proof.
  intros [H| ->]; cbn [localUrl_round].
  - now rewrite H.
  - now rewrite orb_true_r.
Qed.

Lemma headers_taken (before : list (string * string)) : forall state,
  PyStr.startswith "h"%char (snd state) = true \/ fst state = None ->
  Forall (fun item => header_like (fst item) = true) before ->
  PyStr.startswith "h"%char (snd (fold_left localUrl_round before state))
    = true
  \/ fst (fold_left localUrl_round before state) = None.
Proof.
  induction before as [|[file url] before IH]; intros [best bestExt] Hopen Hall.
  - exact Hopen.
  - cbn [fold_left]. apply Forall_cons_iff in Hall as [Hfile Hall].
    rewrite (round_takes _ _ _ _ Hopen). apply IH; [|exact Hall].
    left. exact Hfile.
Qed.

(** Once the best extension does not start with [h], the page stays. *)
Lemma rest_kept (after : list (string * string)) best bestExt :
  PyStr.startswith "h"%char bestExt = false ->
  fold_left localUrl_round after (Some best, bestExt) = (Some best, bestExt).
Proof.
  intros H. induction after as [|[file url] after IH]; [reflexivity|].
  cbn [fold_left localUrl_round]. rewrite H. exact IH.
Qed.

(** X23.  Which page [localUrl] returns, given the pages [urls] yields, each
    with the name of its source file.  With no page it returns the empty
    string.  It returns the page of the first source file whose extension
    (the text behind the last dot, or the whole name if there is no dot)
    does not start with [h]; and when every extension starts with [h], the
    page of the last file. *)
Theorem localUrl_choice
    (before after : list (string * string)) (file url : string) :
  Forall (fun item => header_like (fst item) = true) before ->
  localUrl [] = None /\
  localUrl (before ++ [(file, url)]) = Some url /\
  (header_like file = false ->
   localUrl (before ++ (file, url) :: after) = Some url).
Proof.
  intros Hall.
  pose proof (headers_taken before (None, "") (or_intror eq_refl) Hall)
    as Hopen.
  split; [reflexivity|]. unfold localUrl. split.
  - rewrite fold_left_app. cbn [fold_left].
    destruct (fold_left localUrl_round before (None, "")) as [best bestExt].
    now rewrite (round_takes _ _ _ _ Hopen).
  - intros Hfile. rewrite fold_left_app. cbn [fold_left].
    destruct (fold_left localUrl_round before (None, "")) as [best bestExt].
    rewrite (round_takes _ _ _ _ Hopen).
    now rewrite (rest_kept after url _ Hfile).
Qed.

Lemma localUrl_choice_witness :
  localUrl [("util.h", "util_8h.html"); ("util.c", "util_8c.html");
            ("main.c", "main_8c.html")] = Some "util_8c.html" /\
  localUrl [("util.h", "util_8h.html"); ("util.hpp", "util_8hpp.html")]
    = Some "util_8hpp.html".
Proof.
  assert (Hall : Forall (fun item => header_like (fst item) = true)
                   [("util.h", "util_8h.html")])
    by (repeat constructor).
  split.
  - exact (proj2 (proj2 (localUrl_choice [("util.h", "util_8h.html")]
                           [("main.c", "main_8c.html")]
                           "util.c" "util_8c.html" Hall)) eq_refl).
  - exact (proj1 (proj2 (localUrl_choice [("util.h", "util_8h.html")] []
                           "util.hpp" "util_8hpp.html" Hall))).
Defined.

End LocalUrl.
